(** * rss-health-check: feed health monitor with automatic URL failover

    A shallow embedding of [rss-health-check.py]: the date normaliser
    ([_parse_date_flexible]), the per-source probe ([check_source]), the
    thread-pool fan-out and the failure-state loop of [run_checks], the
    text-substitution config mutator ([swap_url_in_config]), the env-file
    reader ([load_env]) and the entry point ([main]).

    Conventions of the embedding.
    - A Python [str] is a Rocq [string] holding its UTF-8 encoding; [bytes]
      are a [string] as well.  Characters are the code points that the
      encoding holds: whitespace and decimal digits are those of
      [str.isspace] and [str.isdecimal], which are also the classes [\s] and
      [\d] of [re] on a [str] pattern (the tables of Unicode 14.0, the
      database of CPython 3.11).
    - A Python [float] is an IEEE 754 binary64 value, a [spec_float] of the
      standard library, with the operations of [SpecFloat] at precision 53:
      infinities, NaN and the signed zeros are values like the others.  A
      number of the config document ([max_age_hours]) is an [int] or a
      [float], a [num]; [len] is a [nat]; the failure counter and a parsed
      [ctime] are Python [int]s, a [Z].
    - A call that may raise returns an [outcome]; a [try] whose handler
      catches every [Exception] turns the callee into an [option].
    - Functions of the Python standard library (json, xml.etree, email.utils,
      datetime, codecs, [round], number formatting) are fields of the class
      [PyLib]; every definition and theorem is parametric in it.
    - Files always accept a read and a write: the config document is a
      [string], the bytes of a UTF-8 text, that [swap_url_in_config] reads
      and replaces as a text file on a POSIX system (line ends are
      translated on reading and written as they are); the state file is the
      map it holds.
    - The network and the clock are inputs: a [probe_io] per probe, a
      [cycle_env] per run, which also fixes the order in which the futures
      of the thread pool complete.
    - The loop of [run_checks] keeps, next to the variables of the program,
      the trace of its calls of [swap_url_in_config]. *)

From Stdlib Require Import String Ascii List ZArith QArith Qround Lia Permutation.
From Stdlib Require Import DecimalString SpecFloat.
From stdpp Require Import gmap strings list.
Import ListNotations.

Set Warnings "-register-all".
Open Scope string_scope.

(** ** Python values and exceptions *)

Record exn := Exn { exn_type : string; exn_msg : string }.

Inductive outcome (A : Type) : Type :=
| Return (a : A)
| Raise (e : exn).
Arguments Return {A} a.
Arguments Raise {A} e.

Definition outcome_bind {A B} (o : outcome A) (k : A -> outcome B) : outcome B :=
  match o with
  | Return a => k a
  | Raise e => Raise e
  end.

(** A Python [float]. *)
Definition float : Type := spec_float.

(** [float(z)] for an [int] that fits: the nearest binary64 value, ties to
    even; an infinity stands for an [int] that is too large. *)
Definition float_of_Z (z : Z) : float := binary_normalize 53 1024 z 0 false.

(** A number as [json] reads it: an [int] or a [float]. *)
Inductive num : Type :=
| NInt (z : Z)
| NFloat (f : float).

(** What [json.loads] hands back. *)
Inductive json : Type :=
| JNull
| JBool (b : bool)
| JInt (z : Z)
| JFloat (f : float)
| JStr (s : string)
| JArr (items : list json)
| JObj (fields : list (string * json)).

(** What [xml.etree.ElementTree] hands back: tag, text, children. *)
Inductive xml : Type :=
| Elem (tag : string) (text : option string) (children : list xml).

(** One entry of a source list in the config document
    ([src.get("name")], [src.get("url")], [src.get("max_age_hours")]);
    [None] stands for a key the entry does not have. *)
Record source := Source {
  src_name : option string;
  src_url : option string;
  src_max_age_hours : option num
}.

(** [config["news_sources"]] with its two sections. *)
Record config := Config {
  sina_api : list source;
  rss_feeds : list source
}.

(** ** The part of the Python standard library the program calls *)

Class PyLib := {
  (** [json.dumps(s)] for a string [s], quotes included. *)
  json_dumps : string -> string;
  (** [json.loads(text)]; [None] when it raises. *)
  json_loads : string -> option json;
  (** [raw.decode("utf-8")]; [None] on [UnicodeDecodeError]. *)
  decode_utf8 : string -> option string;
  (** [raw.decode("latin-1")]. *)
  decode_latin1 : string -> string;
  (** [text.encode("utf-8")]. *)
  encode_utf8 : string -> string;
  (** [ET.fromstring(data)]: the root, or the exception it raises, an
      [ET.ParseError] or another one (such as the [ValueError] for a
      declared multi-byte encoding). *)
  ET_fromstring : string -> outcome xml;
  (** [datetime.datetime] values. *)
  datetime : Type;
  (** [email.utils.parsedate_to_datetime(s)]; [None] when it raises. *)
  parsedate_to_datetime : string -> option datetime;
  (** [datetime.fromisoformat(s)]; [None] when it raises. *)
  fromisoformat : string -> option datetime;
  (** [dt.timestamp()]: the POSIX time, or the exception it raises on a
      date it cannot convert. *)
  timestamp : datetime -> outcome float;
  (** [int(s)] for a string [s]; [None] on [ValueError]. *)
  int_of_str : string -> option Z;
  (** [round(x, 1)]. *)
  round_1 : float -> float;
  (** [f"{x:.0f}"]. *)
  format_0f : float -> string;
  (** [f"{x}"] for a number. *)
  format_num : num -> string;
  (** [json.load] of the config document, viewed as a [config]. *)
  load_config : string -> outcome config
}.

(** ** String operations of [str] *)

(** [s.startswith(p)], returning what follows the prefix. *)
Fixpoint strip_prefix (p s : string) : option string :=
  match p with
  | EmptyString => Some s
  | String a p' =>
      match s with
      | EmptyString => None
      | String b s' => if Ascii.eqb a b then strip_prefix p' s' else None
      end
  end.

(** [p in s]. *)
Fixpoint str_contains (p s : string) : bool :=
  match strip_prefix p s with
  | Some _ => true
  | None =>
      match s with
      | EmptyString => false
      | String _ s' => str_contains p s'
      end
  end.

(** [s.replace(p, r, 1)]. *)
Fixpoint str_replace1 (p r s : string) : string :=
  match strip_prefix p s with
  | Some rest => r ++ rest
  | None =>
      match s with
      | EmptyString => EmptyString
      | String c s' => String c (str_replace1 p r s')
      end
  end.

(** [p] occurs in [s] with [pre] before it and [post] after it. *)
Definition occurs_at (p pre post s : string) : Prop := s = pre ++ p ++ post.

(** The occurrence after [pre] is the leftmost one. *)
Definition leftmost (p pre s : string) : Prop :=
  forall pre' post', occurs_at p pre' post' s -> String.length pre <= String.length pre'.

(** ** Characters of a [str] *)

(** A byte [10xxxxxx] continues a UTF-8 character. *)
Definition is_continuation (c : ascii) : bool :=
  let n := nat_of_ascii c in ((128 <=? n) && (n <? 192))%nat.

(** The characters of a [str]. *)
Fixpoint utf8_chars (s : string) : list string :=
  match s with
  | EmptyString => []
  | String c s' =>
      let chars := utf8_chars s' in
      match s' with
      | EmptyString => String c "" :: chars
      | String c' _ =>
          if is_continuation c' then
            match chars with
            | ch :: rest => String c ch :: rest
            | [] => [String c ""]
            end
          else String c "" :: chars
      end
  end.

(** ["".join(chars)]. *)
Definition join (chars : list string) : string :=
  fold_right String.append "" chars.

Definition byte (c : ascii) : Z := Z.of_nat (nat_of_ascii c).

(** [ord(ch)] for a character given by its UTF-8 bytes; [-1] for bytes
    that are not the encoding of a code point. *)
Definition code_point (ch : string) : Z :=
  match ch with
  | String a EmptyString => if (byte a <? 128)%Z then byte a else (-1)%Z
  | String a (String b EmptyString) =>
      let cp := ((byte a - 192) * 64 + (byte b - 128))%Z in
      if ((192 <=? byte a) && (byte a <? 224) && (128 <=? cp))%Z
      then cp else (-1)%Z
  | String a (String b (String c EmptyString)) =>
      let cp := (((byte a - 224) * 64 + (byte b - 128)) * 64
                 + (byte c - 128))%Z in
      if ((224 <=? byte a) && (byte a <? 240) && (2048 <=? cp)
          && negb ((55296 <=? cp) && (cp <? 57344)))%Z
      then cp else (-1)%Z
  | String a (String b (String c (String d EmptyString))) =>
      let cp := ((((byte a - 240) * 64 + (byte b - 128)) * 64
                  + (byte c - 128)) * 64 + (byte d - 128))%Z in
      if ((240 <=? byte a) && (byte a <? 248) && (65536 <=? cp)
          && (cp <? 1114112))%Z
      then cp else (-1)%Z
  | _ => (-1)%Z
  end.

(** The code points of [str.isspace], which are those of [\s]. *)
Definition is_space_cp (cp : Z) : bool :=
  ((9 <=? cp) && (cp <=? 13) || (28 <=? cp) && (cp <=? 32)
   || (cp =? 133) || (cp =? 160) || (cp =? 5760)
   || (8192 <=? cp) && (cp <=? 8202)
   || (cp =? 8232) || (cp =? 8233) || (cp =? 8239) || (cp =? 8287)
   || (cp =? 12288))%Z.

(** Where the runs of ten decimal digits start: the code points of the
    zeros of category Nd. *)
Definition decimal_zeros : list Z :=
  [
    48; 1632; 1776; 1984; 2406; 2534; 2662; 2790; 2918; 3046; 3174; 3302;
    3430; 3558; 3664; 3792; 3872; 4160; 4240; 6112; 6160; 6470; 6608; 6784;
    6800; 6992; 7088; 7232; 7248; 42528; 43216; 43264; 43472; 43504; 43600;
    44016; 65296; 66720; 68912; 69734; 69872; 69942; 70096; 70384; 70736;
    70864; 71248; 71360; 71472; 71904; 72016; 72784; 73040; 73120; 92768;
    92864; 93008; 120782; 120792; 120802; 120812; 120822; 123200; 123632;
    125264; 130032 ]%Z.

(** The code points of [str.isdecimal], which are those of [\d]. *)
Definition is_decimal_cp (cp : Z) : bool :=
  existsb (fun zero => (zero <=? cp) && (cp <? zero + 10))%Z decimal_zeros.

Definition is_space (ch : string) : bool := is_space_cp (code_point ch).

Definition is_digit (ch : string) : bool := is_decimal_cp (code_point ch).

(** The class [[+-]]. *)
Definition is_sign (ch : string) : bool :=
  String.eqb ch "+" || String.eqb ch "-".

Fixpoint lstrip_chars (chars : list string) : list string :=
  match chars with
  | [] => []
  | ch :: rest => if is_space ch then lstrip_chars rest else chars
  end.

Fixpoint rstrip_chars (chars : list string) : list string :=
  match chars with
  | [] => []
  | ch :: rest =>
      match rstrip_chars rest with
      | [] => if is_space ch then [] else [ch]
      | kept => ch :: kept
      end
  end.

(** [s.lstrip()], [s.rstrip()] and [s.strip()]. *)
Definition lstrip (s : string) : string := join (lstrip_chars (utf8_chars s)).

Definition rstrip (s : string) : string := join (rstrip_chars (utf8_chars s)).

Definition str_strip (s : string) : string :=
  join (rstrip_chars (lstrip_chars (utf8_chars s))).

(** ** Config Mutator *)

Definition carriage_return : ascii := ascii_of_nat 13.
Definition line_feed : ascii := ascii_of_nat 10.

(** What reading a text file yields for its bytes: in the default newline
    mode every ["\r\n"] and every other ["\r"] comes as ["\n"]. *)
Fixpoint universal_newlines (s : string) : string :=
  match s with
  | EmptyString => EmptyString
  | String c s' =>
      if Ascii.eqb c carriage_return then
        String line_feed
          match s' with
          | String c' s'' =>
              if Ascii.eqb c' line_feed then universal_newlines s''
              else universal_newlines s'
          | EmptyString => EmptyString
          end
      else String c (universal_newlines s')
  end.

Section ConfigMutator.
Context `{PyLib}.

(** [swap_url_in_config(old_url, new_url)] on the config document [file]:
    the returned flag and the document afterwards.  The document is read as
    text, and written only when the literal is found. *)
Definition swap_url_in_config (old_url new_url : string) (file : string)
  : bool * string :=
  let text := universal_newlines file in
  let old_json := json_dumps old_url in
  let new_json := json_dumps new_url in
  if negb (str_contains old_json text) then (false, file)
  else (true, str_replace1 old_json new_json text).

End ConfigMutator.

(** ** Date Normalizer *)

(** [$]: the end of the string, or just before a newline that ends it. *)
Definition at_end (chars : list string) : bool :=
  match chars with
  | [] => true
  | [ch] => String.eqb ch (String line_feed "")
  | _ => false
  end.

(** [([+-]\d{4})$] matched at the head of [chars]: group 1 and what follows
    it. *)
Definition match_offset (chars : list string)
  : option (list string * list string) :=
  match chars with
  | sg :: d1 :: d2 :: d3 :: d4 :: rest =>
      if is_sign sg && is_digit d1 && is_digit d2 && is_digit d3 && is_digit d4
         && at_end rest
      then Some ([sg; d1; d2; d3; d4], rest)
      else None
  | _ => None
  end.

(** [\s*([+-]\d{4})$] matched at the head of [chars]: the greedy [\s*] takes
    the whole run of whitespace, and giving some of it back cannot help,
    since no whitespace is a sign. *)
Fixpoint match_spaces_offset (chars : list string)
  : option (list string * list string) :=
  match chars with
  | [] => None
  | ch :: rest =>
      if is_space ch then match_spaces_offset rest else match_offset chars
  end.

(** [re.sub(r'\s*([+-]\d{4})$', r' \1', s)] on the characters of [s]: the
    leftmost match is replaced; what follows a match is empty or one
    newline, where no second match starts. *)
Fixpoint sub_offset_chars (chars : list string) : list string :=
  match match_spaces_offset chars with
  | Some (group, rest) => " " :: group ++ rest
  | None =>
      match chars with
      | [] => []
      | ch :: rest => ch :: sub_offset_chars rest
      end
  end.

Definition sub_offset (s : string) : string :=
  join (sub_offset_chars (utf8_chars s)).

Section DateNormalizer.
Context `{PyLib}.

Definition _parse_date_flexible (date_str : string) : option datetime :=
  let s := str_strip date_str in
  if String.eqb s "" then None
  else
    match parsedate_to_datetime s with
    | Some dt => Some dt
    | None =>
        match fromisoformat s with
        | Some dt => Some dt
        | None =>
            let cleaned := sub_offset s in
            if negb (String.eqb cleaned s) then
              match fromisoformat cleaned with
              | Some dt => Some dt
              | None => None
              end
            else None
        end
    end.

End DateNormalizer.

(** ** Feed Prober *)

(** The [status_dict] of [check_source]. *)
Record result := Result {
  ok : bool;
  error : option string;
  article_count : nat;
  newest_age_hours : option float
}.

(** What one call of [check_source] sees of the outside: the answer of
    [urllib.request.urlopen(...).read()] for a URL (the body, or the
    exception of the request) and the reading of [time.time()]. *)
Record probe_io := ProbeIO {
  urlopen : string -> outcome string;
  time_time : float
}.

Declare Scope outcome_scope.
Delimit Scope outcome_scope with outcome.
Notation "x <- e ;; k" := (outcome_bind e (fun x => k))
  (at level 100, e at next level, right associativity) : outcome_scope.

(** Python truth value of a JSON value. *)
Definition truthy (v : json) : bool :=
  match v with
  | JNull => false
  | JBool b => b
  | JInt z => negb (z =? 0)%Z
  | JFloat f => match f with S754_zero _ => false | _ => true end
  | JStr s => negb (String.eqb s "")
  | JArr items => match items with [] => false | _ => true end
  | JObj fields => match fields with [] => false | _ => true end
  end.

Definition py_type_name (v : json) : string :=
  match v with
  | JNull => "NoneType"
  | JBool _ => "bool"
  | JInt _ => "int"
  | JFloat _ => "float"
  | JStr _ => "str"
  | JArr _ => "list"
  | JObj _ => "dict"
  end.

Fixpoint assoc (key : string) (fields : list (string * json)) : option json :=
  match fields with
  | [] => None
  | (k, v) :: rest => if String.eqb k key then Some v else assoc key rest
  end.

(** [v.get(key, default)]: only a dict has the method. *)
Definition json_get (v : json) (key : string) (default : json) : outcome json :=
  match v with
  | JObj fields =>
      Return (match assoc key fields with Some x => x | None => default end)
  | _ =>
      Raise (Exn "AttributeError"
               ("'" ++ py_type_name v ++ "' object has no attribute 'get'"))
  end.

(** [len(v)]. *)
Definition py_len (v : json) : outcome nat :=
  match v with
  | JArr items => Return (length items)
  | JObj fields => Return (length fields)
  | JStr s => Return (length (utf8_chars s))
  | _ =>
      Raise (Exn "TypeError"
               ("object of type '" ++ py_type_name v ++ "' has no len()"))
  end.

(** The items [for item in v] visits. *)
Definition py_iter (v : json) : outcome (list json) :=
  match v with
  | JArr items => Return items
  | JObj fields => Return (map (fun kv => JStr (fst kv)) fields)
  | JStr s => Return (map JStr (utf8_chars s))
  | _ =>
      Raise (Exn "TypeError"
               ("'" ++ py_type_name v ++ "' object is not iterable"))
  end.

(** [x - y] and [x / y] on floats. *)
Definition float_sub (x y : float) : float := SFsub 53 1024 x y.
Definition float_div (x y : float) : float := SFdiv 53 1024 x y.

(** [x > y] on floats. *)
Definition float_gt (x y : float) : bool := SFltb y x.

(** The conversion of the [int] operand of [x - z]: an [int] beyond the
    floats raises. *)
Definition float_of_int (z : Z) : outcome float :=
  match float_of_Z z with
  | S754_infinity _ =>
      Raise (Exn "OverflowError" "int too large to convert to float")
  | f => Return f
  end.

(** [x > z] for a float and an [int]: Python compares the exact values. *)
Definition float_gt_int (x : float) (z : Z) : bool :=
  match x with
  | S754_nan => false
  | S754_infinity negative => negb negative
  | S754_zero _ => (z <? 0)%Z
  | S754_finite negative m e =>
      let mantissa := (if negative then Z.neg m else Z.pos m) in
      if (0 <=? e)%Z then (z <? mantissa * 2 ^ e)%Z
      else (z * 2 ^ (- e) <? mantissa)%Z
  end.

(** [x > n] for a float and a number. *)
Definition float_gt_num (x : float) (n : num) : bool :=
  match n with
  | NInt z => float_gt_int x z
  | NFloat y => float_gt x y
  end.

(** [int(x)] for a finite float: towards zero. *)
Definition float_trunc (negative : bool) (m : positive) (e : Z) : Z :=
  let magnitude :=
    (if 0 <=? e then Z.pos m * 2 ^ e else Z.pos m / 2 ^ (- e))%Z in
  if negative then (- magnitude)%Z else magnitude.

Definition atom_ns : string := "{http://www.w3.org/2005/Atom}".

(** [elem.iter(tag)]: the element and its descendants with that tag, in
    document order. *)
Fixpoint iter_tag (tag : string) (e : xml) : list xml :=
  match e with
  | Elem t _ children =>
      (if String.eqb t tag then [e] else []) ++ flat_map (iter_tag tag) children
  end.

(** [root.findall(".//" + tag)]: the descendants below the root. *)
Definition findall_descendants (tag : string) (root : xml) : list xml :=
  match root with
  | Elem _ _ children => flat_map (iter_tag tag) children
  end.

(** [item.findtext(tag)]: the text of the first child with that tag, the
    empty string when that child has no text, [None] without such a child. *)
Definition findtext (tag : string) (item : xml) : option string :=
  match item with
  | Elem _ _ children =>
      match List.find (fun c => match c with Elem t _ _ => String.eqb t tag end)
                      children with
      | Some (Elem _ (Some txt) _) => Some txt
      | Some (Elem _ None _) => Some ""
      | None => None
      end
  end.

(** [a or b] for an optional string [a]. *)
Definition or_else (a : option string) (b : string) : string :=
  match a with
  | Some s => if String.eqb s "" then b else s
  | None => b
  end.

(** [except ET.ParseError]. *)
Definition is_parse_error (e : exn) : bool := String.eqb (exn_type e) "ParseError".

Section FeedProber.
Context `{PyLib}.
Local Open Scope outcome_scope.

(** [int(v)] inside [try ... except (ValueError, TypeError)]: [None] when
    the handler runs.  [int] of an infinity raises [OverflowError], which
    the handler does not catch; [int] of a NaN raises [ValueError]. *)
Definition py_int (v : json) : outcome (option Z) :=
  match v with
  | JInt z => Return (Some z)
  | JBool b => Return (Some (if b then 1 else 0)%Z)
  | JFloat f =>
      match f with
      | S754_finite negative m e => Return (Some (float_trunc negative m e))
      | S754_zero _ => Return (Some 0%Z)
      | S754_infinity _ =>
          Raise (Exn "OverflowError" "cannot convert float infinity to integer")
      | S754_nan => Return None
      end
  | JStr s => Return (int_of_str s)
  | JNull | JArr _ | JObj _ => Return None
  end.

(** What one article of a JSON payload offers to the freshness loop, lines
    177-180 and 183-184: its [ctime] when that is truthy and [int] accepts
    it. *)
Definition article_ctime (item : json) : outcome (option Z) :=
  ctime <- json_get item "ctime" (JStr "") ;;
  if truthy ctime then py_int ctime else Return None.

(** The freshness loop over the articles of a JSON payload. *)
Fixpoint newest_ctime (items : list json) (newest_ts : option Z)
  : outcome (option Z) :=
  match items with
  | [] => Return newest_ts
  | item :: rest =>
      parsed <- article_ctime item ;;
      newest_ctime rest
        match parsed with
        | Some ts =>
            match newest_ts with
            | None => Some ts
            | Some newest => if (newest <? ts)%Z then Some ts else newest_ts
            end
        | None => newest_ts
        end
  end.

Definition pub_str (item : xml) : string :=
  or_else (findtext "pubDate" item)
    (or_else (findtext (atom_ns ++ "published") item)
       (or_else (findtext (atom_ns ++ "updated") item) "")).

(** What one item of an XML payload offers to the freshness loop, lines
    224-231: the POSIX time of its date string, when the string is not
    blank and the normalizer parses it. *)
Definition item_timestamp (item : xml) : outcome (option float) :=
  if negb (String.eqb (str_strip (pub_str item)) "") then
    match _parse_date_flexible (pub_str item) with
    | Some dt => ts <- timestamp dt ;; Return (Some ts)
    | None => Return None
    end
  else Return None.

(** The freshness loop over the items of an XML payload. *)
Fixpoint newest_pubdate (items : list xml) (newest_ts : option float)
  : outcome (option float) :=
  match items with
  | [] => Return newest_ts
  | item :: rest =>
      parsed <- item_timestamp item ;;
      newest_pubdate rest
        match parsed with
        | Some ts =>
            match newest_ts with
            | None => Some ts
            | Some newest => if float_gt ts newest then Some ts else newest_ts
            end
        | None => newest_ts
        end
  end.

(** [(now_ts - newest_ts) / 3600]. *)
Definition age_hours (now_ts newest_ts : float) : float :=
  float_div (float_sub now_ts newest_ts) (float_of_Z 3600).

Definition stale_message (age : float) (max_age_hours : num) : string :=
  "stale feed (newest " ++ format_0f age ++ "h, max "
    ++ format_num max_age_hours ++ "h)".

(** The end of either branch of [check_source], from the point where
    [article_count] has been stored and the newest timestamp stands as a
    float: the age of the newest article against the threshold, then "all
    checks passed". *)
Definition check_freshness (count : nat) (now_ts : float)
    (newest_ts : option float) (max_age_hours : num) : result :=
  match newest_ts with
  | Some ts =>
      let age := age_hours now_ts ts in
      if float_gt_num age max_age_hours then
        Result false (Some (stale_message age max_age_hours)) count
          (Some (round_1 age))
      else Result true None count (Some (round_1 age))
  | None => Result true None count None
  end.

(** A result that stops at an error before any article was counted. *)
Definition failed (message : string) : result :=
  Result false (Some message) 0 None.

Definition check_source (io : probe_io) (name url source_type : string)
    (max_age_hours : num) : outcome (string * result) :=
  match urlopen io url with
  | Raise e => Return (name, failed ("unreachable: " ++ exn_type e))
  | Return raw =>
      if String.eqb raw "" then Return (name, failed "empty response")
      else
        let now_ts := time_time io in
        if String.eqb source_type "json" then
          match
            match decode_utf8 raw with
            | Some text => json_loads text
            | None => None
            end
          with
          | None => Return (name, failed "JSON parse error")
          | Some data =>
              res <- json_get data "result" (JObj []) ;;
              articles <- json_get res "data" (JArr []) ;;
              if negb (truthy articles) then
                Return (name, failed "empty feed (0 articles)")
              else
                count <- py_len articles ;;
                items <- py_iter articles ;;
                newest_ts <- newest_ctime items None ;;
                newest_float <-
                  match newest_ts with
                  | Some ts => as_float <- float_of_int ts ;; Return (Some as_float)
                  | None => Return None
                  end ;;
                Return (name,
                        check_freshness count now_ts newest_float max_age_hours)
          end
        else
          let text :=
            match decode_utf8 raw with
            | Some text => text
            | None => decode_latin1 raw
            end in
          match ET_fromstring (encode_utf8 text) with
          | Raise e =>
              if is_parse_error e then Return (name, failed "XML parse error")
              else Raise e
          | Return root =>
              let items :=
                match findall_descendants "item" root with
                | [] => findall_descendants (atom_ns ++ "entry") root
                | items => items
                end in
              match items with
              | [] => Return (name, failed "empty feed (0 articles)")
              | _ =>
                  newest_ts <- newest_pubdate items None ;;
                  Return (name,
                          check_freshness (length items) now_ts newest_ts
                            max_age_hours)
              end
          end
  end.

End FeedProber.

(** ** Concurrent Scheduler *)

Definition FAIL_THRESHOLD : Z := 3.
Definition DEFAULT_MAX_AGE_HOURS : num := NInt 72.

Definition FALLBACK_URLS : gmap string string :=
  list_to_map
    [ ("虎嗅", "https://rsshub.rssforever.com/huxiu/article");
      ("IT之家", "https://rsshub.rssforever.com/ithome");
      ("36氪", "https://rsshub.rssforever.com/36kr/news");
      ("少数派", "https://rsshub.rssforever.com/sspai/matrix");
      ("钛媒体", "https://rsshub.rssforever.com/tmtpost/recommend");
      ("界面新闻", "https://rsshub.rssforever.com/jiemian/list/4");
      ("Solidot", "https://rsshub.rssforever.com/solidot");
      ("南方周末", "https://rsshub.rssforever.com/infzm/2") ].

(** One element of [tasks]: [(name, url, stype, max_age)]. *)
Record task := Task {
  task_name : string;
  task_url : string;
  task_type : string;
  task_max_age : num
}.

Definition task_of (stype : string) (src : source) : task :=
  Task (default "Unknown" (src_name src))
       (default "" (src_url src))
       stype
       (default DEFAULT_MAX_AGE_HOURS (src_max_age_hours src)).

Definition build_tasks (cfg : config) : list task :=
  map (task_of "json") (sina_api cfg) ++ map (task_of "rss") (rss_feeds cfg).

(** [d[k] = v] on a dict kept in insertion order. *)
Fixpoint dict_set {V : Type} (k : string) (v : V) (d : list (string * V))
  : list (string * V) :=
  match d with
  | [] => [(k, v)]
  | (k', v') :: d' =>
      if String.eqb k k' then (k, v) :: d' else (k', v') :: dict_set k v d'
  end.

(** [d.get(k)]. *)
Fixpoint dict_get {V : Type} (k : string) (d : list (string * V)) : option V :=
  match d with
  | [] => None
  | (k', v') :: d' => if String.eqb k k' then Some v' else dict_get k d'
  end.

(** The result stored for a future whose [result()] raises. *)
Definition synthetic (e : exn) : result :=
  Result false (Some ("exception: " ++ exn_msg e)) 0 None.

(** What one run of [run_checks] sees of the outside: the clock string, what
    the probe submitted for the i-th task observes, the order in which
    [as_completed] yields the futures (task indices), and what the revert
    probe of a source observes. *)
Record cycle_env := CycleEnv {
  now_bjt : string;
  task_io : nat -> probe_io;
  completion : list nat;
  revert_io : string -> probe_io
}.

Section Scheduler.
Context `{PyLib}.

(** The body of [for future in as_completed(futures)] for the future of
    task [i]. *)
Definition collect_one (io : nat -> probe_io) (tasks : list task)
    (results : list (string * result)) (i : nat) : list (string * result) :=
  match tasks !! i with
  | Some t =>
      let name := task_name t in
      match check_source (io i) (task_name t) (task_url t) (task_type t)
              (task_max_age t) with
      | Return (_, res) => dict_set name res results
      | Raise e => dict_set name (synthetic e) results
      end
  | None => results
  end.

(** The parallel check: every task is submitted, the futures are visited in
    completion order. *)
Definition collect (io : nat -> probe_io) (tasks : list task)
    (completion_order : list nat) : list (string * result) :=
  fold_left (collect_one io tasks) completion_order [].

End Scheduler.

(** ** Failure-State Machine *)

(** One value of the persisted state, keyed by source name. *)
Record entry := Entry {
  consecutive_fails : Z;
  last_check : option string;
  last_error : option string;
  swapped_from : option string
}.

(** The default of [state.get(name, {...})]. *)
Definition fresh_entry : entry := Entry 0 None None None.

Definition with_swapped_from (v : option string) (e : entry) : entry :=
  Entry (consecutive_fails e) (last_check e) (last_error e) v.

(** Lines 294-301: the counter, the last error and the time stamp. *)
Definition record_result (now : string) (res : result) (e : entry) : entry :=
  if ok res then Entry 0 (Some now) None (swapped_from e)
  else Entry (consecutive_fails e + 1) (Some now) (error res) (swapped_from e).

(** Truth value of an optional string: neither [None] nor empty. *)
Definition str_truthy (o : option string) : bool :=
  match o with
  | Some s => negb (String.eqb s "")
  | None => false
  end.

(** [(name, old_url, new_url)]. *)
Definition event : Type := string * string * string.

(** Which of the two calls of [swap_url_in_config] in [run_checks]. *)
Inductive call_site := AutoSwap | AutoRevert.

(** One call of [swap_url_in_config] made by the loop: where, for which
    source, with which arguments, and what it returned. *)
Record call := Call {
  call_from : call_site;
  call_name : string;
  call_old : string;
  call_new : string;
  call_applied : bool
}.

(** What the loop of [run_checks] reads and writes: the [state] dict, the
    config document on disk, the lists [swapped] and [reverted], and the
    trace of the calls of [swap_url_in_config]. *)
Record mem := Mem {
  mem_state : gmap string entry;
  mem_config : string;
  mem_swapped : list event;
  mem_reverted : list event;
  mem_calls : list call
}.

(** A statement of the loop: it may raise, and it leaves a memory behind
    either way. *)
Definition M (A : Type) : Type := mem -> outcome A * mem.

Definition ret {A} (a : A) : M A := fun m => (Return a, m).

Definition bind {A B} (c : M A) (k : A -> M B) : M B :=
  fun m =>
    match c m with
    | (Return a, m') => k a m'
    | (Raise e, m') => (Raise e, m')
    end.

Definition lift {A} (o : outcome A) : M A := fun m => (o, m).

Declare Scope mem_scope.
Delimit Scope mem_scope with mem.
Notation "x <~ c ;; k" := (bind c (fun x => k))
  (at level 100, c at next level, right associativity) : mem_scope.
Notation "c ;;; k" := (bind c (fun _ => k))
  (at level 100, right associativity) : mem_scope.

(** [state.get(name, {...})]. *)
Definition get_entry (name : string) : M entry :=
  fun m => (Return (default fresh_entry (mem_state m !! name)), m).

(** [state[name] = entry], and every later write through the alias
    [entry]. *)
Definition set_entry (name : string) (e : entry) : M unit :=
  fun m =>
    (Return tt,
     Mem (<[name := e]> (mem_state m)) (mem_config m) (mem_swapped m)
       (mem_reverted m) (mem_calls m)).

Definition append_swapped (ev : event) : M unit :=
  fun m =>
    (Return tt,
     Mem (mem_state m) (mem_config m) (mem_swapped m ++ [ev]) (mem_reverted m)
       (mem_calls m)).

Definition append_reverted (ev : event) : M unit :=
  fun m =>
    (Return tt,
     Mem (mem_state m) (mem_config m) (mem_swapped m) (mem_reverted m ++ [ev])
       (mem_calls m)).

Fixpoint for_each {A} (body : A -> M unit) (l : list A) : M unit :=
  match l with
  | [] => ret tt
  | a :: l' => bind (body a) (fun _ => for_each body l')
  end.

(** The first source with [src.get("name") == source_name] in a section. *)
Fixpoint find_source (source_name : string) (section : list source)
  : option source :=
  match section with
  | [] => None
  | src :: rest =>
      match src_name src with
      | Some n => if String.eqb n source_name then Some src
                  else find_source source_name rest
      | None => find_source source_name rest
      end
  end.

(** [src["url"]]. *)
Definition url_of (src : source) : outcome (option string) :=
  match src_url src with
  | Some u => Return (Some u)
  | None => Raise (Exn "KeyError" "'url'")
  end.

Definition _get_current_url (cfg : config) (source_name : string)
  : outcome (option string) :=
  match find_source source_name (sina_api cfg) with
  | Some src => url_of src
  | None =>
      match find_source source_name (rss_feeds cfg) with
      | Some src => url_of src
      | None => Return None
      end
  end.

(** What persists between two runs: the config document and the state
    file. *)
Record disk := Disk {
  config_file : string;
  state_file : gmap string entry
}.

(** What [run_checks] returns. *)
Record report := Report {
  rep_results : list (string * result);
  rep_state : gmap string entry;
  rep_swapped : list event;
  rep_reverted : list event
}.

(** One run as seen from outside: what it returned or raised, the calls of
    the mutator it made, and the disk it left. *)
Record run := Run {
  run_outcome : outcome report;
  run_calls : list call;
  run_disk : disk
}.

Section StateMachine.
Context `{PyLib}.
Local Open Scope mem_scope.

(** A call of [swap_url_in_config] from the loop. *)
Definition call_swap (site : call_site) (name old_url new_url : string)
  : M bool :=
  fun m =>
    let '(applied, text) := swap_url_in_config old_url new_url (mem_config m) in
    (Return applied,
     Mem (mem_state m) text (mem_swapped m) (mem_reverted m)
       (mem_calls m ++ [Call site name old_url new_url applied])).

(** Lines 304-312; the flag says whether [continue] was reached. *)
Definition auto_swap (cfg : config) (name : string) (res : result) : M bool :=
  entry <~ get_entry name ;;
  if negb (ok res) && (FAIL_THRESHOLD <=? consecutive_fails entry)%Z then
    match FALLBACK_URLS !! name with
    | None => ret false
    | Some fallback_url =>
        match swapped_from entry with
        | Some _ => ret true
        | None =>
            old_url <~ lift (_get_current_url cfg name) ;;
            if str_truthy old_url then
              let old := default "" old_url in
              applied <~ call_swap AutoSwap name old fallback_url ;;
              if applied then
                set_entry name (with_swapped_from (Some old) entry) ;;;
                append_swapped (name, old, fallback_url) ;;;
                ret false
              else ret false
            else ret false
        end
    end
  else ret false.

(** Lines 314-325. *)
Definition auto_revert (env : cycle_env) (cfg : config) (name : string)
    (res : result) : M unit :=
  entry <~ get_entry name ;;
  if ok res && str_truthy (swapped_from entry) then
    let original_url := default "" (swapped_from entry) in
    current_url <~ lift (_get_current_url cfg name) ;;
    if str_truthy current_url
       && negb (String.eqb (default "" current_url) original_url) then
      let current := default "" current_url in
      probe <~ lift (check_source (revert_io env name) name original_url "rss"
                       DEFAULT_MAX_AGE_HOURS) ;;
      if ok (snd probe) then
        applied <~ call_swap AutoRevert name current original_url ;;
        if applied then
          append_reverted (name, current, original_url) ;;;
          set_entry name (with_swapped_from None entry)
        else ret tt
      else ret tt
    else ret tt
  else ret tt.

(** The body of [for name, res in results.items()]. *)
Definition process (env : cycle_env) (cfg : config) (item : string * result)
  : M unit :=
  let '(name, res) := item in
  entry <~ get_entry name ;;
  set_entry name (record_result (now_bjt env) res entry) ;;;
  skip <~ auto_swap cfg name res ;;
  if skip then ret tt else auto_revert env cfg name res.

(** [run_checks()] on a disk: the state is saved only when the loop ends
    without an exception; the config document is whatever the mutator left. *)
Definition run_checks (env : cycle_env) (d : disk) : run :=
  match load_config (config_file d) with
  | Raise e => Run (Raise e) [] d
  | Return cfg =>
      let results := collect (task_io env) (build_tasks cfg) (completion env) in
      match for_each (process env cfg) results
              (Mem (state_file d) (config_file d) [] [] []) with
      | (Return _, m) =>
          Run (Return (Report results (mem_state m) (mem_swapped m)
                         (mem_reverted m)))
            (mem_calls m) (Disk (mem_config m) (mem_state m))
      | (Raise e, m) =>
          Run (Raise e) (mem_calls m) (Disk (mem_config m) (state_file d))
      end
  end.

(** Successive runs, each on the disk the previous one left. *)
Fixpoint run_cycles (envs : list cycle_env) (d : disk) : list run :=
  match envs with
  | [] => []
  | env :: rest =>
      let r := run_checks env d in
      r :: run_cycles rest (run_disk r)
  end.

End StateMachine.

(** ** Vocabulary of the statements *)

(** No whitespace at the end: [s.rstrip() == s]. *)
Definition no_trailing_space (s : string) : Prop := rstrip s = s.

(** A run of whitespace characters. *)
Definition all_space (s : string) : bool := forallb is_space (utf8_chars s).

(** A numeric UTC offset: a sign and four decimal digits, [+0800] or
    [-0500]. *)
Definition utc_offset (s : string) : bool :=
  match utf8_chars s with
  | [sg; d1; d2; d3; d4] =>
      is_sign sg && is_digit d1 && is_digit d2 && is_digit d3 && is_digit d4
  | _ => false
  end.

(** The string does not begin in the middle of a character. *)
Definition starts_character (s : string) : bool :=
  match s with
  | EmptyString => true
  | String c _ => negb (is_continuation c)
  end.

(** Days from 1970-01-01 to a date of the proleptic Gregorian calendar. *)
Definition days_from_civil (y m d : Z) : Z :=
  let y' := (if m <=? 2 then y - 1 else y)%Z in
  let era := (y' / 400)%Z in
  let year_of_era := (y' - era * 400)%Z in
  let month := ((m + 9) mod 12)%Z in
  let day_of_year := ((153 * month + 2) / 5 + d - 1)%Z in
  let day_of_era :=
    (year_of_era * 365 + year_of_era / 4 - year_of_era / 100 + day_of_year)%Z in
  (era * 146097 + day_of_era - 719468)%Z.

(** The POSIX time of the instant that a civil date and time denote at a
    UTC offset given in minutes. *)
Definition posix_seconds (y m d hh mm ss offset_minutes : Z) : Z :=
  (days_from_civil y m d * 86400 + hh * 3600 + mm * 60 + ss
   - offset_minutes * 60)%Z.

Section Vocabulary.
Context `{PyLib}.

(** The body [raw] of a structured-api response parses into the list
    [items] of its articles: lines 161-167. *)
Definition json_articles (raw : string) (items : list json) : Prop :=
  exists text data res,
    decode_utf8 raw = Some text
    /\ json_loads text = Some data
    /\ json_get data "result" (JObj []) = Return res
    /\ json_get res "data" (JArr []) = Return (JArr items).

(** The body [raw] of a feed parses into the list [items] of its items, or
    of its Atom entries when it has no item: lines 195-213. *)
Definition feed_items (raw : string) (items : list xml) : Prop :=
  exists root,
    ET_fromstring
      (encode_utf8
         (match decode_utf8 raw with
          | Some text => text
          | None => decode_latin1 raw
          end)) = Return root
    /\ items = match findall_descendants "item" root with
               | [] => findall_descendants (atom_ns ++ "entry") root
               | found => found
               end.

(** Reading the [ctime] of any of the articles raises nothing. *)
Definition ctimes_readable (items : list json) : Prop :=
  forall item, item ∈ items -> exists parsed, article_ctime item = Return parsed.

(** [ts] is the timestamp of the newest article: one of the articles offers
    it and none offers a later one. *)
Definition greatest_ctime (items : list json) (ts : Z) : Prop :=
  (exists item, item ∈ items /\ article_ctime item = Return (Some ts))
  /\ (forall item t, item ∈ items -> article_ctime item = Return (Some t) ->
                     (t <= ts)%Z).

(** No article offers a timestamp. *)
Definition no_ctime (items : list json) : Prop :=
  forall item, item ∈ items -> article_ctime item = Return None.

(** [ts] is the timestamp of the newest item, the first one in document
    order when several share it: the items before it are older or undated,
    the items after it are not newer, and reading the date of none of them
    raises. *)
Definition latest_pubdate (items : list xml) (ts : float) : Prop :=
  exists before newest after,
    items = (before ++ newest :: after)%list
    /\ item_timestamp newest = Return (Some ts)
    /\ (forall item, item ∈ before ->
          exists parsed,
            item_timestamp item = Return parsed
            /\ forall t, parsed = Some t -> float_gt ts t = true)
    /\ (forall item, item ∈ after ->
          exists parsed,
            item_timestamp item = Return parsed
            /\ forall t, parsed = Some t -> float_gt t ts = false).

(** No item has a date that parses, and reading the dates raises nothing. *)
Definition no_pubdate (items : list xml) : Prop :=
  forall item, item ∈ items -> item_timestamp item = Return None.

(** What the scheduler stores for task [t], submitted as the i-th: the
    result of its probe, or the synthetic failure when the probe raises. *)
Definition stored_result (io : nat -> probe_io) (i : nat) (t : task) : result :=
  match check_source (io i) (task_name t) (task_url t) (task_type t)
          (task_max_age t) with
  | Return (_, res) => res
  | Raise e => Result false (Some ("exception: " ++ exn_msg e)) 0 None
  end.

(** The entry of a source in the loop's [state], the default when absent. *)
Definition entry_at (m : mem) (name : string) : entry :=
  default fresh_entry (mem_state m !! name).

(** The same on a persisted state. *)
Definition state_at (st : gmap string entry) (name : string) : entry :=
  default fresh_entry (st !! name).

(** The memory the loop of a run starts from. *)
Definition initial_mem (d : disk) : mem :=
  Mem (state_file d) (config_file d) [] [] [].

(** [m'] differs from [m] only in what belongs to sources satisfying [P]:
    their entries, and calls and events appended under their names. *)
Definition touched (P : string -> Prop) (m m' : mem) : Prop :=
  (forall k, ~ P k -> mem_state m' !! k = mem_state m !! k)
  /\ (exists cs : list call,
        mem_calls m' = (mem_calls m ++ cs)%list
        /\ Forall (fun c => P (call_name c)) cs)
  /\ (exists evs : list event,
        mem_swapped m' = (mem_swapped m ++ evs)%list
        /\ Forall (fun ev : event => P ev.1.1) evs)
  /\ (exists evs : list event,
        mem_reverted m' = (mem_reverted m ++ evs)%list
        /\ Forall (fun ev : event => P ev.1.1) evs).

(** The memory after lines 292-302: the entry of the source holds the
    outcome of this check. *)
Definition recorded (env : cycle_env) (name : string) (res : result) (m : mem)
  : mem :=
  Mem (<[name := record_result (now_bjt env) res (entry_at m name)]>
         (mem_state m))
      (mem_config m) (mem_swapped m) (mem_reverted m) (mem_calls m).

(** What lines 304-312 can do to the memory: leave it as it is, or call the
    mutator once under the failover conditions. *)
Inductive swap_result (cfg : config) (name : string) (res : result) (m : mem)
  : outcome bool -> mem -> Prop :=
| swap_idle o : swap_result cfg name res m o m
| swap_called fallback_url old applied text :
    ok res = false ->
    (FAIL_THRESHOLD <= consecutive_fails (entry_at m name))%Z ->
    FALLBACK_URLS !! name = Some fallback_url ->
    swapped_from (entry_at m name) = None ->
    _get_current_url cfg name = Return (Some old) ->
    old <> "" ->
    swap_url_in_config old fallback_url (mem_config m) = (applied, text) ->
    swap_result cfg name res m (Return false)
      (Mem (if applied
            then <[name := with_swapped_from (Some old) (entry_at m name)]>
                   (mem_state m)
            else mem_state m)
           text
           (if applied then mem_swapped m ++ [(name, old, fallback_url)]
            else mem_swapped m)
           (mem_reverted m)
           (mem_calls m ++ [Call AutoSwap name old fallback_url applied])).

(** What lines 314-325 can do to the memory: leave it as it is, or call the
    mutator once under the revert conditions. *)
Inductive revert_result (env : cycle_env) (cfg : config) (name : string)
    (res : result) (m : mem) : outcome unit -> mem -> Prop :=
| revert_idle o : revert_result env cfg name res m o m
| revert_called original current probe applied text :
    ok res = true ->
    swapped_from (entry_at m name) = Some original ->
    original <> "" ->
    _get_current_url cfg name = Return (Some current) ->
    current <> "" ->
    current <> original ->
    check_source (revert_io env name) name original "rss"
      DEFAULT_MAX_AGE_HOURS = Return probe ->
    ok probe.2 = true ->
    swap_url_in_config current original (mem_config m) = (applied, text) ->
    revert_result env cfg name res m (Return tt)
      (Mem (if applied
            then <[name := with_swapped_from None (entry_at m name)]>
                   (mem_state m)
            else mem_state m)
           text
           (mem_swapped m)
           (if applied then mem_reverted m ++ [(name, current, original)]
            else mem_reverted m)
           (mem_calls m ++ [Call AutoRevert name current original applied])).

(** The conditions under which line 310 calls the mutator, read on a call
    [c] and on the entry [e] the source had when its turn began. *)
Definition failover_conditions (cfg : config) (name : string) (res : result)
    (e : entry) (c : call) : Prop :=
  call_from c = AutoSwap
  /\ call_name c = name
  /\ ok res = false
  /\ (FAIL_THRESHOLD <= consecutive_fails e + 1)%Z
  /\ FALLBACK_URLS !! name = Some (call_new c)
  /\ swapped_from e = None
  /\ _get_current_url cfg name = Return (Some (call_old c))
  /\ call_old c <> "".

(** The conditions under which line 323 calls the mutator. *)
Definition revert_conditions (env : cycle_env) (cfg : config) (name : string)
    (res : result) (e : entry) (c : call) : Prop :=
  call_from c = AutoRevert
  /\ call_name c = name
  /\ ok res = true
  /\ swapped_from e = Some (call_new c)
  /\ call_new c <> ""
  /\ _get_current_url cfg name = Return (Some (call_old c))
  /\ call_old c <> ""
  /\ call_old c <> call_new c
  /\ exists probe,
       check_source (revert_io env name) name (call_new c) "rss"
         DEFAULT_MAX_AGE_HOURS = Return probe
       /\ ok probe.2 = true.

(** The entry [e'] keeps what lines 294-301 stored for result [res] on top
    of the entry [e]. *)
Definition counters_recorded (env : cycle_env) (res : result) (e e' : entry)
  : Prop :=
  consecutive_fails e' = (if ok res then 0 else consecutive_fails e + 1)%Z
  /\ last_error e' = (if ok res then None else error res)
  /\ last_check e' = Some (now_bjt env).

(** What one turn of the loop for [name] did, from memory [m] to [m'] with
    outcome [o]: no call of the mutator, one failover call, or one revert
    call. *)
Inductive turn (env : cycle_env) (cfg : config) (name : string) (res : result)
    (m : mem) (o : outcome unit) (m' : mem) (e' : entry) : Prop :=
| turn_quiet :
    mem_calls m' = mem_calls m ->
    mem_config m' = mem_config m ->
    mem_swapped m' = mem_swapped m ->
    mem_reverted m' = mem_reverted m ->
    swapped_from e' = swapped_from (entry_at m name) ->
    turn env cfg name res m o m' e'
| turn_failover c :
    failover_conditions cfg name res (entry_at m name) c ->
    mem_calls m' = (mem_calls m ++ [c])%list ->
    swap_url_in_config (call_old c) (call_new c) (mem_config m)
      = (call_applied c, mem_config m') ->
    mem_reverted m' = mem_reverted m ->
    o = Return tt ->
    swapped_from e' = (if call_applied c then Some (call_old c) else None) ->
    mem_swapped m'
      = (if call_applied c
         then (mem_swapped m ++ [(name, call_old c, call_new c)])%list
         else mem_swapped m) ->
    turn env cfg name res m o m' e'
| turn_revert c :
    revert_conditions env cfg name res (entry_at m name) c ->
    mem_calls m' = (mem_calls m ++ [c])%list ->
    swap_url_in_config (call_old c) (call_new c) (mem_config m)
      = (call_applied c, mem_config m') ->
    mem_swapped m' = mem_swapped m ->
    o = Return tt ->
    swapped_from e'
      = (if call_applied c then None else swapped_from (entry_at m name)) ->
    mem_reverted m'
      = (if call_applied c
         then (mem_reverted m ++ [(name, call_old c, call_new c)])%list
         else mem_reverted m) ->
    turn env cfg name res m o m' e'.

End Vocabulary.

(** ** Entry point *)

(** [any(not r["ok"] for r in results.values())]. *)
Definition has_problems (results : list (string * result)) : bool :=
  existsb (fun item => negb (ok item.2)) results.

(** [len(swapped) > 0 or len(reverted) > 0]. *)
Definition has_changes (swapped reverted : list event) : bool :=
  (0 <? length swapped)%nat || (0 <? length reverted)%nat.

(** What [main] decides: the status passed to [sys.exit] and whether
    [send_alert_email] is called. *)
Record exit := Exit {
  exit_status : Z;
  alert_requested : bool
}.

Section EntryPoint.
Context `{PyLib}.

(** [main()], with [send_email] for ["--email" in sys.argv]: the report is
    printed, the alert is sent on problems or changes, and the exit status
    tells whether a result is not ok.  An exception of [run_checks] is not
    caught: the interpreter ends with status 1 and nothing is sent. *)
Definition main (send_email : bool) (env : cycle_env) (d : disk) : exit * disk :=
  let r := run_checks env d in
  match run_outcome r with
  | Return rep =>
      let problems := has_problems (rep_results rep) in
      let changes := has_changes (rep_swapped rep) (rep_reverted rep) in
      (Exit (if negb problems then 0 else 1)
            (send_email && (problems || changes)),
       run_disk r)
  | Raise e => (Exit 1 false, run_disk r)
  end.

(** The timestamp an article of a JSON payload offers to the freshness
    loop: its [ctime] when that is truthy and [int] accepts it. *)
Definition usable_ctime (item : json) : option Z :=
  match article_ctime item with
  | Return parsed => parsed
  | Raise _ => None
  end.

End EntryPoint.

(** All the sources of a config, in the order [_get_current_url] searches
    them. *)
Definition all_sources (cfg : config) : list source :=
  sina_api cfg ++ rss_feeds cfg.

(** ** A small concrete library, for running the model on examples *)

Module Demo.

Definition dquote : string := String (ascii_of_nat 34) "".

(** [json.dumps] on a string of printable ASCII without quote or
    backslash: the string between two quotes. *)
Definition dumps (s : string) : string := dquote ++ s ++ dquote.

Definition Z_to_string (z : Z) : string := NilZero.string_of_int (Z.to_int z).

(** The exact value of a finite float, as a fraction. *)
Definition float_value (f : float) : Q :=
  match f with
  | S754_finite negative m e =>
      let mantissa := (if negative then Z.neg m else Z.pos m) in
      if (0 <=? e)%Z then inject_Z (mantissa * 2 ^ e)
      else Qred (mantissa # Z.to_pos (2 ^ (- e)))
  | _ => 0
  end.

(** To the nearest integer, ties to even. *)
Definition round_half_even (q : Q) : Z :=
  let f := Qfloor q in
  match Qcompare (q - inject_Z f) (1 # 2) with
  | Lt => f
  | Gt => (f + 1)%Z
  | Eq => if Z.even f then f else (f + 1)%Z
  end.

(** The float nearest to [z / 10]: [0.3] is [tenths 3]. *)
Definition tenths (z : Z) : float :=
  SFdiv 53 1024 (float_of_Z z) (float_of_Z 10).

(** [round(x, 1)] for the floats of the examples: the float nearest to the
    tenth that is nearest to the value of [x]. *)
Definition round_tenth (x : float) : float :=
  match x with
  | S754_finite negative _ _ =>
      let nearest := round_half_even (float_value x * 10) in
      if (nearest =? 0)%Z then S754_zero negative else tenths nearest
  | _ => x
  end.

(** [f"{x:.0f}"] for the floats of the examples. *)
Definition show_0f (x : float) : string :=
  Z_to_string (round_half_even (float_value x)).

(** [f"{x}"] for the numbers of the examples: an [int] as its digits, a
    float with an integral value as its digits and [.0]. *)
Definition show_num (n : num) : string :=
  match n with
  | NInt z => Z_to_string z
  | NFloat f => Z_to_string (Qfloor (float_value f)) ++ ".0"
  end.

Definition parse_int (s : string) : option Z :=
  option_map Z.of_int (NilZero.int_of_string s).

(** Body of a feed with a single [<item>] whose [pubDate] is [date]. *)
Definition one_item_feed (date : string) : xml :=
  Elem "rss" None
    [Elem "channel" None
       [Elem "item" None [Elem "pubDate" (Some date) []]]].

(** A Sina payload with the given articles. *)
Definition sina_payload (articles : list json) : json :=
  JObj [("result", JObj [("data", JArr articles)])].

Definition article (ctime : Z) : json := JObj [("ctime", JInt ctime)].

(** Documents the demo parsers know. *)
Definition loads (text : string) : option json :=
  if String.eqb text "[]" then Some (JArr [])
  else if String.eqb text "[1]" then Some (JArr [JInt 1])
  else if String.eqb text "{}" then Some (JObj [])
  else if String.eqb text "{result:{data:[{ctime:1699712000}]}}"
       then Some (sina_payload [article 1699712000])
  else if String.eqb text "{result:{data:[{ctime:1699999000}]}}"
       then Some (sina_payload [article 1699999000])
  else None.

Definition fromstring (data : string) : outcome xml :=
  if String.eqb data "<rss/>" then Return (Elem "rss" None [])
  else if String.eqb data "<rss><channel><item><pubDate>Mon, 02 Jan 2023 08:00:00 +0000</pubDate></item></channel></rss>"
       then Return (one_item_feed "Mon, 02 Jan 2023 08:00:00 +0000")
  else Raise (Exn "ParseError" "syntax error: line 1, column 0").

(** A [datetime] is its POSIX time in seconds. *)
Definition parsedate (s : string) : option Z :=
  if String.eqb s "Mon, 02 Jan 2023 08:00:00 +0000" then Some 1672646400%Z
  else None.

Definition fromiso (s : string) : option Z :=
  if String.eqb s "2023-01-02T08:00:00+08:00" then Some 1672617600%Z
  else if String.eqb s "2023-01-02 08:00:00 +0800" then Some 1672617600%Z
  else if String.eqb s "2023-01-02 08:00:00+0800" then Some 1672617600%Z
  else None.

Definition source_list (name url : string) : config :=
  Config [] [Source (Some name) (Some url) None].

Definition config_text (name url : string) : string :=
  "{rss_feeds:[{name:" ++ dumps name ++ ",url:" ++ dumps url ++ "}]}".

Definition solidot_url : string := "https://www.solidot.org/index.rss".
Definition solidot_mirror : string := "https://rsshub.rssforever.com/solidot".

(** A structured-api source list with one entry. *)
Definition api_list (name url : string) : config :=
  Config [Source (Some name) (Some url) None] [].

Definition api_text (name url : string) : string :=
  "{sina_api:[{name:" ++ dumps name ++ ",url:" ++ dumps url ++ "}]}".

Definition sina_url : string := "https://feed.mix.sina.com.cn/api/roll/get".
Definition sina_mirror : string := "https://mirror.example/sina/roll".

(** A feed body whose only item is dated 2 Jan 2023 08:00 UTC, and a fresh
    Sina payload. *)
Definition feed_body : string :=
  "<rss><channel><item><pubDate>Mon, 02 Jan 2023 08:00:00 +0000</pubDate></item></channel></rss>".
Definition sina_body : string := "{result:{data:[{ctime:1699999000}]}}".

Definition load (text : string) : outcome config :=
  if String.eqb text (config_text "Solidot" solidot_url)
  then Return (source_list "Solidot" solidot_url)
  else if String.eqb text (config_text "Solidot" solidot_mirror)
  then Return (source_list "Solidot" solidot_mirror)
  else if String.eqb text (config_text "Solidot" "")
  then Return (source_list "Solidot" "")
  else if String.eqb text (api_text "sina" sina_mirror)
  then Return (api_list "sina" sina_mirror)
  else if String.eqb text (api_text "sina" sina_url)
  then Return (api_list "sina" sina_url)
  else Raise (Exn "JSONDecodeError" "Expecting value").

#[export] Instance lib : PyLib := {|
  json_dumps := dumps;
  json_loads := loads;
  decode_utf8 := Some;
  decode_latin1 := fun raw => raw;
  encode_utf8 := fun text => text;
  ET_fromstring := fromstring;
  datetime := Z;
  parsedate_to_datetime := parsedate;
  fromisoformat := fromiso;
  timestamp := fun seconds => Return (float_of_Z seconds);
  int_of_str := parse_int;
  round_1 := round_tenth;
  format_0f := show_0f;
  format_num := show_num;
  load_config := load
|}.

(** A network where every request fails. *)
Definition dead_io : probe_io :=
  ProbeIO (fun _ => Raise (Exn "URLError" "connection refused"))
    (float_of_Z 1700000000).

(** A network that answers every request with [body] at time [now]. *)
Definition serving (body : string) (now : float) : probe_io :=
  ProbeIO (fun _ => Return body) now.

(** A network without connectivity: an empty URL is refused before any
    request, every other URL times out. *)
Definition offline_io : probe_io :=
  ProbeIO
    (fun url =>
       if String.eqb url "" then Raise (Exn "ValueError" "unknown url type: ''")
       else Raise (Exn "URLError" "<urlopen error timed out>"))
    (float_of_Z 1700000000).

(** One run at a time when nothing answers. *)
Definition offline : cycle_env :=
  CycleEnv "2023-11-15 06:13 BJT" (fun _ => offline_io) [0%nat]
    (fun _ => offline_io).

(** Solidot has failed twice and is listed with the given URL. *)
Definition failed_twice (url : string) : disk :=
  Disk (config_text "Solidot" url)
       (<["Solidot" := Entry 2 (Some "2023-11-15 05:13 BJT")
                        (Some "unreachable: URLError") None]> ∅).

(** Solidot is swapped to its mirror, three failures on record. *)
Definition swapped_disk : disk :=
  Disk (config_text "Solidot" solidot_mirror)
       (<["Solidot" := Entry 3 (Some "2023-11-15 06:13 BJT")
                        (Some "unreachable: URLError") (Some solidot_url)]> ∅).

(** One hour after the item of [feed_body], every URL serves it. *)
Definition recovered : cycle_env :=
  CycleEnv "2023-01-02 17:00 BJT"
    (fun _ => serving feed_body (float_of_Z 1672650000))
    [0%nat] (fun _ => serving feed_body (float_of_Z 1672650000)).

(** The Sina source runs on its mirror; [swapped_from] holds its URL. *)
Definition sina_swapped : disk :=
  Disk (api_text "sina" sina_mirror)
       (<["sina" := Entry 0 (Some "2023-11-15 05:13 BJT") None
                      (Some sina_url)]> ∅).

(** Mirror and original both serve a fresh Sina payload. *)
Definition sina_recovered : cycle_env :=
  CycleEnv "2023-11-15 06:13 BJT"
    (fun _ => serving sina_body (float_of_Z 1700000000))
    [0%nat] (fun _ => serving sina_body (float_of_Z 1700000000)).

(** Two tasks, the first served a JSON array, the second a feed; the second
    future completes first. *)
Definition two_tasks : list task :=
  [Task "sina" sina_url "json" (NInt 72);
   Task "Solidot" solidot_url "rss" (NInt 72)].
Definition two_ios (i : nat) : probe_io :=
  match i with
  | O => serving "[1]" (float_of_Z 1700000000)
  | _ => serving feed_body (float_of_Z 1672650000)
  end.

End Demo.

(** [s.find(p)]: the index of the leftmost occurrence, [None] for -1. *)
Fixpoint str_find (p s : string) : option nat :=
  match strip_prefix p s with
  | Some _ => Some 0%nat
  | None =>
      match s with
      | EmptyString => None
      | String _ s' => option_map S (str_find p s')
      end
  end.

Section FreshnessVocabulary.
Context `{PyLib}.

(** The timestamp an item of an XML payload offers to the freshness loop:
    that of its date string, when the string is not blank, the normalizer
    parses it and the conversion raises nothing. *)
Definition usable_pubdate (item : xml) : option float :=
  match item_timestamp item with
  | Return parsed => parsed
  | Raise _ => None
  end.

End FreshnessVocabulary.

(** ** Env file *)

(** [s.lstrip(q)] and [s.rstrip(q)] for a single character [q]. *)
Fixpoint lstrip_char (q : ascii) (s : string) : string :=
  match s with
  | EmptyString => EmptyString
  | String c s' => if Ascii.eqb c q then lstrip_char q s' else s
  end.

Fixpoint rstrip_char (q : ascii) (s : string) : string :=
  match s with
  | EmptyString => EmptyString
  | String c s' =>
      match rstrip_char q s' with
      | EmptyString => if Ascii.eqb c q then EmptyString else String c EmptyString
      | r => String c r
      end
  end.

(** [s.strip(q)]. *)
Definition strip_char (q : ascii) (s : string) : string :=
  rstrip_char q (lstrip_char q s).

(** [line.split("=", 1)] when ["=" in line]: what stands before the first
    ["="] and what follows it; [None] when the line has none. *)
Fixpoint split_eq (line : string) : option (string * string) :=
  match line with
  | EmptyString => None
  | String c rest =>
      if Ascii.eqb c "=" then Some (EmptyString, rest)
      else
        match split_eq rest with
        | Some (k, v) => Some (String c k, v)
        | None => None
        end
  end.

Definition double_quote : ascii := ascii_of_nat 34.

(** The body of [for line in f], lines 81-86, on the dict [env]. *)
Definition env_line (env : list (string * string)) (line : string)
  : list (string * string) :=
  let line := str_strip line in
  if String.eqb line ""
     || match strip_prefix "#" line with Some _ => true | None => false end
  then env
  else
    match split_eq line with
    | Some (k, v) =>
        dict_set (str_strip k)
          (strip_char "'" (strip_char double_quote (str_strip v))) env
    | None => env
    end.

(** [load_env(path)]: [None] when the path is not a file, else the lines
    that iterating over the file yields. *)
Definition load_env (file : option (list string)) : list (string * string) :=
  match file with
  | None => []
  | Some lines => fold_left env_line lines []
  end.

(** ** More concrete configs, for the properties of whole runs *)

Module Fleet.

(** A structured-api source and a feed with its own threshold. *)
Definition solidot : source :=
  Source (Some "Solidot") (Some Demo.solidot_url) (Some (NInt 24)).

Definition sources : config :=
  Config [Source (Some "sina") (Some Demo.sina_url) None] [solidot].

(** Solidot listed by name only. *)
Definition nameless_url : config := Config [] [Source (Some "Solidot") None None].

Definition nameless_url_text : string :=
  "{rss_feeds:[{name:" ++ Demo.dumps "Solidot" ++ "}]}".

(** The document of [Demo.config_text] with the slashes of the URL escaped,
    as JSON allows: it loads to the same config. *)
Definition escaped_text : string :=
  "{rss_feeds:[{name:" ++ Demo.dumps "Solidot" ++ ",url:"
    ++ Demo.dumps "https:\/\/www.solidot.org\/index.rss" ++ "}]}".

Definition load (text : string) : outcome config :=
  if String.eqb text nameless_url_text then Return nameless_url
  else if String.eqb text escaped_text
  then Return (Demo.source_list "Solidot" Demo.solidot_url)
  else Demo.load text.

(** Payloads whose articles are not what the prober expects. *)
Definition loads (text : string) : option json :=
  if String.eqb text "{result:{data:[1]}}"
  then Some (Demo.sina_payload [JInt 1])
  else if String.eqb text "{result:{data:7}}"
  then Some (JObj [("result", JObj [("data", JInt 7)])])
  else Demo.loads text.

(** The demo library with the larger tables of documents. *)
Definition lib : PyLib := {|
  json_dumps := Demo.dumps;
  json_loads := loads;
  decode_utf8 := Some;
  decode_latin1 := fun raw => raw;
  encode_utf8 := fun text => text;
  ET_fromstring := Demo.fromstring;
  datetime := Z;
  parsedate_to_datetime := Demo.parsedate;
  fromisoformat := Demo.fromiso;
  timestamp := fun seconds => Return (float_of_Z seconds);
  int_of_str := Demo.parse_int;
  round_1 := Demo.round_tenth;
  format_0f := Demo.show_0f;
  format_num := Demo.show_num;
  load_config := load
|}.

(** The document of [Demo.config_text] on two lines that end in CR LF, as
    an editor on Windows saves it, and the same with LF line ends. *)
Definition crlf : string := String carriage_return (String line_feed "").
Definition lf : string := String line_feed "".

(** U+00A0, the no-break space, in UTF-8. *)
Definition nbsp : string := String (ascii_of_nat 194) (String (ascii_of_nat 160) "").

Definition two_lines (line_end url : string) : string :=
  "{rss_feeds:[" ++ line_end ++ "{name:" ++ Demo.dumps "Solidot" ++ ",url:"
    ++ Demo.dumps url ++ "}]}" ++ line_end.

(** Two failures on record for Solidot, on a given config document. *)
Definition failed_twice (text : string) : disk :=
  Disk text
       (<["Solidot" := Entry 2 (Some "2023-11-15 05:13 BJT")
                        (Some "unreachable: URLError") None]> ∅).

(** A first run: the document of [Demo.config_text], no state yet. *)
Definition first_run : disk :=
  Disk (Demo.config_text "Solidot" Demo.solidot_url) ∅.

(** Two tasks under one name, the first unreachable, the second served. *)
Definition twins : list task :=
  [Task "Solidot" Demo.solidot_url "rss" (NInt 72);
   Task "Solidot" Demo.solidot_mirror "rss" (NInt 72)].
Definition twin_ios (i : nat) : probe_io :=
  match i with
  | O => Demo.dead_io
  | _ => Demo.serving Demo.feed_body (float_of_Z 1672650000)
  end.

End Fleet.

(** ** Facts about the string operations *)

Lemma append_empty_l (s : string) : "" ++ s = s.
Proof. reflexivity. Qed.

Lemma append_cons (c : ascii) (s t : string) :
  String c s ++ t = String c (s ++ t).
Proof. reflexivity. Qed.

Lemma append_empty_r (s : string) : s ++ "" = s.
Proof.
  induction s as [|c s IH]; [reflexivity|].
  rewrite append_cons, IH. reflexivity.
Qed.

Lemma append_assoc (a b c : string) : (a ++ b) ++ c = a ++ b ++ c.
Proof.
  induction a as [|x a IH]; [reflexivity|].
  rewrite !append_cons, IH. reflexivity.
Qed.

Lemma strip_prefix_Some p s rest :
  strip_prefix p s = Some rest <-> s = p ++ rest.
Proof.
  revert s; induction p as [|a p IH]; intros s; cbn [strip_prefix].
  - rewrite append_empty_l. split; intros E; [injection E as ->|subst]; reflexivity.
  - rewrite append_cons. destruct s as [|b s]; [split; discriminate|].
    destruct (Ascii.eqb_spec a b) as [->|Hne].
    + rewrite IH. split; intros E; [subst; reflexivity|].
      injection E as E; exact E.
    + split; [discriminate|]. intros E; injection E as E _. congruence.
Qed.

Lemma strip_prefix_None_head p s :
  strip_prefix p s = None -> forall post, s <> "" ++ p ++ post.
Proof.
  intros E post E'. rewrite append_empty_l in E'.
  apply strip_prefix_Some in E'. congruence.
Qed.

Lemma str_contains_true p s :
  str_contains p s = true <-> exists pre post, occurs_at p pre post s.
Proof.
  unfold occurs_at. induction s as [|c s IH]; cbn [str_contains].
  - destruct (strip_prefix p "") as [rest|] eqn:E.
    + split; [intros _|reflexivity].
      apply strip_prefix_Some in E. exists "", rest. exact E.
    + split; [discriminate|]. intros (pre & post & E').
      destruct pre; [|discriminate].
      destruct (strip_prefix_None_head _ _ E _ E').
  - destruct (strip_prefix p (String c s)) as [rest|] eqn:E.
    + split; [intros _|reflexivity].
      apply strip_prefix_Some in E. exists "", rest. exact E.
    + rewrite IH. split.
      * intros (pre & post & ->). exists (String c pre), post. reflexivity.
      * intros (pre & post & E'). destruct pre as [|c' pre].
        -- destruct (strip_prefix_None_head _ _ E _ E').
        -- rewrite append_cons in E'. injection E' as _ ->.
           exists pre, post. reflexivity.
Qed.

Lemma str_replace1_occurs p r s :
  str_contains p s = true ->
  exists pre post,
    occurs_at p pre post s /\ leftmost p pre s /\ str_replace1 p r s = pre ++ r ++ post.
Proof.
  unfold leftmost, occurs_at.
  induction s as [|c s IH]; cbn [str_contains str_replace1].
  - destruct (strip_prefix p "") as [rest|] eqn:E; [intros _|discriminate].
    apply strip_prefix_Some in E. exists "", rest.
    split; [exact E|]. split; [intros; cbn; lia|reflexivity].
  - destruct (strip_prefix p (String c s)) as [rest|] eqn:E.
    + intros _. apply strip_prefix_Some in E. exists "", rest.
      split; [exact E|]. split; [intros; cbn; lia|reflexivity].
    + intros Hc. destruct (IH Hc) as (pre & post & -> & Hleft & Hrep).
      exists (String c pre), post. split; [reflexivity|]. split.
      * intros pre' post' E'. destruct pre' as [|c' pre'].
        -- destruct (strip_prefix_None_head _ _ E _ E').
        -- rewrite append_cons in E'. injection E' as _ E'.
           cbn [String.length]. apply le_n_S. eapply Hleft. exact E'.
      * rewrite Hrep. reflexivity.
Qed.

(** ** The Config Mutator *)

(** The mutator on every document and every pair of URLs, on the text that
    reading the document yields: either the serialized old URL does not
    occur in it and the call returns [false] with the document as it was,
    or the text splits around the leftmost occurrence as
    [pre ++ old ++ post] and the call returns [true] with
    [pre ++ new ++ post] written. *)
Lemma swap_url_in_config_on_text `{PyLib} (file old_url new_url : string) :
  ((~ exists pre post,
        occurs_at (json_dumps old_url) pre post (universal_newlines file)) /\
   swap_url_in_config old_url new_url file = (false, file))
  \/
  (exists pre post,
      occurs_at (json_dumps old_url) pre post (universal_newlines file) /\
      leftmost (json_dumps old_url) pre (universal_newlines file) /\
      swap_url_in_config old_url new_url file
        = (true, pre ++ json_dumps new_url ++ post)).
Proof.
  unfold swap_url_in_config.
  destruct (str_contains (json_dumps old_url) (universal_newlines file)) eqn:E;
    cbn [negb].
  - right. destruct (str_replace1_occurs _ (json_dumps new_url) _ E)
      as (pre & post & Hocc & Hleft & Hrep).
    exists pre, post. rewrite Hrep. auto.
  - left. split; [|reflexivity].
    intros Hex. apply str_contains_true in Hex. congruence.
Qed.

(** C4 — the claim fails on a document whose lines end in CR LF: the
    document splits around the only occurrence of the old URL, the call
    returns [true], and what it writes is not the document with the
    occurrence replaced, since every line end has become LF. *)
Lemma swap_url_in_config_rewrites_line_ends :
  exists pre post,
    occurs_at (Demo.dumps Demo.solidot_url) pre post
      (Fleet.two_lines Fleet.crlf Demo.solidot_url)
    /\ leftmost (Demo.dumps Demo.solidot_url) pre
         (Fleet.two_lines Fleet.crlf Demo.solidot_url)
    /\ @swap_url_in_config Demo.lib Demo.solidot_url Demo.solidot_mirror
         (Fleet.two_lines Fleet.crlf Demo.solidot_url)
       = (true, Fleet.two_lines Fleet.lf Demo.solidot_mirror)
    /\ Fleet.two_lines Fleet.lf Demo.solidot_mirror
       <> pre ++ Demo.dumps Demo.solidot_mirror ++ post.
Proof.
  assert (Hc : str_contains (Demo.dumps Demo.solidot_url)
                 (Fleet.two_lines Fleet.crlf Demo.solidot_url) = true)
    by reflexivity.
  destruct (str_replace1_occurs _ (Demo.dumps Demo.solidot_mirror) _ Hc)
    as (pre & post & Hocc & Hleft & Hrep).
  exists pre, post. split; [exact Hocc|]. split; [exact Hleft|].
  split; [reflexivity|].
  rewrite <- Hrep. vm_compute. discriminate.
Qed.

(** ** Characters *)

Lemma join_app (a b : list string) : join (a ++ b) = join a ++ join b.
Proof.
  induction a as [|ch a IH]; [reflexivity|].
  cbn [app join fold_right]. fold (join (a ++ b)) (join a).
  rewrite IH, append_assoc. reflexivity.
Qed.

Lemma join_cons (ch : string) (chars : list string) :
  join (ch :: chars) = ch ++ join chars.
Proof. reflexivity. Qed.

Lemma utf8_chars_cons (c : ascii) (s : string) :
  utf8_chars (String c s)
  = match s with
    | EmptyString => [String c ""]
    | String c' _ =>
        if is_continuation c' then
          match utf8_chars s with
          | ch :: rest => String c ch :: rest
          | [] => [String c ""]
          end
        else String c "" :: utf8_chars s
    end.
Proof. destruct s; reflexivity. Qed.

(** A string that is not empty has a first character, which begins with
    its first byte. *)
Lemma utf8_chars_head (c : ascii) (s : string) :
  exists tail rest, utf8_chars (String c s) = String c tail :: rest.
Proof.
  revert c. induction s as [|c' s IH]; intros c; rewrite utf8_chars_cons.
  - eauto.
  - destruct (is_continuation c'); [|eauto].
    destruct (IH c') as (tail & rest & ->). eauto.
Qed.

Lemma join_utf8_chars (s : string) : join (utf8_chars s) = s.
Proof.
  induction s as [|c s IH]; [reflexivity|].
  rewrite utf8_chars_cons. destruct s as [|c' s']; [reflexivity|].
  destruct (is_continuation c').
  - destruct (utf8_chars (String c' s')) as [|ch rest]; [discriminate|].
    rewrite join_cons in *. rewrite append_cons, IH. reflexivity.
  - rewrite join_cons, IH. reflexivity.
Qed.

Lemma utf8_chars_not_empty (s : string) :
  Forall (fun ch => ch <> "") (utf8_chars s).
Proof.
  induction s as [|c s IH]; [constructor|].
  rewrite utf8_chars_cons. destruct s as [|c' s'].
  - constructor; [discriminate|constructor].
  - destruct (is_continuation c').
    + destruct (utf8_chars (String c' s')) as [|ch rest].
      * constructor; [discriminate|constructor].
      * inversion IH; subst. constructor; [discriminate|assumption].
    + constructor; [discriminate|exact IH].
Qed.

(** Splitting a string where a character begins splits its characters. *)
Lemma utf8_chars_app (a b : string) :
  starts_character b = true ->
  utf8_chars (a ++ b) = (utf8_chars a ++ utf8_chars b)%list.
Proof.
  intros Hb. induction a as [|c a IH]; [reflexivity|].
  rewrite append_cons, !utf8_chars_cons, IH.
  destruct a as [|c' a'].
  - rewrite append_empty_l. cbn [utf8_chars app].
    destruct b as [|cb b']; [reflexivity|].
    cbn in Hb. apply negb_true_iff in Hb. rewrite Hb. reflexivity.
  - rewrite append_cons.
    destruct (utf8_chars_head c' a') as (tail & rest & E). rewrite E.
    destruct (is_continuation c'); reflexivity.
Qed.

Lemma continuation_byte (a : ascii) :
  is_continuation a = true -> (128 <= byte a < 192)%Z.
Proof.
  unfold is_continuation, byte. intros Ha.
  apply andb_true_iff in Ha as [Hlo Hhi].
  apply Nat.leb_le in Hlo. apply Nat.ltb_lt in Hhi. lia.
Qed.

Lemma code_point_continuation (a : ascii) (s : string) :
  is_continuation a = true -> code_point (String a s) = (-1)%Z.
Proof.
  intros Ha. apply continuation_byte in Ha.
  destruct s as [|b [|c [|d [|x s]]]]; cbn [code_point]; try reflexivity.
  - destruct (Z.ltb_spec (byte a) 128); [lia|reflexivity].
  - destruct (Z.leb_spec 192 (byte a)); [lia|reflexivity].
  - destruct (Z.leb_spec 224 (byte a)); [lia|reflexivity].
  - destruct (Z.leb_spec 240 (byte a)); [lia|reflexivity].
Qed.

(** A whitespace character is a character: it does not begin with a
    continuation byte. *)
Lemma is_space_starts (ch : string) :
  is_space ch = true -> starts_character ch = true.
Proof.
  destruct ch as [|a s]; [reflexivity|]. cbn [starts_character].
  destruct (is_continuation a) eqn:Ha; [|reflexivity].
  unfold is_space. rewrite (code_point_continuation a s Ha). discriminate.
Qed.

Lemma starts_character_app (a b : string) :
  starts_character a = true -> starts_character b = true ->
  starts_character (a ++ b) = true.
Proof. destruct a; [auto|]. intros Ha _. exact Ha. Qed.

(** A run of whitespace begins with a character. *)
Lemma all_space_starts (ws : string) :
  all_space ws = true -> starts_character ws = true.
Proof.
  unfold all_space. destruct ws as [|a ws]; [reflexivity|].
  destruct (utf8_chars_head a ws) as (tail & rest & E). rewrite E.
  cbn [forallb]. intros Hws. apply andb_true_iff in Hws as [Hw _].
  apply is_space_starts in Hw. exact Hw.
Qed.

Lemma is_sign_cases (ch : string) :
  is_sign ch = true -> ch = "+" \/ ch = "-".
Proof.
  unfold is_sign. intros Hsg. apply orb_true_iff in Hsg as [E|E];
    apply String.eqb_eq in E; auto.
Qed.

Lemma sign_not_space (ch : string) : is_sign ch = true -> is_space ch = false.
Proof. intros Hsg. destruct (is_sign_cases ch Hsg) as [->| ->]; reflexivity. Qed.

Lemma digit_not_newline (d : string) :
  is_digit d = true -> String.eqb d (String line_feed "") = false.
Proof.
  intros Hd. destruct (String.eqb_spec d (String line_feed "")) as [->|];
    [|reflexivity].
  vm_compute in Hd. discriminate.
Qed.

(** ** The Date Normalizer *)

Lemma rstrip_chars_tail (ch : string) (chars : list string) :
  rstrip_chars (ch :: chars) = ch :: chars -> rstrip_chars chars = chars.
Proof.
  cbn [rstrip_chars]. destruct (rstrip_chars chars) as [|ch' kept] eqn:E.
  - destruct (is_space ch); [discriminate|]. intros E'. injection E' as <-.
    reflexivity.
  - intros E'. injection E' as <-. reflexivity.
Qed.

(** What [rstrip] drops is a run of whitespace at the end. *)
Lemma rstrip_chars_split (chars : list string) :
  exists dropped,
    chars = (rstrip_chars chars ++ dropped)%list
    /\ forallb is_space dropped = true.
Proof.
  induction chars as [|ch chars (dropped & IH & Hdropped)].
  - exists []. auto.
  - cbn [rstrip_chars]. destruct (rstrip_chars chars) as [|ch' kept].
    + cbn [app] in IH. subst dropped. destruct (is_space ch) eqn:Hch.
      * exists (ch :: chars). cbn [app forallb]. rewrite Hch, Hdropped. auto.
      * exists chars. auto.
    + exists dropped. cbn [app] in *. rewrite <- IH. auto.
Qed.

Lemma append_same_length (a b : string) : a ++ b = a -> b = "".
Proof.
  induction a as [|c a IH]; [auto|].
  rewrite append_cons. intros E. injection E as E. auto.
Qed.

Lemma no_trailing_space_chars (body : string) :
  no_trailing_space body ->
  rstrip_chars (utf8_chars body) = utf8_chars body.
Proof.
  unfold no_trailing_space, rstrip. intros Hbody.
  rewrite <- (join_utf8_chars body) in Hbody at 2.
  pose proof (utf8_chars_not_empty body) as Hne.
  destruct (rstrip_chars_split (utf8_chars body)) as (dropped & E & _).
  revert Hbody Hne E. generalize (rstrip_chars (utf8_chars body)) as kept.
  generalize (utf8_chars body) as chars. intros chars kept Hbody Hne E.
  subst chars. apply Forall_app in Hne as [_ Hne].
  rewrite join_app in Hbody. symmetry in Hbody.
  apply append_same_length in Hbody.
  destruct dropped as [|ch dropped]; [rewrite app_nil_r; reflexivity|].
  inversion Hne; subst. rewrite join_cons in Hbody.
  destruct ch; [contradiction|discriminate].
Qed.

Lemma at_end_long (a b : string) (chars : list string) :
  at_end (a :: b :: chars) = false.
Proof. reflexivity. Qed.

(** The five characters of an offset. *)
Lemma utc_offset_chars (off : string) :
  utc_offset off = true ->
  exists sg d1 d2 d3 d4,
    utf8_chars off = [sg; d1; d2; d3; d4]
    /\ is_sign sg = true /\ is_digit d1 = true /\ is_digit d2 = true
    /\ is_digit d3 = true /\ is_digit d4 = true.
Proof.
  unfold utc_offset.
  destruct (utf8_chars off) as [|sg [|d1 [|d2 [|d3 [|d4 [|x rest]]]]]];
    try discriminate.
  intros Hoff. repeat (apply andb_true_iff in Hoff as [Hoff ?]).
  exists sg, d1, d2, d3, d4. auto 10.
Qed.

(** Nothing matches at a character that is followed by more than the
    offset. *)
Lemma match_offset_not_last (ch : string) (body : list string)
    (sg d1 d2 d3 d4 : string) :
  is_digit d4 = true ->
  match_offset (ch :: body ++ [sg; d1; d2; d3; d4]) = None.
Proof.
  intros H4.
  destruct body as [|b1 [|b2 [|b3 [|b4 [|b5 body]]]]]; cbn [app match_offset].
  - cbn [at_end]. rewrite (digit_not_newline _ H4), !andb_false_r. reflexivity.
  - rewrite at_end_long, !andb_false_r. reflexivity.
  - rewrite at_end_long, !andb_false_r. reflexivity.
  - rewrite at_end_long, !andb_false_r. reflexivity.
  - rewrite at_end_long, !andb_false_r. reflexivity.
  - destruct body; cbn [app]; rewrite at_end_long, !andb_false_r; reflexivity.
Qed.

Lemma match_spaces_offset_run (ws : list string) (sg d1 d2 d3 d4 : string) :
  forallb is_space ws = true ->
  is_sign sg = true -> is_digit d1 = true -> is_digit d2 = true ->
  is_digit d3 = true -> is_digit d4 = true ->
  match_spaces_offset (ws ++ [sg; d1; d2; d3; d4])
    = Some ([sg; d1; d2; d3; d4], []).
Proof.
  intros Hws Hsg H1 H2 H3 H4. induction ws as [|w ws IH].
  - cbn [app match_spaces_offset match_offset at_end].
    rewrite (sign_not_space _ Hsg), Hsg, H1, H2, H3, H4. reflexivity.
  - cbn [forallb] in Hws. apply andb_true_iff in Hws as [Hw Hws].
    cbn [app match_spaces_offset]. rewrite Hw. auto.
Qed.

Lemma match_spaces_offset_body (ch : string) (body ws : list string)
    (sg d1 d2 d3 d4 : string) :
  rstrip_chars (ch :: body) = ch :: body ->
  is_digit d4 = true ->
  match_spaces_offset ((ch :: body) ++ ws ++ [sg; d1; d2; d3; d4]) = None.
Proof.
  intros Hb H4. revert ch Hb.
  induction body as [|ch' body IH]; intros ch Hb.
  - cbn [app match_spaces_offset].
    destruct (is_space ch) eqn:Hch.
    + cbn [rstrip_chars] in Hb. rewrite Hch in Hb. discriminate.
    + apply match_offset_not_last. exact H4.
  - cbn [app match_spaces_offset]. destruct (is_space ch) eqn:Hch.
    + apply (IH ch'). eapply rstrip_chars_tail. exact Hb.
    + change (ch :: ch' :: (body ++ ws ++ [sg; d1; d2; d3; d4])%list)
        with (ch :: ((ch' :: body) ++ ws ++ [sg; d1; d2; d3; d4])%list).
      rewrite app_assoc. apply match_offset_not_last. exact H4.
Qed.

Lemma sub_offset_chars_repairs (body ws : list string)
    (sg d1 d2 d3 d4 : string) :
  rstrip_chars body = body ->
  forallb is_space ws = true ->
  is_sign sg = true -> is_digit d1 = true -> is_digit d2 = true ->
  is_digit d3 = true -> is_digit d4 = true ->
  sub_offset_chars (body ++ ws ++ [sg; d1; d2; d3; d4])
    = (body ++ " " :: [sg; d1; d2; d3; d4])%list.
Proof.
  intros Hb Hws Hsg H1 H2 H3 H4. induction body as [|ch body IH].
  - cbn [app].
    pose proof (match_spaces_offset_run ws sg d1 d2 d3 d4 Hws Hsg H1 H2 H3 H4)
      as Hm.
    destruct (ws ++ [sg; d1; d2; d3; d4])%list as [|w rest] eqn:E;
      cbn [sub_offset_chars]; rewrite Hm; rewrite app_nil_r; reflexivity.
  - pose proof (match_spaces_offset_body ch body ws sg d1 d2 d3 d4 Hb H4) as Hm.
    cbn [app] in Hm |- *. cbn [sub_offset_chars]. rewrite Hm.
    f_equal. apply IH. eapply rstrip_chars_tail. exact Hb.
Qed.

(** The repair pass: whatever run of whitespace precedes a trailing offset,
    none included, is replaced by one space. *)
Lemma sub_offset_repairs (body ws off : string) :
  no_trailing_space body -> all_space ws = true -> utc_offset off = true ->
  sub_offset (body ++ ws ++ off) = body ++ " " ++ off.
Proof.
  intros Hb Hws Hoff.
  destruct (utc_offset_chars off Hoff)
    as (sg & d1 & d2 & d3 & d4 & Echars & Hsg & H1 & H2 & H3 & H4).
  assert (Hoff_starts : starts_character off = true).
  { rewrite <- (join_utf8_chars off), Echars.
    destruct (is_sign_cases sg Hsg) as [->| ->]; reflexivity. }
  unfold sub_offset.
  rewrite utf8_chars_app
    by (apply starts_character_app; [apply all_space_starts; exact Hws|exact Hoff_starts]).
  rewrite utf8_chars_app by exact Hoff_starts. rewrite Echars.
  rewrite sub_offset_chars_repairs; try assumption.
  - rewrite join_app, join_utf8_chars, join_cons, <- Echars, join_utf8_chars.
    reflexivity.
  - apply no_trailing_space_chars. exact Hb.
Qed.

(** C7 — the normalizer strips the string (Unicode whitespace), tries
    RFC 2822 first, ISO 8601 second, and last the repaired string (one space
    in place of whatever whitespace, none included, precedes a trailing
    [+hhmm]/[-hhmm]) with ISO 8601 again; it returns [None] when all fail,
    and no path of it raises.  With what [email.utils.parsedate_to_datetime]
    and [datetime.fromisoformat] do on the strings of the claim, each of the
    three dates comes back with the POSIX time of its civil time at its
    stated offset: 08:00 at [+0000] is 1672646400, 08:00 at [+08:00] and at
    [+0800] is 1672617600, eight hours earlier; the third only through the
    repair pass.  "yesterday" comes back as [None]. *)
Theorem parse_date_flexible_formats `{PyLib} (d1 d2 d3 : datetime) :
  parsedate_to_datetime "Mon, 02 Jan 2023 08:00:00 +0000" = Some d1 ->
  timestamp d1 = Return (float_of_Z (posix_seconds 2023 1 2 8 0 0 0)) ->
  parsedate_to_datetime "2023-01-02T08:00:00+08:00" = None ->
  fromisoformat "2023-01-02T08:00:00+08:00" = Some d2 ->
  timestamp d2 = Return (float_of_Z (posix_seconds 2023 1 2 8 0 0 (8 * 60))) ->
  parsedate_to_datetime "2023-01-02 08:00:00  +0800" = None ->
  fromisoformat "2023-01-02 08:00:00  +0800" = None ->
  fromisoformat "2023-01-02 08:00:00 +0800" = Some d3 ->
  timestamp d3 = Return (float_of_Z (posix_seconds 2023 1 2 8 0 0 (8 * 60))) ->
  parsedate_to_datetime "yesterday" = None ->
  fromisoformat "yesterday" = None ->
  (forall date_str dt,
      str_strip date_str <> "" ->
      parsedate_to_datetime (str_strip date_str) = Some dt ->
      _parse_date_flexible date_str = Some dt) /\
  (forall date_str dt,
      str_strip date_str <> "" ->
      parsedate_to_datetime (str_strip date_str) = None ->
      fromisoformat (str_strip date_str) = Some dt ->
      _parse_date_flexible date_str = Some dt) /\
  (forall date_str,
      parsedate_to_datetime (str_strip date_str) = None ->
      fromisoformat (str_strip date_str) = None ->
      _parse_date_flexible date_str =
        if String.eqb (str_strip date_str) "" then None
        else if String.eqb (sub_offset (str_strip date_str)) (str_strip date_str)
             then None
             else fromisoformat (sub_offset (str_strip date_str))) /\
  (forall body ws off,
      no_trailing_space body -> all_space ws = true -> utc_offset off = true ->
      sub_offset (body ++ ws ++ off) = body ++ " " ++ off) /\
  (exists dt,
      _parse_date_flexible "Mon, 02 Jan 2023 08:00:00 +0000" = Some dt
      /\ timestamp dt = Return (float_of_Z 1672646400)) /\
  (exists dt,
      _parse_date_flexible "2023-01-02T08:00:00+08:00" = Some dt
      /\ timestamp dt = Return (float_of_Z (1672646400 - 8 * 3600))) /\
  (exists dt,
      sub_offset "2023-01-02 08:00:00  +0800" = "2023-01-02 08:00:00 +0800"
      /\ _parse_date_flexible "2023-01-02 08:00:00  +0800" = Some dt
      /\ timestamp dt = Return (float_of_Z (1672646400 - 8 * 3600))) /\
  _parse_date_flexible "yesterday" = None.
Proof.
  intros H1 T1 H2a H2b T2 H3a H3b H3c T3 H4a H4b.
  repeat match goal with |- _ /\ _ => split end.
  - intros date_str dt Hne Hp. unfold _parse_date_flexible.
    destruct (String.eqb_spec (str_strip date_str) ""); [contradiction|].
    rewrite Hp. reflexivity.
  - intros date_str dt Hne Hp Hi. unfold _parse_date_flexible.
    destruct (String.eqb_spec (str_strip date_str) ""); [contradiction|].
    rewrite Hp, Hi. reflexivity.
  - intros date_str Hp Hi. unfold _parse_date_flexible.
    destruct (String.eqb (str_strip date_str) ""); [reflexivity|].
    rewrite Hp, Hi.
    destruct (String.eqb (sub_offset (str_strip date_str)) (str_strip date_str));
      cbn [negb]; [reflexivity|].
    destruct (fromisoformat (sub_offset (str_strip date_str))); reflexivity.
  - intros body ws off. apply sub_offset_repairs.
  - exists d1. split; [|exact T1]. unfold _parse_date_flexible.
    replace (str_strip "Mon, 02 Jan 2023 08:00:00 +0000")
      with "Mon, 02 Jan 2023 08:00:00 +0000" by (vm_compute; reflexivity).
    cbn [String.eqb Ascii.eqb Bool.eqb]. rewrite H1. reflexivity.
  - exists d2. split; [|exact T2]. unfold _parse_date_flexible.
    replace (str_strip "2023-01-02T08:00:00+08:00")
      with "2023-01-02T08:00:00+08:00" by (vm_compute; reflexivity).
    cbn [String.eqb Ascii.eqb Bool.eqb]. rewrite H2a, H2b. reflexivity.
  - exists d3. split; [vm_compute; reflexivity|]. split; [|exact T3].
    unfold _parse_date_flexible.
    replace (str_strip "2023-01-02 08:00:00  +0800")
      with "2023-01-02 08:00:00  +0800" by (vm_compute; reflexivity).
    cbn [String.eqb Ascii.eqb Bool.eqb]. rewrite H3a, H3b.
    replace (sub_offset "2023-01-02 08:00:00  +0800")
      with "2023-01-02 08:00:00 +0800" by (vm_compute; reflexivity).
    replace (negb ("2023-01-02 08:00:00 +0800" =? "2023-01-02 08:00:00  +0800")%string)
      with true by (vm_compute; reflexivity).
    cbv iota. rewrite H3c. reflexivity.
  - unfold _parse_date_flexible.
    replace (str_strip "yesterday") with "yesterday" by (vm_compute; reflexivity).
    cbn [String.eqb Ascii.eqb Bool.eqb]. rewrite H4a, H4b. reflexivity.
Qed.

(** The four strings run through the demo library, where a date is its
    POSIX time: 08:00 at +0000 is 1672646400, 08:00 at +0800 is eight hours
    earlier. *)
Lemma parse_date_flexible_formats_witness :
  (exists dt,
      @_parse_date_flexible Demo.lib "Mon, 02 Jan 2023 08:00:00 +0000" = Some dt
      /\ @timestamp Demo.lib dt = Return (float_of_Z 1672646400)) /\
  (exists dt,
      @_parse_date_flexible Demo.lib "2023-01-02T08:00:00+08:00" = Some dt
      /\ @timestamp Demo.lib dt = Return (float_of_Z (1672646400 - 8 * 3600))) /\
  (exists dt,
      sub_offset "2023-01-02 08:00:00  +0800" = "2023-01-02 08:00:00 +0800"
      /\ @_parse_date_flexible Demo.lib "2023-01-02 08:00:00  +0800" = Some dt
      /\ @timestamp Demo.lib dt = Return (float_of_Z (1672646400 - 8 * 3600))) /\
  @_parse_date_flexible Demo.lib "yesterday" = None.
Proof.
  destruct (@parse_date_flexible_formats Demo.lib
              1672646400%Z 1672617600%Z 1672617600%Z)
    as (_ & _ & _ & _ & W1 & W2 & W3 & W4);
    try (vm_compute; reflexivity).
  exact (conj W1 (conj W2 (conj W3 W4))).
Defined.

(** ** The Feed Prober *)

Section FeedProberFacts.
Context `{PyLib}.

Lemma string_eqb_false (a b : string) : a <> b -> String.eqb a b = false.
Proof. intros Hne. destruct (String.eqb_spec a b); [contradiction|reflexivity]. Qed.

(** A structured-api body that parses into a list of articles reaches the
    freshness loop with the number of articles it holds. *)
Lemma check_source_json_items io name url max_age_hours raw items :
  urlopen io url = Return raw ->
  raw <> "" ->
  json_articles raw items ->
  items <> [] ->
  check_source io name url "json" max_age_hours
  = (newest_ts <- newest_ctime items None ;;
     newest_float <-
       match newest_ts with
       | Some ts => as_float <- float_of_int ts ;; Return (Some as_float)
       | None => Return None
       end ;;
     Return (name,
             check_freshness (length items) (time_time io) newest_float
               max_age_hours))%outcome.
Proof.
  intros Hfetch Hraw (text & data & res & Hdec & Hload & Hres & Hdata) Hne.
  unfold check_source.
  rewrite Hfetch, (string_eqb_false _ _ Hraw).
  cbn [String.eqb Ascii.eqb Bool.eqb]. rewrite Hdec, Hload.
  rewrite Hres. cbn [outcome_bind]. rewrite Hdata. cbn [outcome_bind].
  destruct items as [|item items]; [contradiction|]. reflexivity.
Qed.

(** A feed body that parses into items reaches the freshness loop with the
    number of items it holds. *)
Lemma check_source_feed_items io name url stype max_age_hours raw items :
  urlopen io url = Return raw ->
  raw <> "" ->
  stype <> "json" ->
  feed_items raw items ->
  items <> [] ->
  check_source io name url stype max_age_hours
  = (newest_ts <- newest_pubdate items None ;;
     Return (name,
             check_freshness (length items) (time_time io) newest_ts
               max_age_hours))%outcome.
Proof.
  intros Hfetch Hraw Hty (root & Hroot & Hitems) Hne.
  unfold check_source.
  rewrite Hfetch, (string_eqb_false _ _ Hraw), (string_eqb_false _ _ Hty), Hroot.
  cbv zeta. rewrite <- Hitems.
  destruct items as [|item items]; [contradiction|]. reflexivity.
Qed.

(** The freshness loop over articles returns when reading each [ctime]
    does, and only then. *)
Lemma newest_ctime_returns items acc :
  ctimes_readable items -> exists newest, newest_ctime items acc = Return newest.
Proof.
  revert acc. induction items as [|item items IH]; intros acc Hread.
  - cbn. eauto.
  - cbn [newest_ctime].
    destruct (Hread item (list_elem_of_here _ _)) as (parsed & ->).
    cbn [outcome_bind]. apply IH. intros it Hin. apply Hread.
    apply list_elem_of_further. exact Hin.
Qed.

(** What the loop keeps: not less than what it started with, not less than
    what any article offers, and one of these. *)
Lemma newest_ctime_acc items acc newest :
  newest_ctime items acc = Return newest ->
  ctimes_readable items
  /\ (forall a, acc = Some a -> exists ts, newest = Some ts /\ (a <= ts)%Z)
  /\ (forall item t, item ∈ items -> article_ctime item = Return (Some t) ->
                     exists ts, newest = Some ts /\ (t <= ts)%Z)
  /\ (forall ts, newest = Some ts ->
                 acc = Some ts
                 \/ exists item,
                      item ∈ items /\ article_ctime item = Return (Some ts)).
Proof.
  revert acc. induction items as [|item items IH]; intros acc E.
  - cbn in E. injection E as <-.
    split; [intros item Hin; apply elem_of_nil in Hin; contradiction|].
    split; [eauto with zarith|].
    split; [|auto]. intros item t Hin. apply elem_of_nil in Hin. contradiction.
  - cbn [newest_ctime] in E.
    destruct (article_ctime item) as [parsed|e] eqn:Hitem; [|discriminate].
    cbn [outcome_bind] in E.
    set (acc' := match parsed with Some _ => _ | None => acc end) in E.
    destruct (IH acc' E) as (Hread & Hacc & Hitems & Horigin).
    assert (Hgrow : forall a, acc = Some a ->
                              exists a', acc' = Some a' /\ (a <= a')%Z).
    { intros a ->. subst acc'.
      destruct parsed as [t|]; [|eauto with zarith].
      destruct (Z.ltb_spec a t); eauto with zarith. }
    assert (Hhead : forall t, parsed = Some t ->
                              exists a', acc' = Some a' /\ (t <= a')%Z).
    { intros t ->. subst acc'.
      destruct acc as [a|]; [|eauto with zarith].
      destruct (Z.ltb_spec a t); eauto with zarith. }
    split; [|split; [|split]].
    + intros it Hin. apply elem_of_cons in Hin as [->|Hin]; [eauto|auto].
    + intros a Ha. destruct (Hgrow a Ha) as (a' & Ha' & Hle).
      destruct (Hacc a' Ha') as (ts & -> & Hle'). eauto with zarith.
    + intros it t Hin Hus. apply elem_of_cons in Hin as [->|Hin].
      * rewrite Hitem in Hus. injection Hus as Hus.
        destruct (Hhead t Hus) as (a' & Ha' & Hle).
        destruct (Hacc a' Ha') as (ts & -> & Hle'). eauto with zarith.
      * eapply Hitems; eauto.
    + intros ts Hts. destruct (Horigin ts Hts) as [Hacc'|(it & Hin & Hus)].
      * subst acc'. destruct parsed as [t|]; [|auto].
        assert (Hhere : exists it, it ∈ item :: items
                                   /\ article_ctime it = Return (Some t)).
        { exists item. split; [apply list_elem_of_here|exact Hitem]. }
        destruct acc as [a|].
        -- destruct (Z.ltb_spec a t).
           ++ injection Hacc' as <-. right. exact Hhere.
           ++ left. exact Hacc'.
        -- injection Hacc' as <-. right. exact Hhere.
      * right. exists it. split; [apply list_elem_of_further; exact Hin|exact Hus].
Qed.

(** The loop finds the timestamp of the newest article. *)
Lemma newest_ctime_greatest items ts :
  ctimes_readable items -> greatest_ctime items ts ->
  newest_ctime items None = Return (Some ts).
Proof.
  intros Hread ((item & Hin & Hitem) & Hmax).
  destruct (newest_ctime_returns items None Hread) as (newest & E).
  rewrite E. destruct (newest_ctime_acc items None newest E)
    as (_ & _ & Hitems & Horigin).
  destruct (Hitems item ts Hin Hitem) as (ts' & -> & Hle).
  destruct (Horigin ts' eq_refl) as [?|(it & Hin' & Hit)]; [discriminate|].
  pose proof (Hmax it ts' Hin' Hit). do 2 f_equal. lia.
Qed.

(** The loop keeps no timestamp when no article offers one. *)
Lemma newest_ctime_none items :
  no_ctime items -> newest_ctime items None = Return None.
Proof.
  intros Hnone. induction items as [|item items IH]; [reflexivity|].
  cbn [newest_ctime]. rewrite (Hnone item (list_elem_of_here _ _)).
  cbn [outcome_bind]. apply IH. intros it Hin. apply Hnone.
  apply list_elem_of_further. exact Hin.
Qed.

(** Past the newest item the loop changes nothing. *)
Lemma newest_pubdate_after after ts :
  (forall item, item ∈ after ->
     exists parsed,
       item_timestamp item = Return parsed
       /\ forall t, parsed = Some t -> float_gt t ts = false) ->
  newest_pubdate after (Some ts) = Return (Some ts).
Proof.
  induction after as [|item after IH]; intros Hafter; [reflexivity|].
  cbn [newest_pubdate].
  destruct (Hafter item (list_elem_of_here _ _)) as (parsed & -> & Hle).
  cbn [outcome_bind].
  assert (Hrest : newest_pubdate after (Some ts) = Return (Some ts)).
  { apply IH. intros it Hin. apply Hafter. apply list_elem_of_further. exact Hin. }
  destruct parsed as [t|]; [|exact Hrest].
  rewrite (Hle t eq_refl). exact Hrest.
Qed.

(** Up to the newest item the loop holds nothing, or an older timestamp. *)
Lemma newest_pubdate_before before rest acc ts :
  (forall item, item ∈ before ->
     exists parsed,
       item_timestamp item = Return parsed
       /\ forall t, parsed = Some t -> float_gt ts t = true) ->
  (forall a, acc = Some a -> float_gt ts a = true) ->
  exists acc',
    newest_pubdate (before ++ rest) acc = newest_pubdate rest acc'
    /\ forall a, acc' = Some a -> float_gt ts a = true.
Proof.
  revert acc. induction before as [|item before IH]; intros acc Hbefore Hacc.
  - exists acc. auto.
  - cbn [app newest_pubdate].
    destruct (Hbefore item (list_elem_of_here _ _)) as (parsed & -> & Hlt).
    cbn [outcome_bind]. apply IH.
    + intros it Hin. apply Hbefore. apply list_elem_of_further. exact Hin.
    + intros a. destruct parsed as [t|]; [|apply Hacc].
      destruct acc as [a0|].
      * destruct (float_gt t a0); [|apply Hacc].
        intros E. injection E as <-. auto.
      * intros E. injection E as <-. auto.
Qed.

(** The loop finds the timestamp of the newest item. *)
Lemma newest_pubdate_latest items ts :
  latest_pubdate items ts -> newest_pubdate items None = Return (Some ts).
Proof.
  intros (before & newest & after & -> & Hnewest & Hbefore & Hafter).
  destruct (newest_pubdate_before before (newest :: after) None ts Hbefore)
    as (acc & -> & Hacc); [discriminate|].
  cbn [newest_pubdate]. rewrite Hnewest. cbn [outcome_bind].
  destruct acc as [a|].
  - rewrite (Hacc a eq_refl). apply newest_pubdate_after. exact Hafter.
  - apply newest_pubdate_after. exact Hafter.
Qed.

(** The loop keeps no timestamp when no item has a date. *)
Lemma newest_pubdate_none items :
  no_pubdate items -> newest_pubdate items None = Return None.
Proof.
  intros Hnone. induction items as [|item items IH]; [reflexivity|].
  cbn [newest_pubdate]. rewrite (Hnone item (list_elem_of_here _ _)).
  cbn [outcome_bind]. apply IH. intros it Hin. apply Hnone.
  apply list_elem_of_further. exact Hin.
Qed.



(** C10 — a structured-api body that is valid JSON but not an object: the
    handler around [json.loads] is already left when [data.get] raises
    [AttributeError], so [check_source] raises instead of returning a parse
    error, and the future of that task is stored as the generic "exception"
    result. *)
Theorem non_object_json_raises
    (io : probe_io) (name url : string) (max_age_hours : num)
    (raw text : string) (data : json) :
  urlopen io url = Return raw ->
  raw <> "" ->
  decode_utf8 raw = Some text ->
  json_loads text = Some data ->
  (forall fields, data <> JObj fields) ->
  let e := Exn "AttributeError"
             ("'" ++ py_type_name data ++ "' object has no attribute 'get'") in
  check_source io name url "json" max_age_hours = Raise e
  /\ (forall ios tasks results i,
         tasks !! i = Some (Task name url "json" max_age_hours) ->
         ios i = io ->
         collect_one ios tasks results i
           = dict_set name
               (Result false (Some ("exception: " ++ exn_msg e)) 0 None)
               results).
Proof.
  intros Hfetch Hraw Hdec Hload Hobj e.
  assert (Hraise : check_source io name url "json" max_age_hours = Raise e).
  { unfold check_source. rewrite Hfetch, (string_eqb_false _ _ Hraw).
    cbn [String.eqb Ascii.eqb Bool.eqb]. rewrite Hdec, Hload.
    destruct data; try reflexivity. destruct (Hobj fields eq_refl). }
  split; [exact Hraise|].
  intros ios tasks results i Ht Hio. unfold collect_one.
  rewrite Ht. cbn [task_name task_url task_type task_max_age].
  rewrite Hio, Hraise. reflexivity.
Qed.

End FeedProberFacts.


(** A JSON array served to a structured-api source in the demo library. *)
Lemma non_object_json_raises_witness :
  @check_source Demo.lib (Demo.serving "[1]" (float_of_Z 1700000000))
      "sina" "https://feed.example/api" "json" (NInt 72)
    = Raise (Exn "AttributeError" "'list' object has no attribute 'get'").
Proof.
  refine (proj1 (@non_object_json_raises Demo.lib
           (Demo.serving "[1]" (float_of_Z 1700000000))
           "sina" "https://feed.example/api" (NInt 72)
           "[1]" "[1]" (JArr [JInt 1]) eq_refl _ eq_refl eq_refl _));
    discriminate.
Defined.

(** ** The Concurrent Scheduler *)

Section DictFacts.
Context {V : Type}.
Implicit Types (d : list (string * V)) (k : string) (v : V).

Lemma dict_get_set_eq d k v : dict_get k (dict_set k v d) = Some v.
Proof.
  induction d as [|[k' v'] d IH]; cbn [dict_set dict_get].
  - rewrite String.eqb_refl. reflexivity.
  - destruct (String.eqb_spec k k') as [->|Hne]; cbn [dict_get].
    + rewrite String.eqb_refl. reflexivity.
    + rewrite (proj2 (String.eqb_neq k k') Hne). exact IH.
Qed.

Lemma dict_get_set_ne d k k' v :
  k <> k' -> dict_get k' (dict_set k v d) = dict_get k' d.
Proof.
  intros Hne. induction d as [|[k0 v0] d IH]; cbn [dict_set dict_get].
  - rewrite (proj2 (String.eqb_neq k' k)); [reflexivity|congruence].
  - destruct (String.eqb_spec k k0) as [->|Hne0]; cbn [dict_get].
    + rewrite (proj2 (String.eqb_neq k' k0)); [reflexivity|congruence].
    + destruct (String.eqb k' k0); [reflexivity|exact IH].
Qed.

Lemma dict_set_keys d k v x : x ∈ (dict_set k v d).*1 <-> x = k \/ x ∈ d.*1.
Proof.
  induction d as [|[k' v'] d IH]; cbn [dict_set].
  - cbn. rewrite list_elem_of_singleton, elem_of_nil. tauto.
  - destruct (String.eqb_spec k k') as [->|Hne]; cbn; rewrite !elem_of_cons.
    + tauto.
    + rewrite IH. tauto.
Qed.

Lemma dict_set_NoDup d k v : NoDup d.*1 -> NoDup (dict_set k v d).*1.
Proof.
  induction d as [|[k' v'] d IH]; cbn [dict_set]; intros Hnd.
  - cbn. apply NoDup_singleton.
  - destruct (String.eqb_spec k k') as [->|Hne]; cbn in *.
    + exact Hnd.
    + apply NoDup_cons in Hnd as [Hk' Hnd]. apply NoDup_cons. split.
      * rewrite dict_set_keys. intros [->|Hin]; [congruence|contradiction].
      * apply IH. exact Hnd.
Qed.

Lemma dict_get_Some_elem d k v : dict_get k d = Some v -> (k, v) ∈ d.
Proof.
  induction d as [|[k' v'] d IH]; cbn [dict_get]; [discriminate|].
  destruct (String.eqb_spec k k') as [->|Hne].
  - intros E. injection E as ->. apply list_elem_of_here.
  - intros E. apply list_elem_of_further. apply IH. exact E.
Qed.

Lemma dict_get_elem d k v : NoDup d.*1 -> (k, v) ∈ d -> dict_get k d = Some v.
Proof.
  induction d as [|[k' v'] d IH]; cbn [dict_get]; intros Hnd Hin.
  - apply elem_of_nil in Hin. contradiction.
  - cbn in Hnd. apply NoDup_cons in Hnd as [Hk' Hnd].
    apply elem_of_cons in Hin as [E|Hin].
    + injection E as -> ->. rewrite String.eqb_refl. reflexivity.
    + destruct (String.eqb_spec k k') as [->|Hne].
      * destruct Hk'. apply list_elem_of_fmap. exists (k', v). auto.
      * apply IH; assumption.
Qed.

End DictFacts.

Section SchedulerFacts.
Context `{PyLib}.
Implicit Types (io : nat -> probe_io) (tasks : list task).

Lemma collect_one_stored io tasks results i t :
  tasks !! i = Some t ->
  collect_one io tasks results i
    = dict_set (task_name t) (stored_result io i t) results.
Proof.
  intros Ht. unfold collect_one, stored_result, synthetic. rewrite Ht.
  destruct (check_source _ _ _ _ _) as [[n res]|e]; reflexivity.
Qed.

Lemma collect_one_absent io tasks results i :
  tasks !! i = None -> collect_one io tasks results i = results.
Proof. intros Ht. unfold collect_one. rewrite Ht. reflexivity. Qed.

Lemma collect_fold_NoDup io tasks order acc :
  NoDup acc.*1 -> NoDup (fold_left (collect_one io tasks) order acc).*1.
Proof.
  revert acc. induction order as [|i order IH]; intros acc Hnd; [exact Hnd|].
  cbn [fold_left]. apply IH.
  destruct (tasks !! i) as [t|] eqn:Ht.
  - rewrite (collect_one_stored _ _ _ _ _ Ht). apply dict_set_NoDup. exact Hnd.
  - rewrite (collect_one_absent _ _ _ _ Ht). exact Hnd.
Qed.

(** The results dict never holds a name twice. *)
Lemma collect_NoDup io tasks order : NoDup (collect io tasks order).*1.
Proof. apply collect_fold_NoDup. cbn. apply NoDup_nil_2. Qed.

Lemma collect_fold_keys io tasks order acc x :
  x ∈ (fold_left (collect_one io tasks) order acc).*1
  <-> x ∈ acc.*1 \/ exists i t, i ∈ order /\ tasks !! i = Some t /\ task_name t = x.
Proof.
  revert acc. induction order as [|i order IH]; intros acc; cbn [fold_left].
  - split; [auto|]. intros [Hx|(i & t & Hi & _)]; [exact Hx|].
    apply elem_of_nil in Hi. contradiction.
  - rewrite IH. destruct (tasks !! i) as [t|] eqn:Ht.
    + rewrite (collect_one_stored _ _ _ _ _ Ht), dict_set_keys. split.
      * intros [[->|Hx]|(j & t' & Hj & Ht' & Hn)].
        -- right. exists i, t. split; [apply list_elem_of_here|auto].
        -- left. exact Hx.
        -- right. exists j, t'. split; [apply list_elem_of_further; exact Hj|auto].
      * intros [Hx|(j & t' & Hj & Ht' & Hn)]; [auto|].
        apply elem_of_cons in Hj as [->|Hj].
        -- left. left. congruence.
        -- right. exists j, t'. auto.
    + rewrite (collect_one_absent _ _ _ _ Ht). split.
      * intros [Hx|(j & t' & Hj & Ht' & Hn)]; [auto|].
        right. exists j, t'. split; [apply list_elem_of_further; exact Hj|auto].
      * intros [Hx|(j & t' & Hj & Ht' & Hn)]; [auto|].
        apply elem_of_cons in Hj as [->|Hj]; [congruence|].
        right. exists j, t'. auto.
Qed.

(** Futures of other names leave the stored result of a name alone. *)
Lemma collect_fold_other io tasks order acc k :
  (forall j t, j ∈ order -> tasks !! j = Some t -> task_name t <> k) ->
  dict_get k (fold_left (collect_one io tasks) order acc) = dict_get k acc.
Proof.
  revert acc. induction order as [|j order IH]; intros acc Hother;
    cbn [fold_left]; [reflexivity|].
  rewrite IH.
  - destruct (tasks !! j) as [t|] eqn:Ht.
    + rewrite (collect_one_stored _ _ _ _ _ Ht). apply dict_get_set_ne.
      eapply Hother; [apply list_elem_of_here|exact Ht].
    + rewrite (collect_one_absent _ _ _ _ Ht). reflexivity.
  - intros j' t' Hj'. apply Hother. apply list_elem_of_further. exact Hj'.
Qed.

Lemma collect_fold_stored io tasks order acc i t :
  NoDup (task_name <$> tasks) ->
  NoDup order ->
  i ∈ order ->
  tasks !! i = Some t ->
  dict_get (task_name t) (fold_left (collect_one io tasks) order acc)
    = Some (stored_result io i t).
Proof.
  intros Hnames. revert acc.
  induction order as [|j order IH]; intros acc Hnd Hi Ht.
  - apply elem_of_nil in Hi. contradiction.
  - apply NoDup_cons in Hnd as [Hj Hnd]. cbn [fold_left].
    apply elem_of_cons in Hi as [->|Hi].
    + rewrite collect_fold_other.
      * rewrite (collect_one_stored _ _ _ _ _ Ht). apply dict_get_set_eq.
      * intros j' t' Hj' Ht' Hsame.
        assert (j' = j); [|congruence].
        eapply (NoDup_lookup _ j' j (task_name t) Hnames);
          rewrite list_lookup_fmap; [rewrite Ht'|rewrite Ht]; cbn;
          congruence.
    + apply IH; assumption.
Qed.

(** C5 — for a task list with distinct names and any completion order of
    its futures: the names of the results are the names of the tasks, each
    once; the result kept under a name is the one of that source's own
    probe, whatever the order; and where a probe raises, the synthetic
    failure ("exception: ...", not ok) is kept for that source only, the
    others keeping their results. *)
Theorem scheduler_one_result_per_source
    (io : nat -> probe_io) (tasks : list task) (order : list nat) :
  NoDup (task_name <$> tasks) ->
  order ≡ₚ seq 0 (length tasks) ->
  (collect io tasks order).*1 ≡ₚ task_name <$> tasks
  /\ length (collect io tasks order) = length tasks
  /\ (forall i t,
        tasks !! i = Some t ->
        dict_get (task_name t) (collect io tasks order)
          = Some (stored_result io i t))
  /\ (forall i t e,
        tasks !! i = Some t ->
        check_source (io i) (task_name t) (task_url t) (task_type t)
          (task_max_age t) = Raise e ->
        dict_get (task_name t) (collect io tasks order)
          = Some (Result false (Some ("exception: " ++ exn_msg e)) 0 None)
        /\ forall j t',
            j <> i -> tasks !! j = Some t' ->
            dict_get (task_name t') (collect io tasks order)
              = Some (stored_result io j t')).
Proof.
  intros Hnames Hperm.
  assert (Hnd : NoDup order).
  { apply NoDup_ListNoDup. eapply Permutation_NoDup; [symmetry; exact Hperm|].
    apply seq_NoDup. }
  assert (Hin : forall i t, tasks !! i = Some t -> i ∈ order).
  { intros i t Ht. rewrite Hperm. apply list_elem_of_In, in_seq.
    apply lookup_lt_Some in Ht. lia. }
  assert (Hstored : forall i t,
             tasks !! i = Some t ->
             dict_get (task_name t) (collect io tasks order)
               = Some (stored_result io i t)).
  { intros i t Ht. apply collect_fold_stored; eauto. }
  assert (Hkeys : (collect io tasks order).*1 ≡ₚ task_name <$> tasks).
  { apply NoDup_Permutation; [apply collect_NoDup|exact Hnames|].
    intros x. unfold collect. rewrite collect_fold_keys. split.
    - intros [Hx|(i & t & _ & Ht & <-)].
      + apply elem_of_nil in Hx. contradiction.
      + apply list_elem_of_fmap. exists t. split; [reflexivity|].
        apply list_elem_of_lookup. exists i. exact Ht.
    - intros Hx. apply list_elem_of_fmap in Hx as (t & -> & Ht).
      apply list_elem_of_lookup in Ht as (i & Ht).
      right. exists i, t. eauto. }
  split; [exact Hkeys|]. split.
  - apply Permutation_length in Hkeys. rewrite !length_fmap in Hkeys. exact Hkeys.
  - split; [exact Hstored|].
    intros i t e Ht Hraise. split.
    + rewrite (Hstored i t Ht). unfold stored_result. rewrite Hraise. reflexivity.
    + intros j t' _ Ht'. apply Hstored. exact Ht'.
Qed.

End SchedulerFacts.

(** ** The Failure-State Machine *)

Section StateMachineFacts.
Context `{PyLib}.
Implicit Types (m : mem) (name : string) (res : result).

Lemma str_truthy_Some (o : option string) :
  str_truthy o = true -> exists s, o = Some s /\ s <> "".
Proof.
  destruct o as [s|]; [|discriminate]. cbn.
  destruct (String.eqb_spec s ""); [discriminate|]. eauto.
Qed.

Lemma auto_swap_result cfg name res m :
  swap_result cfg name res m (auto_swap cfg name res m).1
    (auto_swap cfg name res m).2.
Proof.
  unfold auto_swap, bind, get_entry. cbn beta iota.
  fold (entry_at m name).
  destruct (negb (ok res) && (FAIL_THRESHOLD <=? consecutive_fails (entry_at m name))%Z)
    eqn:Hcond; [|apply swap_idle].
  apply andb_prop in Hcond as [Hok Hthr].
  apply negb_true_iff in Hok. apply Z.leb_le in Hthr.
  destruct (FALLBACK_URLS !! name) as [fb|] eqn:Hfb; [|apply swap_idle].
  destruct (swapped_from (entry_at m name)) as [u|] eqn:Hsw; [apply swap_idle|].
  unfold lift.
  destruct (_get_current_url cfg name) as [old_url|e] eqn:Hurl; [|apply swap_idle].
  destruct (str_truthy old_url) eqn:Htr; [|apply swap_idle].
  apply str_truthy_Some in Htr as (old & -> & Hold).
  change (default "" (Some old)) with old.
  unfold call_swap.
  pose proof (swap_called cfg name res m fb old) as Hres.
  destruct (swap_url_in_config old fb (mem_config m)) as [applied text].
  specialize (Hres applied text Hok Hthr Hfb Hsw Hurl Hold eq_refl).
  destruct applied; exact Hres.
Qed.

Lemma auto_revert_result env cfg name res m :
  revert_result env cfg name res m (auto_revert env cfg name res m).1
    (auto_revert env cfg name res m).2.
Proof.
  unfold auto_revert, bind, get_entry. cbn beta iota.
  fold (entry_at m name).
  destruct (ok res && str_truthy (swapped_from (entry_at m name))) eqn:Hcond;
    [|apply revert_idle].
  apply andb_prop in Hcond as [Hok Htr].
  apply str_truthy_Some in Htr as (original & Hsw & Horig).
  rewrite Hsw. change (default "" (Some original)) with original.
  unfold lift.
  destruct (_get_current_url cfg name) as [current_url|e] eqn:Hurl;
    [|apply revert_idle].
  destruct (str_truthy current_url
            && negb (String.eqb (default "" current_url) original)) eqn:Hcur;
    [|apply revert_idle].
  apply andb_prop in Hcur as [Htr Hne].
  apply str_truthy_Some in Htr as (current & -> & Hcurrent).
  change (default "" (Some current)) with current in *.
  apply negb_true_iff in Hne. apply String.eqb_neq in Hne.
  destruct (check_source (revert_io env name) name original "rss"
              DEFAULT_MAX_AGE_HOURS) as [probe|e] eqn:Hprobe;
    [|apply revert_idle].
  destruct (ok probe.2) eqn:Hpok; [|apply revert_idle].
  unfold call_swap.
  pose proof (revert_called env cfg name res m original current probe) as Hres.
  destruct (swap_url_in_config current original (mem_config m))
    as [applied text].
  specialize (Hres applied text Hok Hsw Horig Hurl Hcurrent Hne Hprobe Hpok
                eq_refl).
  destruct applied; exact Hres.
Qed.

Lemma process_eq env cfg name res m :
  process env cfg (name, res) m =
    match auto_swap cfg name res (recorded env name res m) with
    | (Return true, m2) => (Return tt, m2)
    | (Return false, m2) => auto_revert env cfg name res m2
    | (Raise e, m2) => (Raise e, m2)
    end.
Proof.
  unfold process, bind, get_entry, set_entry, ret, recorded, entry_at.
  cbn beta iota.
  destruct (auto_swap cfg name res _) as [[[]|e] m2]; reflexivity.
Qed.

(** One turn of the loop: the check is recorded, then lines 304-312 run,
    then, unless [continue] or an exception ended the turn, lines 314-325. *)
Lemma process_stages env cfg name res m :
  exists o1 m2,
    swap_result cfg name res (recorded env name res m) o1 m2
    /\ revert_result env cfg name res m2
         (process env cfg (name, res) m).1 (process env cfg (name, res) m).2.
Proof.
  rewrite process_eq.
  pose proof (auto_swap_result cfg name res (recorded env name res m)) as Hs.
  destruct (auto_swap cfg name res (recorded env name res m)) as [o1 m2].
  exists o1, m2. split; [exact Hs|].
  destruct o1 as [[]|e]; [apply revert_idle| |apply revert_idle].
  apply auto_revert_result.
Qed.

Lemma entry_at_recorded env name res m :
  entry_at (recorded env name res m) name
    = record_result (now_bjt env) res (entry_at m name).
Proof. unfold entry_at at 1, recorded. cbn. rewrite lookup_insert_eq. reflexivity. Qed.

(** *** Footprints *)

Lemma touched_refl P m : touched P m m.
Proof.
  unfold touched. split; [auto|].
  repeat split; exists []; rewrite app_nil_r; auto.
Qed.

Lemma touched_trans P m1 m2 m3 :
  touched P m1 m2 -> touched P m2 m3 -> touched P m1 m3.
Proof.
  intros (Hs & (cs & Hc & Hcs) & (sw & Hw & Hsw) & (rv & Hr & Hrv))
         (Hs' & (cs' & Hc' & Hcs') & (sw' & Hw' & Hsw') & (rv' & Hr' & Hrv')).
  split; [intros k Hk; rewrite Hs', Hs; auto|].
  split; [exists (cs ++ cs')%list; rewrite Hc', Hc, app_assoc;
          split; [reflexivity|apply Forall_app; auto]|].
  split; [exists (sw ++ sw')%list; rewrite Hw', Hw, app_assoc;
          split; [reflexivity|apply Forall_app; auto]|].
  exists (rv ++ rv')%list. rewrite Hr', Hr, app_assoc.
  split; [reflexivity|apply Forall_app; auto].
Qed.

Lemma touched_mono (P Q : string -> Prop) m m' :
  (forall k, P k -> Q k) -> touched P m m' -> touched Q m m'.
Proof.
  intros HPQ (Hs & (cs & Hc & Hcs) & (sw & Hw & Hsw) & (rv & Hr & Hrv)).
  split; [intros k Hk; apply Hs; auto|].
  split; [exists cs; split; [exact Hc|eapply Forall_impl; eauto]|].
  split; [exists sw; split; [exact Hw|eapply Forall_impl; eauto]|].
  exists rv. split; [exact Hr|]. eapply Forall_impl; [exact Hrv|]. cbn. auto.
Qed.

Lemma touched_recorded env name res m :
  touched (eq name) m (recorded env name res m).
Proof.
  unfold touched, recorded. cbn. split.
  - intros k Hk. rewrite lookup_insert_ne; auto.
  - repeat split; exists []; rewrite app_nil_r; auto.
Qed.

Lemma touched_swap_result cfg name res m o m' :
  swap_result cfg name res m o m' -> touched (eq name) m m'.
Proof.
  intros [o'|fb old applied text _ _ _ _ _ _ _]; [apply touched_refl|].
  unfold touched. cbn. split.
  - intros k Hk. destruct applied; [rewrite lookup_insert_ne|]; auto.
  - split; [eexists; split; [reflexivity|repeat constructor]|].
    split; [|exists []; rewrite app_nil_r; auto].
    destruct applied.
    + eexists; split; [reflexivity|repeat constructor].
    + exists []. rewrite app_nil_r. auto.
Qed.

Lemma touched_revert_result env cfg name res m o m' :
  revert_result env cfg name res m o m' -> touched (eq name) m m'.
Proof.
  intros [o'|orig cur probe applied text _ _ _ _ _ _ _ _ _];
    [apply touched_refl|].
  unfold touched. cbn. split.
  - intros k Hk. destruct applied; [rewrite lookup_insert_ne|]; auto.
  - split; [eexists; split; [reflexivity|repeat constructor]|].
    split; [exists []; rewrite app_nil_r; auto|].
    destruct applied.
    + eexists; split; [reflexivity|repeat constructor].
    + exists []. rewrite app_nil_r. auto.
Qed.

Lemma process_touched env cfg name res m o m' :
  process env cfg (name, res) m = (o, m') -> touched (eq name) m m'.
Proof.
  intros E. destruct (process_stages env cfg name res m) as (o1 & m2 & Hs & Hr).
  rewrite E in Hr. cbn in Hr.
  eapply touched_trans; [apply touched_recorded|].
  eapply touched_trans; [eapply touched_swap_result; exact Hs|].
  eapply touched_revert_result. exact Hr.
Qed.

Lemma for_each_touched env cfg (P : string -> Prop) l m o m' :
  (forall item, item ∈ l -> P item.1) ->
  for_each (process env cfg) l m = (o, m') ->
  touched P m m'.
Proof.
  revert m. induction l as [|[n r] l IH]; intros m HP E.
  - injection E as <- <-. apply touched_refl.
  - cbn [for_each] in E. unfold bind in E.
    destruct (process env cfg (n, r) m) as [o1 m1] eqn:E1.
    assert (H1 : touched P m m1).
    { eapply touched_mono; [|eapply process_touched; exact E1].
      intros k <-. apply (HP (n, r)). apply list_elem_of_here. }
    destruct o1 as [[]|e].
    + eapply touched_trans; [exact H1|]. eapply IH; [|exact E].
      intros item Hitem. apply HP. apply list_elem_of_further. exact Hitem.
    + injection E as <- <-. exact H1.
Qed.

(** The turn of one source inside a whole loop over a dict: before it and
    after it only other sources are touched. Either the turn ran, or an
    earlier turn raised. *)
Lemma for_each_focus env cfg l name res m o m' :
  NoDup l.*1 ->
  (name, res) ∈ l ->
  for_each (process env cfg) l m = (o, m') ->
  exists m1 m2,
    touched (fun k => k <> name) m m1
    /\ touched (fun k => k <> name) m2 m'
    /\ ((exists o2, process env cfg (name, res) m1 = (o2, m2)
                    /\ (o = Return tt -> o2 = Return tt))
        \/ (m2 = m1 /\ exists e, o = Raise e)).
Proof.
  revert m. induction l as [|[n r] l IH]; intros m Hnd Hin E.
  - apply elem_of_nil in Hin. contradiction.
  - cbn in Hnd. apply NoDup_cons in Hnd as [Hn Hnd].
    cbn [for_each] in E. unfold bind in E.
    destruct (process env cfg (n, r) m) as [o1 m1] eqn:E1.
    apply elem_of_cons in Hin as [Heq|Hin].
    + injection Heq as <- <-.
      exists m, m1. split; [apply touched_refl|].
      destruct o1 as [[]|e].
      * split.
        -- eapply for_each_touched; [|exact E].
           intros item Hitem Hk. apply Hn. rewrite <- Hk.
           apply list_elem_of_fmap. exists item. auto.
        -- left. exists (Return tt). auto.
      * injection E as <- <-. split; [apply touched_refl|].
        left. exists (Raise e). split; [exact E1|discriminate].
    + assert (Hne : n <> name).
      { intros ->. apply Hn. apply list_elem_of_fmap. exists (name, res). auto. }
      assert (H1 : touched (fun k => k <> name) m m1).
      { eapply touched_mono; [|eapply process_touched; exact E1].
        intros k <-. exact Hne. }
      destruct o1 as [[]|e].
      * destruct (IH m1 Hnd Hin E) as (ma & mb & Ha & Hb & Hcase).
        exists ma, mb. split; [eapply touched_trans; eauto|]. auto.
      * injection E as <- <-. exists m1, m1.
        split; [exact H1|]. split; [apply touched_refl|].
        right. eauto.
Qed.


(** *** One turn of the loop *)

Lemma swapped_from_recorded env res e :
  swapped_from (record_result (now_bjt env) res e) = swapped_from e.
Proof. unfold record_result. destruct (ok res); reflexivity. Qed.

Lemma counters_recorded_record env res e :
  counters_recorded env res e (record_result (now_bjt env) res e).
Proof. unfold counters_recorded, record_result. destruct (ok res); cbn; auto. Qed.

Lemma counters_recorded_swapped env res e e1 v :
  counters_recorded env res e e1 ->
  counters_recorded env res e (with_swapped_from v e1).
Proof. unfold counters_recorded, with_swapped_from. cbn. auto. Qed.

Lemma consecutive_fails_recorded env res e :
  ok res = false ->
  consecutive_fails (record_result (now_bjt env) res e)
    = (consecutive_fails e + 1)%Z.
Proof. intros Hok. unfold record_result. rewrite Hok. reflexivity. Qed.

Lemma auto_revert_failing env cfg name res m :
  ok res = false -> auto_revert env cfg name res m = (Return tt, m).
Proof.
  intros Hok. unfold auto_revert, bind, get_entry. cbn beta iota.
  rewrite Hok. reflexivity.
Qed.

(** Every turn is one of the three kinds, and leaves the counters of the
    check in the entry of its source. *)
Lemma process_turn env cfg name res m o m' :
  process env cfg (name, res) m = (o, m') ->
  exists e',
    mem_state m' !! name = Some e'
    /\ counters_recorded env res (entry_at m name) e'
    /\ turn env cfg name res m o m' e'.
Proof.
  intros E. rewrite process_eq in E.
  pose proof (auto_swap_result cfg name res (recorded env name res m)) as Hs.
  pose proof (entry_at_recorded env name res m) as He1.
  pose proof (counters_recorded_record env res (entry_at m name)) as Hc1.
  pose proof (swapped_from_recorded env res (entry_at m name)) as Hsw1.
  assert (Hl1 : mem_state (recorded env name res m) !! name
                = Some (record_result (now_bjt env) res (entry_at m name))).
  { unfold recorded. cbn. apply lookup_insert_eq. }
  assert (Hquiet : forall o0,
             turn env cfg name res m o0 (recorded env name res m)
               (record_result (now_bjt env) res (entry_at m name))).
  { intros o0. apply turn_quiet; try reflexivity. exact Hsw1. }
  destruct (auto_swap cfg name res (recorded env name res m)) as [o1 m2].
  cbn [fst snd] in Hs.
  destruct Hs as [o1|fb old applied text Hok Hthr Hfb Hsw Hurl Hold Hcall].
  - (* lines 304-312 made no call *)
    destruct o1 as [[]|e].
    + injection E as <- <-. eauto.
    + pose proof (auto_revert_result env cfg name res (recorded env name res m))
        as Hr.
      rewrite E in Hr. cbn [fst snd] in Hr.
      destruct Hr as [o|orig cur probe applied text
                        Hok Hsw Horig Hurl Hcur Hne Hprobe Hpok Hcall];
        [eauto|].
      rewrite He1 in *.
      set (e1 := record_result (now_bjt env) res (entry_at m name)) in *.
      exists (if applied then with_swapped_from None e1 else e1).
      split; [destruct applied; cbn; [apply lookup_insert_eq|exact Hl1]|].
      split; [destruct applied;
              [apply counters_recorded_swapped|]; exact Hc1|].
      apply (turn_revert _ _ _ _ _ _ _ _ (Call AutoRevert name cur orig applied));
        cbn; auto.
      * unfold revert_conditions. cbn. rewrite <- Hsw1.
        repeat split; auto. exists probe. auto.
      * destruct applied; [reflexivity|exact Hsw1].
    + injection E as <- <-. eauto.
  - (* line 310 called the mutator: the check had failed *)
    rewrite (auto_revert_failing _ _ _ _ _ Hok) in E. injection E as <- <-.
    rewrite He1 in *.
    set (e1 := record_result (now_bjt env) res (entry_at m name)) in *.
    exists (if applied then with_swapped_from (Some old) e1 else e1).
    split; [destruct applied; cbn; [apply lookup_insert_eq|exact Hl1]|].
    split; [destruct applied;
            [apply counters_recorded_swapped|]; exact Hc1|].
    apply (turn_failover _ _ _ _ _ _ _ _ (Call AutoSwap name old fb applied));
      cbn; auto.
    + unfold failover_conditions. cbn. rewrite <- Hsw1.
      repeat split; auto.
      subst e1. rewrite (consecutive_fails_recorded _ _ _ Hok) in Hthr. exact Hthr.
    + destruct applied; [reflexivity|]. cbn. exact Hsw.
Qed.


(** *** A turn inside a run *)

Lemma touched_other_state name m m' :
  touched (fun k => k <> name) m m' ->
  mem_state m' !! name = mem_state m !! name.
Proof. intros (Hs & _). apply Hs. auto. Qed.

Lemma touched_other_entry name m m' :
  touched (fun k => k <> name) m m' -> entry_at m' name = entry_at m name.
Proof. intros Ht. unfold entry_at. rewrite (touched_other_state _ _ _ Ht). reflexivity. Qed.

Lemma touched_other_calls name m m' c :
  touched (fun k => k <> name) m m' ->
  call_name c = name -> c ∈ mem_calls m' -> c ∈ mem_calls m.
Proof.
  intros (_ & (cs & -> & Hcs) & _) Hn Hin.
  apply elem_of_app in Hin as [Hin|Hin]; [exact Hin|].
  rewrite Forall_forall in Hcs. destruct (Hcs c Hin Hn).
Qed.

Lemma touched_other_swapped name m m' (ev : event) :
  touched (fun k => k <> name) m m' ->
  ev.1.1 = name -> ev ∈ mem_swapped m' -> ev ∈ mem_swapped m.
Proof.
  intros (_ & _ & (evs & -> & Hevs) & _) Hn Hin.
  apply elem_of_app in Hin as [Hin|Hin]; [exact Hin|].
  rewrite Forall_forall in Hevs. destruct (Hevs ev Hin Hn).
Qed.

Lemma touched_other_reverted name m m' (ev : event) :
  touched (fun k => k <> name) m m' ->
  ev.1.1 = name -> ev ∈ mem_reverted m' -> ev ∈ mem_reverted m.
Proof.
  intros (_ & _ & _ & (evs & -> & Hevs)) Hn Hin.
  apply elem_of_app in Hin as [Hin|Hin]; [exact Hin|].
  rewrite Forall_forall in Hevs. destruct (Hevs ev Hin Hn).
Qed.

Lemma touched_calls_kept P m m' c :
  touched P m m' -> c ∈ mem_calls m -> c ∈ mem_calls m'.
Proof. intros (_ & (cs & -> & _) & _) Hin. apply elem_of_app. auto. Qed.

Lemma touched_swapped_kept P m m' (ev : event) :
  touched P m m' -> ev ∈ mem_swapped m -> ev ∈ mem_swapped m'.
Proof. intros (_ & _ & (evs & -> & _) & _) Hin. apply elem_of_app. auto. Qed.

Lemma touched_reverted_kept P m m' (ev : event) :
  touched P m m' -> ev ∈ mem_reverted m -> ev ∈ mem_reverted m'.
Proof. intros (_ & _ & _ & (evs & -> & _)) Hin. apply elem_of_app. auto. Qed.

Lemma entry_at_initial d name : entry_at (initial_mem d) name = state_at (state_file d) name.
Proof. reflexivity. Qed.

(** A run that loaded its config is its loop. *)
Lemma run_checks_loaded env d cfg :
  load_config (config_file d) = Return cfg ->
  exists o mf,
    for_each (process env cfg)
      (collect (task_io env) (build_tasks cfg) (completion env))
      (initial_mem d) = (o, mf)
    /\ run_calls (run_checks env d) = mem_calls mf
    /\ config_file (run_disk (run_checks env d)) = mem_config mf
    /\ ((o = Return tt
         /\ run_outcome (run_checks env d)
            = Return (Report
                        (collect (task_io env) (build_tasks cfg) (completion env))
                        (mem_state mf) (mem_swapped mf) (mem_reverted mf))
         /\ state_file (run_disk (run_checks env d)) = mem_state mf)
        \/ (exists e, o = Raise e
                      /\ run_outcome (run_checks env d) = Raise e
                      /\ state_file (run_disk (run_checks env d)) = state_file d)).
Proof.
  intros Hload. unfold run_checks. rewrite Hload. fold (initial_mem d).
  destruct (for_each _ _ (initial_mem d)) as [[[]|e] mf];
    eexists; exists mf; (split; [reflexivity|]); cbn;
    (split; [reflexivity|]); (split; [reflexivity|]).
  - left. auto.
  - right. eauto.
Qed.

Lemma run_checks_not_loaded env d e :
  load_config (config_file d) = Raise e ->
  run_checks env d = Run (Raise e) [] d.
Proof. intros Hload. unfold run_checks. rewrite Hload. reflexivity. Qed.

(** The turn of a source that has a result, inside the loop of a run. *)
Lemma loop_turn env cfg d name res o mf :
  dict_get name (collect (task_io env) (build_tasks cfg) (completion env))
    = Some res ->
  for_each (process env cfg)
    (collect (task_io env) (build_tasks cfg) (completion env))
    (initial_mem d) = (o, mf) ->
  exists m1 m2,
    touched (fun k => k <> name) (initial_mem d) m1
    /\ touched (fun k => k <> name) m2 mf
    /\ ((exists o2 e',
            (o = Return tt -> o2 = Return tt)
            /\ mem_state m2 !! name = Some e'
            /\ counters_recorded env res (state_at (state_file d) name) e'
            /\ turn env cfg name res m1 o2 m2 e')
        \/ (m2 = m1 /\ exists e, o = Raise e)).
Proof.
  intros Hget E.
  destruct (for_each_focus env cfg _ name res _ _ _
              (collect_NoDup _ _ _) (dict_get_Some_elem _ _ _ Hget) E)
    as (m1 & m2 & H1 & H2 & Hcase).
  exists m1, m2. split; [exact H1|]. split; [exact H2|].
  destruct Hcase as [(o2 & Ep & Ho)|Hraise]; [left|right; exact Hraise].
  destruct (process_turn _ _ _ _ _ _ _ Ep) as (e' & He' & Hc & Ht).
  exists o2, e'. rewrite (touched_other_entry _ _ _ H1), entry_at_initial in Hc.
  auto.
Qed.


(** *** The state update of a run *)

(** C8 — in a run that returns, every source with a check result has, in the
    state returned and saved, [consecutive_fails] 0 and no [last_error] when
    the result is a success, the prior count plus one and the result's error
    when it is a failure, and [last_check] set to the time of the run. *)
Theorem run_checks_records_every_result
    (env : cycle_env) (d : disk) (rep : report) (name : string) (res : result) :
  run_outcome (run_checks env d) = Return rep ->
  dict_get name (rep_results rep) = Some res ->
  exists e',
    rep_state rep !! name = Some e'
    /\ state_file (run_disk (run_checks env d)) !! name = Some e'
    /\ consecutive_fails e'
       = (if ok res then 0
          else consecutive_fails (state_at (state_file d) name) + 1)%Z
    /\ last_error e' = (if ok res then None else error res)
    /\ last_check e' = Some (now_bjt env).
Proof.
  intros Hrun Hget.
  destruct (load_config (config_file d)) as [cfg|e] eqn:Hload.
  2:{ rewrite (run_checks_not_loaded _ _ _ Hload) in Hrun. discriminate. }
  destruct (run_checks_loaded env d cfg Hload)
    as (o & mf & E & _ & _ & [(-> & Hout & Hst)|(e & _ & Hout & _)]).
  2:{ rewrite Hout in Hrun. discriminate. }
  rewrite Hout in Hrun. injection Hrun as <-.
  cbn [rep_results rep_state rep_swapped rep_reverted] in Hget |- *. rewrite Hst.
  destruct (loop_turn env cfg d name res _ mf Hget E)
    as (m1 & m2 & H1 & H2 & [(o2 & e' & _ & He' & Hc & _)|(_ & e & He)]).
  2:{ discriminate. }
  exists e'. rewrite (touched_other_state _ _ _ H2).
  destruct Hc as (Hf & Herr & Hchk). auto.
Qed.

(** *** Failover *)

Lemma auto_swap_called cfg name res m fb old :
  ok res = false ->
  (FAIL_THRESHOLD <= consecutive_fails (entry_at m name))%Z ->
  FALLBACK_URLS !! name = Some fb ->
  swapped_from (entry_at m name) = None ->
  _get_current_url cfg name = Return (Some old) ->
  old <> "" ->
  exists applied text,
    swap_url_in_config old fb (mem_config m) = (applied, text)
    /\ auto_swap cfg name res m
       = (Return false,
          Mem (if applied
               then <[name := with_swapped_from (Some old) (entry_at m name)]>
                      (mem_state m)
               else mem_state m)
              text
              (if applied then (mem_swapped m ++ [(name, old, fb)])%list
               else mem_swapped m)
              (mem_reverted m)
              (mem_calls m ++ [Call AutoSwap name old fb applied])%list).
Proof.
  intros Hok Hthr Hfb Hsw Hurl Hold.
  unfold auto_swap, bind, get_entry, lift, call_swap. cbn beta iota.
  fold (entry_at m name).
  apply Z.leb_le in Hthr. rewrite Hok, Hthr, Hfb, Hsw, Hurl.
  cbn [negb andb str_truthy]. rewrite (string_eqb_false _ _ Hold).
  cbn [negb]. change (default "" (Some old)) with old.
  destruct (swap_url_in_config old fb (mem_config m)) as [applied text].
  exists applied, text. split; [reflexivity|].
  destruct applied; reflexivity.
Qed.

Lemma process_failover_call env cfg name res m o m' fb old :
  ok res = false ->
  (FAIL_THRESHOLD <= consecutive_fails (entry_at m name) + 1)%Z ->
  FALLBACK_URLS !! name = Some fb ->
  swapped_from (entry_at m name) = None ->
  _get_current_url cfg name = Return (Some old) ->
  old <> "" ->
  process env cfg (name, res) m = (o, m') ->
  exists applied,
    mem_calls m' = (mem_calls m ++ [Call AutoSwap name old fb applied])%list.
Proof.
  intros Hok Hthr Hfb Hsw Hurl Hold E. rewrite process_eq in E.
  destruct (auto_swap_called cfg name res (recorded env name res m) fb old)
    as (applied & text & _ & Eswap); auto.
  - rewrite entry_at_recorded, (consecutive_fails_recorded _ _ _ Hok). exact Hthr.
  - rewrite entry_at_recorded, swapped_from_recorded. exact Hsw.
  - rewrite Eswap, (auto_revert_failing _ _ _ _ _ Hok) in E.
    injection E as <- <-. exists applied. reflexivity.
Qed.

Lemma app_singleton_inv {A} (l : list A) (x y : A) :
  (l ++ [x])%list = (l ++ [y])%list -> x = y.
Proof. intros E. apply app_inv_head in E. injection E as ->. reflexivity. Qed.

Lemma app_singleton_neq {A} (l : list A) (x : A) : l <> (l ++ [x])%list.
Proof.
  intros E. apply (f_equal length) in E. rewrite length_app in E. cbn in E. lia.
Qed.

(** C1, as amended — in a run that returns, a source whose check failed,
    whose failure count with this failure reaches the threshold, which has
    a fallback registered, whose [swapped_from] is unset, and whose URL in
    the loaded config is a non-empty string [old]: the run calls the mutator
    for it once, with [old] and the fallback; [swapped_from] becomes [old]
    and the event [(name, old, fallback)] is emitted exactly when that call
    returned true, and otherwise [swapped_from] stays unset. *)
Theorem failover_at_threshold
    (env : cycle_env) (d : disk) (cfg : config) (rep : report)
    (name : string) (res : result) (fb old : string) :
  load_config (config_file d) = Return cfg ->
  run_outcome (run_checks env d) = Return rep ->
  dict_get name (rep_results rep) = Some res ->
  ok res = false ->
  (FAIL_THRESHOLD <= consecutive_fails (state_at (state_file d) name) + 1)%Z ->
  FALLBACK_URLS !! name = Some fb ->
  swapped_from (state_at (state_file d) name) = None ->
  _get_current_url cfg name = Return (Some old) ->
  old <> "" ->
  exists applied before after,
    swap_url_in_config old fb before = (applied, after)
    /\ Call AutoSwap name old fb applied ∈ run_calls (run_checks env d)
    /\ (forall c, c ∈ run_calls (run_checks env d) -> call_name c = name ->
                  c = Call AutoSwap name old fb applied)
    /\ swapped_from (state_at (rep_state rep) name)
       = (if applied then Some old else None)
    /\ ((name, old, fb) ∈ rep_swapped rep <-> applied = true).
Proof.
  intros Hload Hrun Hget Hok Hthr Hfb Hsw Hurl Hold.
  destruct (run_checks_loaded env d cfg Hload)
    as (o & mf & E & Hcalls & _ & [(-> & Hout & Hst)|(e & _ & Hout & _)]).
  2:{ rewrite Hout in Hrun. discriminate. }
  rewrite Hout in Hrun. injection Hrun as <-.
  cbn [rep_results rep_state rep_swapped rep_reverted] in Hget |- *.
  rewrite Hcalls.
  destruct (for_each_focus env cfg _ name res _ _ _
              (collect_NoDup _ _ _) (dict_get_Some_elem _ _ _ Hget) E)
    as (m1 & m2 & H1 & H2 & [(o2 & Ep & _)|(_ & e & He)]).
  2:{ discriminate. }
  pose proof (touched_other_entry _ _ _ H1) as He1.
  rewrite entry_at_initial in He1.
  destruct (process_failover_call env cfg name res m1 o2 m2 fb old)
    as (applied & Hc); try rewrite He1; auto.
  destruct (process_turn _ _ _ _ _ _ _ Ep) as (e' & He' & _ & Ht).
  destruct Ht as [Hq _ _ _ _|c Hcond Hc' Hswap Hrv Ho Hsf Hsw'
                 |c Hcond Hc' _ _ _ _ _].
  - rewrite Hq in Hc. destruct (app_singleton_neq _ _ Hc).
  - rewrite Hc' in Hc. apply app_singleton_inv in Hc. subst c.
    cbn [call_old call_new call_applied call_name call_from] in *.
    exists applied, (mem_config m1), (mem_config m2).
    split; [exact Hswap|]. split; [|split; [|split]].
    + eapply touched_calls_kept; [exact H2|]. rewrite Hc'.
      apply elem_of_app. right. apply list_elem_of_here.
    + intros c Hin Hn.
      apply (touched_other_calls _ _ _ _ H2 Hn) in Hin. rewrite Hc' in Hin.
      apply elem_of_app in Hin as [Hin|Hin].
      * apply (touched_other_calls _ _ _ _ H1 Hn) in Hin.
        apply elem_of_nil in Hin. contradiction.
      * apply list_elem_of_singleton in Hin. exact Hin.
    + unfold state_at. rewrite (touched_other_state _ _ _ H2), He'. exact Hsf.
    + split.
      * intros Hin.
        apply (touched_other_swapped name _ _ (name, old, fb) H2 eq_refl) in Hin.
        rewrite Hsw' in Hin. destruct applied; [reflexivity|].
        apply (touched_other_swapped name _ _ (name, old, fb) H1 eq_refl) in Hin.
        apply elem_of_nil in Hin. contradiction.
      * intros ->. eapply touched_swapped_kept; [exact H2|]. rewrite Hsw'.
        apply elem_of_app. right. apply list_elem_of_here.
  - rewrite Hc' in Hc. apply app_singleton_inv in Hc. subst c.
    destruct Hcond as (Hfrom & _). discriminate.
Qed.

(** *** Revert *)

Lemma loop_call_has_result env cfg l m o m' c :
  for_each (process env cfg) l m = (o, m') ->
  c ∈ mem_calls m' -> c ∈ mem_calls m \/ call_name c ∈ l.*1.
Proof.
  intros E Hin.
  destruct (for_each_touched env cfg (fun k => k ∈ l.*1) l m o m')
    as (_ & (cs & Hc & Hcs) & _); [|exact E|].
  - intros item Hitem. apply list_elem_of_fmap. exists item. auto.
  - rewrite Hc in Hin. apply elem_of_app in Hin as [Hin|Hin]; [auto|].
    right. rewrite Forall_forall in Hcs. auto.
Qed.

Lemma dict_get_key {V} (d : list (string * V)) (k : string) :
  k ∈ d.*1 -> exists v, dict_get k d = Some v.
Proof.
  induction d as [|[k' v'] d IH]; cbn; intros Hin.
  - apply elem_of_nil in Hin. contradiction.
  - destruct (String.eqb_spec k k'); [eauto|].
    apply elem_of_cons in Hin as [?|Hin]; [contradiction|auto].
Qed.

(** Every call a run makes belongs to the turn of a source with a result,
    and was made under the conditions of its site, read on the state the
    run loaded. *)
Lemma run_call_conditions env d cfg c :
  load_config (config_file d) = Return cfg ->
  c ∈ run_calls (run_checks env d) ->
  exists res,
    dict_get (call_name c)
      (collect (task_io env) (build_tasks cfg) (completion env)) = Some res
    /\ (failover_conditions cfg (call_name c) res
          (state_at (state_file d) (call_name c)) c
        \/ revert_conditions env cfg (call_name c) res
             (state_at (state_file d) (call_name c)) c).
Proof.
  intros Hload Hin.
  destruct (run_checks_loaded env d cfg Hload) as (o & mf & E & Hcalls & _).
  rewrite Hcalls in Hin.
  destruct (loop_call_has_result _ _ _ _ _ _ _ E Hin) as [Hnil|Hkey].
  { apply elem_of_nil in Hnil. contradiction. }
  destruct (dict_get_key _ _ Hkey) as (res & Hget).
  destruct (loop_turn env cfg d (call_name c) res o mf Hget E)
    as (m1 & m2 & H1 & H2 & Hcase).
  apply (touched_other_calls _ _ _ _ H2 eq_refl) in Hin.
  assert (Hnot1 : c ∉ mem_calls m1).
  { intros Hin1. apply (touched_other_calls _ _ _ _ H1 eq_refl) in Hin1.
    apply elem_of_nil in Hin1. contradiction. }
  destruct Hcase as [(o2 & e' & _ & _ & _ & Ht)|(-> & _)]; [|contradiction].
  exists res. split; [exact Hget|].
  rewrite <- entry_at_initial, <- (touched_other_entry _ _ _ H1).
  destruct Ht as [Hq _ _ _ _|c0 Hcond Hc' _ _ _ _ _|c0 Hcond Hc' _ _ _ _ _].
  - rewrite Hq in Hin. contradiction.
  - rewrite Hc' in Hin. apply elem_of_app in Hin as [Hin|Hin]; [contradiction|].
    apply list_elem_of_singleton in Hin. subst c0. left. exact Hcond.
  - rewrite Hc' in Hin. apply elem_of_app in Hin as [Hin|Hin]; [contradiction|].
    apply list_elem_of_singleton in Hin. subst c0. right. exact Hcond.
Qed.

Lemma loop_reverted_has_result env cfg l m o m' (ev : event) :
  for_each (process env cfg) l m = (o, m') ->
  ev ∈ mem_reverted m' -> ev ∈ mem_reverted m \/ ev.1.1 ∈ l.*1.
Proof.
  intros E Hin.
  destruct (for_each_touched env cfg (fun k => k ∈ l.*1) l m o m')
    as (_ & _ & _ & (evs & Hr & Hevs)); [|exact E|].
  - intros item Hitem. apply list_elem_of_fmap. exists item. auto.
  - rewrite Hr in Hin. apply elem_of_app in Hin as [Hin|Hin]; [auto|].
    right. rewrite Forall_forall in Hevs. auto.
Qed.

(** Every revert event of a run that returns comes with a revert call that
    the mutator applied. *)
Lemma run_reverted_call env d rep (ev : event) :
  run_outcome (run_checks env d) = Return rep ->
  ev ∈ rep_reverted rep ->
  Call AutoRevert ev.1.1 ev.1.2 ev.2 true ∈ run_calls (run_checks env d).
Proof.
  intros Hrun Hin.
  destruct (load_config (config_file d)) as [cfg|e] eqn:Hload.
  2:{ rewrite (run_checks_not_loaded _ _ _ Hload) in Hrun. discriminate. }
  destruct (run_checks_loaded env d cfg Hload)
    as (o & mf & E & Hcalls & _ & [(-> & Hout & _)|(e & _ & Hout & _)]).
  2:{ rewrite Hout in Hrun. discriminate. }
  rewrite Hout in Hrun. injection Hrun as <-.
  cbn [rep_reverted] in Hin. rewrite Hcalls.
  destruct (loop_reverted_has_result _ _ _ _ _ _ _ E Hin) as [Hnil|Hkey].
  { apply elem_of_nil in Hnil. contradiction. }
  destruct (dict_get_key _ _ Hkey) as (res & Hget).
  destruct (loop_turn env cfg d ev.1.1 res _ mf Hget E)
    as (m1 & m2 & H1 & H2 & [(o2 & e' & _ & _ & _ & Ht)|(_ & e & He)]).
  2:{ discriminate. }
  apply (touched_other_reverted _ _ _ _ H2 eq_refl) in Hin.
  assert (Hnot1 : ev ∉ mem_reverted m1).
  { intros Hin1. apply (touched_other_reverted _ _ _ _ H1 eq_refl) in Hin1.
    apply elem_of_nil in Hin1. contradiction. }
  destruct Ht as [_ _ _ Hq _|c0 _ _ _ Hq _ _ _|c0 Hcond Hc' _ _ _ _ Hrv].
  - rewrite Hq in Hin. contradiction.
  - rewrite Hq in Hin. contradiction.
  - destruct Hcond as (Hfrom & Hn & _).
    destruct c0 as [site cname cold cnew applied]. cbn in Hfrom, Hn, Hrv, Hc'.
    subst site cname. destruct applied; rewrite Hrv in Hin; [|contradiction].
    apply elem_of_app in Hin as [Hin|Hin]; [contradiction|].
    apply list_elem_of_singleton in Hin. rewrite Hin. cbn [fst snd].
    rewrite Hin in Hc'. cbn [fst snd] in Hc'.
    eapply touched_calls_kept; [exact H2|]. rewrite Hc'.
    apply elem_of_app. right. apply list_elem_of_here.
Qed.

(** One run on a state where the source is swapped: it makes no failover
    call for the source, and [swapped_from] is kept unless a revert call
    of this run was applied. *)
Lemma run_keeps_swapped_from env d name u :
  swapped_from (state_at (state_file d) name) = Some u ->
  (forall c, c ∈ run_calls (run_checks env d) -> call_name c = name ->
             call_from c = AutoRevert /\ call_new c = u)
  /\ (swapped_from (state_at (state_file (run_disk (run_checks env d))) name)
        = Some u
      \/ (swapped_from (state_at (state_file (run_disk (run_checks env d))) name)
            = None
          /\ exists old,
               Call AutoRevert name old u true ∈ run_calls (run_checks env d))).
Proof.
  intros Hsw.
  destruct (load_config (config_file d)) as [cfg|e] eqn:Hload.
  2:{ rewrite (run_checks_not_loaded _ _ _ Hload). cbn. split; [|auto].
      intros c Hin. apply elem_of_nil in Hin. contradiction. }
  split.
  - intros c Hin Hn.
    destruct (run_call_conditions env d cfg c Hload Hin)
      as (res & _ & [Hcond|Hcond]); rewrite Hn in Hcond.
    + destruct Hcond as (_ & _ & _ & _ & _ & Hnone & _). congruence.
    + destruct Hcond as (Hfrom & _ & _ & Hsome & _). split; congruence.
  - destruct (run_checks_loaded env d cfg Hload)
      as (o & mf & E & Hcalls & _ & Hend).
    destruct Hend as [(-> & _ & Hst)|(e & _ & _ & Hst)]; rewrite Hst; [|auto].
    rewrite Hcalls.
    set (results := collect (task_io env) (build_tasks cfg) (completion env))
      in *.
    destruct (decide (name ∈ results.*1)) as [Hkey|Hkey].
    + destruct (dict_get_key _ _ Hkey) as (res & Hget).
      destruct (loop_turn env cfg d name res _ mf Hget E)
        as (m1 & m2 & H1 & H2 & [(o2 & e' & _ & He' & _ & Ht)|(_ & e & He)]).
      2:{ discriminate. }
      unfold state_at. rewrite (touched_other_state _ _ _ H2), He'.
      cbn [default from_option id].
      pose proof (touched_other_entry _ _ _ H1) as He1.
      rewrite entry_at_initial in He1.
      destruct Ht as [_ _ _ _ Hq|c0 Hcond _ _ _ _ _ _|c0 Hcond Hc' _ _ _ Hsf _].
      * left. rewrite Hq, He1. exact Hsw.
      * destruct Hcond as (_ & _ & _ & _ & _ & Hnone & _).
        rewrite He1 in Hnone. congruence.
      * destruct Hcond as (Hfrom & Hn & _ & Hsome & _).
        rewrite He1, Hsw in Hsome. injection Hsome as Hu.
        rewrite He1, Hsw in Hsf.
        destruct c0 as [site cname cold cnew [|]]; cbn in *; subst.
        -- right. split; [exact Hsf|]. exists cold.
           eapply touched_calls_kept; [exact H2|]. rewrite Hc'.
           apply elem_of_app. right. apply list_elem_of_here.
        -- left. exact Hsf.
    + left.
      destruct (for_each_touched env cfg (fun k => k ∈ results.*1) results
                  (initial_mem d) (Return tt) mf) as (Hstate & _);
        [|exact E|].
      * intros item Hitem. apply list_elem_of_fmap. exists item. auto.
      * unfold state_at. rewrite (Hstate name Hkey). exact Hsw.
Qed.

(** C3 — every call of the mutator that a run makes from the revert site
    was made for a source whose check result in this run is a success,
    whose [swapped_from] was set (to the URL the call restores), whose live
    URL in the loaded config is the URL the call replaces and differs from
    [swapped_from], and after a probe of [swapped_from] itself, not of the
    live URL, that returned ok.  A revert event is emitted, and a
    [swapped_from] is cleared, only with such a call that the mutator
    applied. *)
Theorem revert_only_after_original_probe
    (env : cycle_env) (d : disk) (cfg : config) :
  load_config (config_file d) = Return cfg ->
  (forall c,
      c ∈ run_calls (run_checks env d) ->
      call_from c = AutoRevert ->
      exists res probe,
        dict_get (call_name c)
          (collect (task_io env) (build_tasks cfg) (completion env)) = Some res
        /\ ok res = true
        /\ swapped_from (state_at (state_file d) (call_name c))
           = Some (call_new c)
        /\ call_new c <> ""
        /\ _get_current_url cfg (call_name c) = Return (Some (call_old c))
        /\ call_old c <> call_new c
        /\ check_source (revert_io env (call_name c)) (call_name c)
             (call_new c) "rss" DEFAULT_MAX_AGE_HOURS = Return probe
        /\ ok probe.2 = true)
  /\ (forall rep (ev : event),
        run_outcome (run_checks env d) = Return rep ->
        ev ∈ rep_reverted rep ->
        Call AutoRevert ev.1.1 ev.1.2 ev.2 true ∈ run_calls (run_checks env d))
  /\ (forall name original,
        swapped_from (state_at (state_file d) name) = Some original ->
        swapped_from (state_at (state_file (run_disk (run_checks env d))) name)
          <> Some original ->
        exists current,
          Call AutoRevert name current original true
            ∈ run_calls (run_checks env d)).
Proof.
  intros Hload. split; [|split].
  - intros c Hin Hfrom.
    destruct (run_call_conditions env d cfg c Hload Hin)
      as (res & Hget & [(Hfrom' & _)|Hcond]); [congruence|].
    destruct Hcond as (_ & _ & Hok & Hsw & Horig & Hurl & _ & Hne
                       & probe & Hprobe & Hpok).
    exists res, probe. auto 10.
  - intros rep ev. apply run_reverted_call.
  - intros name original Hsw Hchanged.
    destruct (run_keeps_swapped_from env d name original Hsw)
      as (_ & [Hkept|(_ & Hcall)]); [contradiction|exact Hcall].
Qed.

(** *** No second swap *)

(** C2 — along any sequence of runs started on a state where the source is
    swapped ([swapped_from] is [u]): while [swapped_from] is still set
    after each earlier run, it is still [u] after each of them, the next run
    makes no failover call for the source (its only calls for the source
    are revert calls restoring [u]), and after that run [swapped_from] is
    [u], or it is unset and the run applied a revert for the source. *)
Theorem no_second_swap_before_revert
    (envs : list cycle_env) (d : disk) (name u : string) :
  swapped_from (state_at (state_file d) name) = Some u ->
  forall pre r post,
    run_cycles envs d = (pre ++ r :: post)%list ->
    (forall r', r' ∈ pre ->
                swapped_from (state_at (state_file (run_disk r')) name) <> None) ->
    (forall c, c ∈ run_calls r -> call_name c = name ->
               call_from c = AutoRevert /\ call_new c = u)
    /\ (forall r', r' ∈ pre ->
                   swapped_from (state_at (state_file (run_disk r')) name)
                     = Some u)
    /\ (swapped_from (state_at (state_file (run_disk r)) name) = Some u
        \/ (swapped_from (state_at (state_file (run_disk r)) name) = None
            /\ exists old, Call AutoRevert name old u true ∈ run_calls r)).
Proof.
  revert d. induction envs as [|env envs IH]; intros d Hsw pre r post Hruns Hset.
  - destruct pre; discriminate.
  - cbn [run_cycles] in Hruns.
    destruct (run_keeps_swapped_from env d name u Hsw) as (Hcalls & Hstate).
    destruct pre as [|r0 pre].
    + injection Hruns as <- _. split; [exact Hcalls|]. split; [|exact Hstate].
      intros r' Hr'. apply elem_of_nil in Hr'. contradiction.
    + injection Hruns as <- Hruns.
      assert (Hkept : swapped_from
                        (state_at (state_file (run_disk (run_checks env d))) name)
                      = Some u).
      { destruct Hstate as [Hs|(Hnone & _)]; [exact Hs|].
        destruct (Hset (run_checks env d) (list_elem_of_here _ _) Hnone). }
      destruct (IH _ Hkept pre r post Hruns) as (Hc & Hpre & Hs).
      { intros r' Hr'. apply Hset. apply list_elem_of_further. exact Hr'. }
      split; [exact Hc|]. split; [|exact Hs].
      intros r' Hr'. apply elem_of_cons in Hr' as [->|Hr']; auto.
Qed.

(** *** The probe before a revert *)

Lemma auto_swap_passing cfg name res m :
  ok res = true -> auto_swap cfg name res m = (Return false, m).
Proof.
  intros Hok. unfold auto_swap, bind, get_entry. cbn beta iota.
  rewrite Hok. reflexivity.
Qed.

Lemma auto_revert_decided env cfg name res m orig cur probe :
  ok res = true ->
  swapped_from (entry_at m name) = Some orig ->
  orig <> "" ->
  _get_current_url cfg name = Return (Some cur) ->
  cur <> "" ->
  cur <> orig ->
  check_source (revert_io env name) name orig "rss" DEFAULT_MAX_AGE_HOURS
    = Return probe ->
  exists applied,
    mem_calls (auto_revert env cfg name res m).2
      = if ok probe.2
        then (mem_calls m ++ [Call AutoRevert name cur orig applied])%list
        else mem_calls m.
Proof.
  intros Hok Hsw Horig Hurl Hcur Hne Hprobe.
  unfold auto_revert, bind, get_entry, lift, call_swap. cbn beta iota.
  fold (entry_at m name). rewrite Hok, Hsw, Hurl.
  cbn [andb str_truthy]. rewrite (string_eqb_false _ _ Horig).
  rewrite (string_eqb_false _ _ Hcur).
  change (default "" (Some orig)) with orig.
  change (default "" (Some cur)) with cur.
  rewrite (string_eqb_false _ _ Hne). cbn [negb andb]. rewrite Hprobe.
  destruct (ok probe.2); [|exists false; reflexivity].
  destruct (swap_url_in_config cur orig (mem_config m)) as [applied text].
  exists applied. destruct applied; reflexivity.
Qed.

(** A body that is not well-formed XML, probed as a feed. *)
Lemma check_source_not_xml io name url raw max_age_hours e :
  urlopen io url = Return raw ->
  raw <> "" ->
  ET_fromstring
    (encode_utf8
       (match decode_utf8 raw with
        | Some text => text
        | None => decode_latin1 raw
        end)) = Raise e ->
  exn_type e = "ParseError" ->
  check_source io name url "rss" max_age_hours
    = Return (name, failed "XML parse error").
Proof.
  intros Hfetch Hraw Hxml Hparse. unfold check_source.
  rewrite Hfetch, (string_eqb_false _ _ Hraw).
  cbn [String.eqb Ascii.eqb Bool.eqb]. rewrite Hxml.
  unfold is_parse_error. rewrite Hparse. reflexivity.
Qed.

(** C9 — for a source that is swapped, healthy on its live URL, and whose
    live URL differs from the original: whether the run asks for the revert
    is decided by the probe of the original URL made with kind "rss" and
    the default 72 hours alone; the kind and the threshold the config
    declares for the source do not enter.  So when the original endpoint
    serves a body that a structured-api probe accepts (it has recovered)
    and that is not XML ([ET.fromstring] raises [ParseError]), the run makes
    no call for the source and [swapped_from] stays set. *)
Theorem revert_probe_is_rss_with_default_age
    (env : cycle_env) (d : disk) (cfg : config) (rep : report)
    (name : string) (res : result) (orig cur : string) :
  load_config (config_file d) = Return cfg ->
  run_outcome (run_checks env d) = Return rep ->
  dict_get name (rep_results rep) = Some res ->
  ok res = true ->
  swapped_from (state_at (state_file d) name) = Some orig ->
  orig <> "" ->
  _get_current_url cfg name = Return (Some cur) ->
  cur <> "" ->
  cur <> orig ->
  (forall probe,
      check_source (revert_io env name) name orig "rss" DEFAULT_MAX_AGE_HOURS
        = Return probe ->
      ((exists applied,
           Call AutoRevert name cur orig applied ∈ run_calls (run_checks env d))
       <-> ok probe.2 = true))
  /\ (forall raw max_age_hours recovered e,
         urlopen (revert_io env name) orig = Return raw ->
         raw <> "" ->
         check_source (revert_io env name) name orig "json" max_age_hours
           = Return (name, recovered) ->
         ok recovered = true ->
         ET_fromstring
           (encode_utf8
              (match decode_utf8 raw with
               | Some text => text
               | None => decode_latin1 raw
               end)) = Raise e ->
         exn_type e = "ParseError" ->
         (forall c, c ∈ run_calls (run_checks env d) -> call_name c <> name)
         /\ swapped_from (state_at (rep_state rep) name) = Some orig).
Proof.
  intros Hload Hrun Hget Hok Hsw Horig Hurl Hcur Hne.
  assert (Honly : forall c probe,
             check_source (revert_io env name) name orig "rss"
               DEFAULT_MAX_AGE_HOURS = Return probe ->
             c ∈ run_calls (run_checks env d) -> call_name c = name ->
             ok probe.2 = true).
  { intros c probe Hprobe Hin Hn.
    destruct (run_call_conditions env d cfg c Hload Hin)
      as (res' & Hget' & [Hcond|Hcond]); rewrite Hn in *.
    - destruct Hcond as (_ & _ & _ & _ & _ & Hnone & _). congruence.
    - destruct Hcond as (_ & _ & _ & Hsome & _ & _ & _ & _ & p & Hp & Hpok).
      rewrite Hsw in Hsome. injection Hsome as Heq. rewrite <- Heq in Hp.
      congruence. }
  destruct (run_checks_loaded env d cfg Hload)
    as (o & mf & E & Hcalls & _ & [(-> & Hout & Hst)|(e & _ & Hout & _)]).
  2:{ rewrite Hout in Hrun. discriminate. }
  rewrite Hout in Hrun. injection Hrun as <-.
  cbn [rep_results rep_state rep_swapped rep_reverted] in Hget |- *.
  split.
  - intros probe Hprobe. split.
    + intros (applied & Hin). eapply Honly; [exact Hprobe|exact Hin|reflexivity].
    + intros Hpok. rewrite Hcalls.
      destruct (for_each_focus env cfg _ name res _ _ _
                  (collect_NoDup _ _ _) (dict_get_Some_elem _ _ _ Hget) E)
        as (m1 & m2 & H1 & H2 & [(o2 & Ep & _)|(_ & e & He)]).
      2:{ discriminate. }
      rewrite process_eq, (auto_swap_passing _ _ _ _ Hok) in Ep.
      destruct (auto_revert_decided env cfg name res (recorded env name res m1)
                  orig cur probe) as (applied & Hc); auto.
      { rewrite entry_at_recorded, swapped_from_recorded,
          (touched_other_entry _ _ _ H1), entry_at_initial. exact Hsw. }
      rewrite Ep, Hpok in Hc. cbn [snd] in Hc. exists applied.
      eapply touched_calls_kept; [exact H2|]. rewrite Hc.
      apply elem_of_app. right. apply list_elem_of_here.
  - intros raw max_age_hours recovered e Hfetch Hraw _ _ Hxml Hparse.
    pose proof (check_source_not_xml _ name _ _ DEFAULT_MAX_AGE_HOURS _
                  Hfetch Hraw Hxml Hparse) as Hprobe.
    assert (Hnone : forall c, c ∈ run_calls (run_checks env d) ->
                              call_name c <> name).
    { intros c Hin Hn. pose proof (Honly c _ Hprobe Hin Hn) as Hpok.
      discriminate. }
    split; [exact Hnone|].
    rewrite <- Hst.
    destruct (run_keeps_swapped_from env d name orig Hsw)
      as (_ & [Hkept|(_ & old & Hin)]); [exact Hkept|].
    destruct (Hnone _ Hin eq_refl).
Qed.

End StateMachineFacts.

(** ** The theorems on concrete runs *)

(** Offline, third failure of Solidot, listed with its real URL: the run
    asks for the failover and the mutator applies it. *)
Lemma failover_at_threshold_witness :
  Call AutoSwap "Solidot" Demo.solidot_url Demo.solidot_mirror true
    ∈ run_calls (@run_checks Demo.lib Demo.offline
                   (Demo.failed_twice Demo.solidot_url)).
Proof.
  destruct (@failover_at_threshold Demo.lib Demo.offline
              (Demo.failed_twice Demo.solidot_url)
              (Demo.source_list "Solidot" Demo.solidot_url)
              _ "Solidot" _ Demo.solidot_mirror Demo.solidot_url
              eq_refl eq_refl eq_refl eq_refl)
    as (applied & before & after & _ & Hin & _).
  - vm_compute. discriminate.
  - reflexivity.
  - reflexivity.
  - reflexivity.
  - discriminate.
  - vm_compute. apply list_elem_of_here.
Defined.

(** C1 as stated fails when the URL listed for the source is the empty
    string: the check fails, the count reaches 3, a fallback is registered,
    [swapped_from] is unset, and the run makes no call of the mutator and
    emits no event. *)
Lemma failover_skipped_for_empty_url :
  exists cfg rep res,
    @load_config Demo.lib (config_file (Demo.failed_twice "")) = Return cfg
    /\ run_outcome (@run_checks Demo.lib Demo.offline (Demo.failed_twice ""))
       = Return rep
    /\ dict_get "Solidot" (rep_results rep) = Some res
    /\ ok res = false
    /\ (FAIL_THRESHOLD
        <= consecutive_fails
             (state_at (state_file (Demo.failed_twice "")) "Solidot") + 1)%Z
    /\ FALLBACK_URLS !! "Solidot" = Some Demo.solidot_mirror
    /\ swapped_from (state_at (state_file (Demo.failed_twice "")) "Solidot")
       = None
    /\ _get_current_url cfg "Solidot" = Return (Some "")
    /\ run_calls (@run_checks Demo.lib Demo.offline (Demo.failed_twice "")) = []
    /\ rep_swapped rep = []
    /\ swapped_from (state_at (rep_state rep) "Solidot") = None.
Proof.
  eexists. eexists. eexists.
  split; [reflexivity|]. split; [reflexivity|]. split; [reflexivity|].
  split; [reflexivity|]. split; [vm_compute; discriminate|].
  repeat split; reflexivity.
Qed.

(** The same run: the third failure is counted, its error and the time of
    the run are stored. *)
Lemma run_checks_records_every_result_witness :
  exists e',
    state_file (run_disk (@run_checks Demo.lib Demo.offline
                            (Demo.failed_twice Demo.solidot_url)))
      !! "Solidot" = Some e'
    /\ consecutive_fails e' = 3%Z
    /\ last_error e' = Some "unreachable: URLError"
    /\ last_check e' = Some "2023-11-15 06:13 BJT".
Proof.
  destruct (@run_checks_records_every_result Demo.lib Demo.offline
              (Demo.failed_twice Demo.solidot_url) _ "Solidot" _
              eq_refl eq_refl)
    as (e' & _ & Hst & Hfails & Herr & Hchk).
  exists e'. auto.
Defined.

(** Three more offline runs on a swapped Solidot: the failures go on
    counting, 4, 5, 6, and the third run, like the two before it, makes no
    failover call and keeps [swapped_from]. *)
Lemma no_second_swap_before_revert_witness :
  (forall c,
      c ∈ run_calls (@run_checks Demo.lib Demo.offline
                       (run_disk (@run_checks Demo.lib Demo.offline
                          (run_disk (@run_checks Demo.lib Demo.offline
                             Demo.swapped_disk))))) ->
      call_name c = "Solidot" ->
      call_from c = AutoRevert /\ call_new c = Demo.solidot_url)
  /\ consecutive_fails
       (state_at
          (state_file
             (run_disk (@run_checks Demo.lib Demo.offline
                (run_disk (@run_checks Demo.lib Demo.offline
                   (run_disk (@run_checks Demo.lib Demo.offline
                      Demo.swapped_disk)))))))
          "Solidot") = 6%Z.
Proof.
  split; [|reflexivity].
  refine (proj1 (@no_second_swap_before_revert Demo.lib
            [Demo.offline; Demo.offline; Demo.offline] Demo.swapped_disk
            "Solidot" Demo.solidot_url eq_refl
            [@run_checks Demo.lib Demo.offline Demo.swapped_disk;
             @run_checks Demo.lib Demo.offline
               (run_disk (@run_checks Demo.lib Demo.offline Demo.swapped_disk))]
            _ [] eq_refl _)).
  intros r' Hr'.
  apply elem_of_cons in Hr' as [->|Hr'].
  - discriminate.
  - apply list_elem_of_singleton in Hr'. subst r'. discriminate.
Defined.

(** Solidot is back: the mirror is healthy, the original answers the probe,
    and the revert call of the run meets every condition. *)
Lemma revert_only_after_original_probe_witness :
  exists res probe,
    dict_get "Solidot"
      (@collect Demo.lib (task_io Demo.recovered)
         (build_tasks (Demo.source_list "Solidot" Demo.solidot_mirror))
         (completion Demo.recovered)) = Some res
    /\ ok res = true
    /\ swapped_from (state_at (state_file Demo.swapped_disk) "Solidot")
       = Some Demo.solidot_url
    /\ Demo.solidot_url <> ""
    /\ _get_current_url (Demo.source_list "Solidot" Demo.solidot_mirror)
         "Solidot" = Return (Some Demo.solidot_mirror)
    /\ Demo.solidot_mirror <> Demo.solidot_url
    /\ @check_source Demo.lib (revert_io Demo.recovered "Solidot") "Solidot"
         Demo.solidot_url "rss" DEFAULT_MAX_AGE_HOURS = Return probe
    /\ ok probe.2 = true.
Proof.
  refine (proj1 (@revert_only_after_original_probe Demo.lib Demo.recovered
            Demo.swapped_disk (Demo.source_list "Solidot" Demo.solidot_mirror)
            eq_refl)
            (Call AutoRevert "Solidot" Demo.solidot_mirror Demo.solidot_url true)
            _ eq_refl).
  vm_compute. apply list_elem_of_here.
Defined.

(** Two sources, the second future first: both names have their own result,
    the raising probe of "sina" is stored as the synthetic failure. *)
Lemma scheduler_one_result_per_source_witness :
  length (@collect Demo.lib Demo.two_ios Demo.two_tasks [1%nat; 0%nat]) = 2%nat
  /\ dict_get "sina" (@collect Demo.lib Demo.two_ios Demo.two_tasks [1%nat; 0%nat])
     = Some (Result false
               (Some "exception: 'list' object has no attribute 'get'") 0 None)
  /\ dict_get "Solidot"
       (@collect Demo.lib Demo.two_ios Demo.two_tasks [1%nat; 0%nat])
     = Some (Result true None 1 (Some (float_of_Z 1))).
Proof.
  destruct (@scheduler_one_result_per_source Demo.lib Demo.two_ios
              Demo.two_tasks [1%nat; 0%nat])
    as (_ & Hlen & Hstored & _).
  - apply NoDup_ListNoDup. repeat constructor; cbn; intuition discriminate.
  - apply perm_swap.
  - split; [exact Hlen|]. split.
    + exact (Hstored 0%nat (Task "sina" Demo.sina_url "json" (NInt 72)) eq_refl).
    + exact (Hstored 1%nat (Task "Solidot" Demo.solidot_url "rss" (NInt 72)) eq_refl).
Defined.

(** The Sina source has recovered on its original URL, yet the revert probe
    reads its JSON body as XML: no call, [swapped_from] stays. *)
Lemma revert_probe_is_rss_with_default_age_witness :
  (forall c,
      c ∈ run_calls (@run_checks Demo.lib Demo.sina_recovered Demo.sina_swapped) ->
      call_name c <> "sina")
  /\ @check_source Demo.lib (revert_io Demo.sina_recovered "sina") "sina"
       Demo.sina_url "json" (NInt 72)
     = Return ("sina", Result true None 1 (Some (Demo.tenths 3)))
  /\ @check_source Demo.lib (revert_io Demo.sina_recovered "sina") "sina"
       Demo.sina_url "rss" DEFAULT_MAX_AGE_HOURS
     = Return ("sina", failed "XML parse error").
Proof.
  split; [|split; reflexivity].
  refine (proj1 (proj2 (@revert_probe_is_rss_with_default_age Demo.lib
            Demo.sina_recovered Demo.sina_swapped
            (Demo.api_list "sina" Demo.sina_mirror) _ "sina" _
            Demo.sina_url Demo.sina_mirror
            eq_refl eq_refl eq_refl eq_refl eq_refl _ eq_refl _ _)
            Demo.sina_body (NInt 72) (Result true None 1 (Some (Demo.tenths 3)))
            (Exn "ParseError" "syntax error: line 1, column 0")
            eq_refl _ eq_refl eq_refl eq_refl eq_refl));
    discriminate.
Defined.

(** ** More of the Feed Prober *)

Section ProberExtras.
Context `{PyLib}.

Lemma utf8_chars_nonempty (s : string) : s <> "" -> utf8_chars s <> [].
Proof.
  destruct s as [|c s]; [congruence|]. intros _.
  destruct (utf8_chars_head c s) as (tail & rest & ->). discriminate.
Qed.

Lemma check_freshness_shape count now_ts newest max_age_hours :
  (0 < count)%nat ->
  let res := check_freshness count now_ts newest max_age_hours in
  (ok res = true <-> error res = None)
  /\ article_count res = count.
Proof.
  intros Hpos. unfold check_freshness.
  destruct newest as [ts|]; [cbv zeta; destruct (float_gt_num _ _)|]; cbn;
    split; auto; split; congruence.
Qed.

Lemma failed_shape message :
  (ok (failed message) = true <-> error (failed message) = None)
  /\ article_count (failed message) = 0%nat
  /\ newest_age_hours (failed message) = None.
Proof. unfold failed. cbn. repeat split; congruence. Qed.

(** X1 — whatever [check_source] returns: the name it was called with comes
    back, the result is ok exactly when it carries no error, an ok result
    counts at least one article, and a result without articles has no age. *)
Theorem check_source_result_shape
    (io : probe_io) (name url source_type : string) (max_age_hours : num)
    (n : string) (res : result) :
  check_source io name url source_type max_age_hours = Return (n, res) ->
  n = name
  /\ (ok res = true <-> error res = None)
  /\ (ok res = true -> (0 < article_count res)%nat)
  /\ (article_count res = 0%nat -> newest_age_hours res = None).
Proof.
  assert (Hfailed : forall message,
             Return (name, failed message) = Return (n, res) ->
             n = name
             /\ (ok res = true <-> error res = None)
             /\ (ok res = true -> (0 < article_count res)%nat)
             /\ (article_count res = 0%nat -> newest_age_hours res = None)).
  { intros message E. injection E as <- <-.
    destruct (failed_shape message) as (Hok & Hcount & Hage).
    split; [reflexivity|]. split; [exact Hok|]. split; [|auto].
    unfold failed. cbn. discriminate. }
  assert (Hfresh : forall count now_ts newest,
             (0 < count)%nat ->
             Return (name, check_freshness count now_ts newest max_age_hours)
               = Return (n, res) ->
             n = name
             /\ (ok res = true <-> error res = None)
             /\ (ok res = true -> (0 < article_count res)%nat)
             /\ (article_count res = 0%nat -> newest_age_hours res = None)).
  { intros count now_ts newest Hpos E. injection E as <- <-.
    destruct (check_freshness_shape count now_ts newest max_age_hours Hpos)
      as (Hok & Hcount).
    split; [reflexivity|]. split; [exact Hok|].
    rewrite Hcount. split; [auto|]. intros ->. lia. }
  unfold check_source.
  destruct (urlopen io url) as [raw|e]; [|apply Hfailed].
  destruct (String.eqb raw ""); [apply Hfailed|].
  destruct (String.eqb source_type "json").
  - destruct (match decode_utf8 raw with
              | Some text => json_loads text
              | None => None
              end) as [data|]; [|apply Hfailed].
    destruct (json_get data "result" (JObj [])) as [r|e]; [|discriminate].
    cbn [outcome_bind].
    destruct (json_get r "data" (JArr [])) as [articles|e]; [|discriminate].
    cbn [outcome_bind].
    destruct (truthy articles) eqn:Htruthy; cbn [negb]; [|apply Hfailed].
    destruct articles as [|b|z|q|s|items|fields]; try discriminate.
    + (* a string: the loop stops at its first character *)
      cbn [py_len py_iter outcome_bind].
      pose proof (utf8_chars_nonempty s) as Hs.
      destruct (utf8_chars s) as [|ch chars]; [|discriminate].
      cbn in Htruthy. destruct (String.eqb_spec s ""); [discriminate|].
      destruct (Hs n0 eq_refl).
    + cbn [py_len py_iter outcome_bind].
      destruct (newest_ctime items None) as [newest|e]; [|discriminate].
      cbn [outcome_bind].
      assert (Hpos : (0 < length items)%nat)
        by (destruct items; [discriminate|cbn; lia]).
      destruct newest as [ts|]; cbn [outcome_bind]; [|apply Hfresh; exact Hpos].
      destruct (float_of_int ts) as [as_float|e]; [|discriminate].
      cbn [outcome_bind]. apply Hfresh. exact Hpos.
    + (* a dict: the loop stops at its first key *)
      cbn [py_len py_iter outcome_bind].
      destruct fields as [|[k v] fields]; discriminate.
  - destruct (ET_fromstring _) as [root|e].
    2:{ destruct (is_parse_error e); [apply Hfailed|discriminate]. }
    cbv zeta.
    destruct (match findall_descendants "item" root with
              | [] => findall_descendants (atom_ns ++ "entry") root
              | _ :: _ => findall_descendants "item" root
              end) as [|item items] eqn:Hitems.
    + destruct (findall_descendants "item" root) eqn:Hi.
      * rewrite Hitems. apply Hfailed.
      * discriminate.
    + assert (Hloop : forall its,
                (0 < length its)%nat ->
                (newest_ts <- newest_pubdate its None ;;
                 Return (name,
                         check_freshness (length its) (time_time io) newest_ts
                           max_age_hours))%outcome = Return (n, res) ->
                n = name
                /\ (ok res = true <-> error res = None)
                /\ (ok res = true -> (0 < article_count res)%nat)
                /\ (article_count res = 0%nat -> newest_age_hours res = None)).
      { intros its Hpos.
        destruct (newest_pubdate its None) as [newest|e]; [|discriminate].
        cbn [outcome_bind]. apply Hfresh. exact Hpos. }
      destruct (findall_descendants "item" root) as [|i0 is0] eqn:Hi.
      * rewrite Hitems. apply Hloop. cbn. lia.
      * apply Hloop. cbn. lia.
Qed.

(** X2 — a payload that parses into articles, none of whose timestamps
    raises when read, is reported ok exactly when no article has a usable
    timestamp or the age of the newest one does not exceed [max_age_hours]
    (an age equal to the threshold is still fresh); the number of articles
    is reported either way, and [round(age, 1)] whenever there is a
    timestamp.  The newest timestamp is that of the articles: one of them
    carries it and none carries a later one. *)
Theorem yielding_payload_ok_iff_fresh
    (io : probe_io) (name url stype : string) (max_age_hours : num)
    (raw : string) :
  urlopen io url = Return raw ->
  raw <> "" ->
  (forall items : list json,
      stype = "json" -> json_articles raw items -> items <> [] ->
      (no_ctime items ->
       check_source io name url stype max_age_hours
         = Return (name, Result true None (length items) None))
      /\ (forall ts ts_float,
            ctimes_readable items -> greatest_ctime items ts ->
            float_of_int ts = Return ts_float ->
            exists res,
              check_source io name url stype max_age_hours = Return (name, res)
              /\ article_count res = length items
              /\ newest_age_hours res
                 = Some (round_1 (age_hours (time_time io) ts_float))
              /\ (ok res = true <->
                  float_gt_num (age_hours (time_time io) ts_float)
                    max_age_hours = false)))
  /\ (forall items : list xml,
      stype <> "json" -> feed_items raw items -> items <> [] ->
      (no_pubdate items ->
       check_source io name url stype max_age_hours
         = Return (name, Result true None (length items) None))
      /\ (forall ts,
            latest_pubdate items ts ->
            exists res,
              check_source io name url stype max_age_hours = Return (name, res)
              /\ article_count res = length items
              /\ newest_age_hours res
                 = Some (round_1 (age_hours (time_time io) ts))
              /\ (ok res = true <->
                  float_gt_num (age_hours (time_time io) ts)
                    max_age_hours = false))).
Proof.
  intros Hfetch Hraw.
  assert (Hshape : forall count ts,
             let res := check_freshness count (time_time io) (Some ts)
                          max_age_hours in
             article_count res = count
             /\ newest_age_hours res
                = Some (round_1 (age_hours (time_time io) ts))
             /\ (ok res = true <->
                 float_gt_num (age_hours (time_time io) ts) max_age_hours
                   = false)).
  { intros count ts. unfold check_freshness. cbv zeta.
    destruct (float_gt_num _ _); cbn; repeat split; congruence. }
  split.
  - intros items -> Hitems Hne.
    rewrite (check_source_json_items _ _ _ _ _ _ Hfetch Hraw Hitems Hne).
    split.
    + intros Hnone. rewrite (newest_ctime_none _ Hnone). reflexivity.
    + intros ts ts_float Hread Hmax Hfloat.
      rewrite (newest_ctime_greatest _ _ Hread Hmax). cbn [outcome_bind].
      rewrite Hfloat. cbn [outcome_bind]. eexists. split; [reflexivity|].
      apply Hshape.
  - intros items Hty Hitems Hne.
    rewrite (check_source_feed_items _ _ _ _ _ _ _ Hfetch Hraw Hty Hitems Hne).
    split.
    + intros Hnone. rewrite (newest_pubdate_none _ Hnone). reflexivity.
    + intros ts Hlatest.
      rewrite (newest_pubdate_latest _ _ Hlatest). cbn [outcome_bind].
      eexists. split; [reflexivity|]. apply Hshape.
Qed.

(** X3 — when the freshness loop over a JSON payload ends, the timestamp it
    kept is the greatest usable [ctime] among the articles: it belongs to
    one of them and no article offers a later one; it keeps none exactly
    when no article offers any. *)
Theorem newest_ctime_is_greatest (items : list json) (newest : option Z) :
  newest_ctime items None = Return newest ->
  match newest with
  | Some ts =>
      (exists item, item ∈ items /\ usable_ctime item = Some ts)
      /\ (forall item t, item ∈ items -> usable_ctime item = Some t ->
                         (t <= ts)%Z)
  | None => forall item, item ∈ items -> usable_ctime item = None
  end.
Proof.
  intros E. destruct (newest_ctime_acc items None newest E)
    as (_ & _ & Hitems & Horigin).
  assert (Husable : forall item t,
             usable_ctime item = Some t -> article_ctime item = Return (Some t)).
  { intros item t. unfold usable_ctime.
    destruct (article_ctime item); [intros ->; reflexivity|discriminate]. }
  destruct newest as [ts|].
  - split.
    + destruct (Horigin ts eq_refl) as [?|(item & Hin & Hitem)]; [discriminate|].
      exists item. split; [exact Hin|]. unfold usable_ctime. rewrite Hitem.
      reflexivity.
    + intros item t Hin Hus.
      destruct (Hitems item t Hin (Husable _ _ Hus)) as (ts' & Hts' & Hle).
      injection Hts' as <-. exact Hle.
  - intros item Hin. destruct (usable_ctime item) as [t|] eqn:Hus; [|reflexivity].
    destruct (Hitems item t Hin (Husable _ _ Hus)) as (ts & Hts & _).
    discriminate.
Qed.

End ProberExtras.

(** ** Whole runs: failover, mutator calls, quiet runs *)

Section RunExtras.
Context `{PyLib}.

Lemma loop_swapped_has_result env cfg l m o m' (ev : event) :
  for_each (process env cfg) l m = (o, m') ->
  ev ∈ mem_swapped m' -> ev ∈ mem_swapped m \/ ev.1.1 ∈ l.*1.
Proof.
  intros E Hin.
  destruct (for_each_touched env cfg (fun k => k ∈ l.*1) l m o m')
    as (_ & _ & (evs & Hs & Hevs) & _); [|exact E|].
  - intros item Hitem. apply list_elem_of_fmap. exists item. auto.
  - rewrite Hs in Hin. apply elem_of_app in Hin as [Hin|Hin]; [auto|].
    right. rewrite Forall_forall in Hevs. auto.
Qed.

(** Every failover event of a run that returns comes with a failover call
    that the mutator applied. *)
Lemma run_swapped_call env d rep (ev : event) :
  run_outcome (run_checks env d) = Return rep ->
  ev ∈ rep_swapped rep ->
  Call AutoSwap ev.1.1 ev.1.2 ev.2 true ∈ run_calls (run_checks env d).
Proof.
  intros Hrun Hin.
  destruct (load_config (config_file d)) as [cfg|e] eqn:Hload.
  2:{ rewrite (run_checks_not_loaded _ _ _ Hload) in Hrun. discriminate. }
  destruct (run_checks_loaded env d cfg Hload)
    as (o & mf & E & Hcalls & _ & [(-> & Hout & _)|(e & _ & Hout & _)]).
  2:{ rewrite Hout in Hrun. discriminate. }
  rewrite Hout in Hrun. injection Hrun as <-.
  cbn [rep_swapped] in Hin. rewrite Hcalls.
  destruct (loop_swapped_has_result _ _ _ _ _ _ _ E Hin) as [Hnil|Hkey].
  { apply elem_of_nil in Hnil. contradiction. }
  destruct (dict_get_key _ _ Hkey) as (res & Hget).
  destruct (loop_turn env cfg d ev.1.1 res _ mf Hget E)
    as (m1 & m2 & H1 & H2 & [(o2 & e' & _ & _ & _ & Ht)|(_ & e & He)]).
  2:{ discriminate. }
  apply (touched_other_swapped _ _ _ _ H2 eq_refl) in Hin.
  assert (Hnot1 : ev ∉ mem_swapped m1).
  { intros Hin1. apply (touched_other_swapped _ _ _ _ H1 eq_refl) in Hin1.
    apply elem_of_nil in Hin1. contradiction. }
  destruct Ht as [_ _ Hq _ _|c0 Hcond Hc' _ _ _ _ Hsw|c0 _ _ _ Hq _ _ _].
  - rewrite Hq in Hin. contradiction.
  - destruct Hcond as (Hfrom & Hn & _).
    destruct c0 as [site cname cold cnew applied]. cbn in Hfrom, Hn, Hsw, Hc'.
    subst site cname. destruct applied; rewrite Hsw in Hin; [|contradiction].
    apply elem_of_app in Hin as [Hin|Hin]; [contradiction|].
    apply list_elem_of_singleton in Hin. rewrite Hin. cbn [fst snd].
    rewrite Hin in Hc'. cbn [fst snd] in Hc'.
    eapply touched_calls_kept; [exact H2|]. rewrite Hc'.
    apply elem_of_app. right. apply list_elem_of_here.
  - rewrite Hq in Hin. contradiction.
Qed.

(** A run sets [swapped_from] for a source only with a failover call that
    the mutator applied, and sets it to the URL that call replaced. *)
Lemma run_sets_swapped_from env d name u :
  swapped_from (state_at (state_file d) name) = None ->
  swapped_from (state_at (state_file (run_disk (run_checks env d))) name)
    = Some u ->
  exists fb, Call AutoSwap name u fb true ∈ run_calls (run_checks env d).
Proof.
  intros Hnone Hset.
  destruct (load_config (config_file d)) as [cfg|e] eqn:Hload.
  2:{ rewrite (run_checks_not_loaded _ _ _ Hload) in Hset. cbn in Hset.
      congruence. }
  destruct (run_checks_loaded env d cfg Hload)
    as (o & mf & E & Hcalls & _ & Hend).
  destruct Hend as [(-> & _ & Hst)|(e & _ & _ & Hst)]; rewrite Hst in Hset;
    [|congruence].
  rewrite Hcalls.
  set (results := collect (task_io env) (build_tasks cfg) (completion env))
    in *.
  destruct (decide (name ∈ results.*1)) as [Hkey|Hkey].
  - destruct (dict_get_key _ _ Hkey) as (res & Hget).
    destruct (loop_turn env cfg d name res _ mf Hget E)
      as (m1 & m2 & H1 & H2 & [(o2 & e' & _ & He' & _ & Ht)|(_ & e & He)]).
    2:{ discriminate. }
    unfold state_at in Hset. rewrite (touched_other_state _ _ _ H2), He' in Hset.
    cbn [default from_option id] in Hset.
    pose proof (touched_other_entry _ _ _ H1) as He1.
    rewrite entry_at_initial in He1.
    destruct Ht as [_ _ _ _ Hq|c0 Hcond Hc' _ _ _ Hsf _|c0 Hcond _ _ _ _ Hsf _].
    + rewrite Hq, He1 in Hset. congruence.
    + destruct Hcond as (Hfrom & Hn & _ & _ & _ & _ & _).
      destruct c0 as [site cname cold cnew [|]]; cbn in *; subst.
      * rewrite Hsf in Hset. injection Hset as <-. exists cnew.
        eapply touched_calls_kept; [exact H2|]. rewrite Hc'.
        apply elem_of_app. right. apply list_elem_of_here.
      * congruence.
    + rewrite He1, Hnone in Hsf. destruct (call_applied c0); congruence.
  - destruct (for_each_touched env cfg (fun k => k ∈ results.*1) results
                (initial_mem d) (Return tt) mf) as (Hstate & _);
      [|exact E|].
    + intros item Hitem. apply list_elem_of_fmap. exists item. auto.
    + unfold state_at in Hset. rewrite (Hstate name Hkey) in Hset.
      unfold state_at in Hnone. cbn in Hset. congruence.
Qed.

(** X4 — a run calls the mutator from the failover site only for a source
    whose check failed in this run, whose failure count reaches the
    threshold with this failure, that has a registered fallback (the URL the
    call writes), that is not swapped, and whose live URL in the loaded
    config is the non-empty URL the call replaces.  A failover event is
    emitted, and a [swapped_from] is set, only with such a call that the
    mutator applied. *)
Theorem failover_only_at_threshold
    (env : cycle_env) (d : disk) (cfg : config) :
  load_config (config_file d) = Return cfg ->
  (forall c,
      c ∈ run_calls (run_checks env d) ->
      call_from c = AutoSwap ->
      exists res,
        dict_get (call_name c)
          (collect (task_io env) (build_tasks cfg) (completion env)) = Some res
        /\ ok res = false
        /\ (FAIL_THRESHOLD
            <= consecutive_fails (state_at (state_file d) (call_name c)) + 1)%Z
        /\ FALLBACK_URLS !! call_name c = Some (call_new c)
        /\ swapped_from (state_at (state_file d) (call_name c)) = None
        /\ _get_current_url cfg (call_name c) = Return (Some (call_old c))
        /\ call_old c <> "")
  /\ (forall rep (ev : event),
        run_outcome (run_checks env d) = Return rep ->
        ev ∈ rep_swapped rep ->
        Call AutoSwap ev.1.1 ev.1.2 ev.2 true ∈ run_calls (run_checks env d))
  /\ (forall name u,
        swapped_from (state_at (state_file d) name) = None ->
        swapped_from (state_at (state_file (run_disk (run_checks env d))) name)
          = Some u ->
        exists fb,
          Call AutoSwap name u fb true ∈ run_calls (run_checks env d)).
Proof.
  intros Hload. split; [|split].
  - intros c Hin Hfrom.
    destruct (run_call_conditions env d cfg c Hload Hin)
      as (res & Hget & [Hcond|Hcond]).
    + destruct Hcond as (_ & _ & Hok & Hth & Hfb & Hsf & Hurl & Hne).
      exists res. auto 10.
    + destruct Hcond as (Hsite & _). congruence.
  - intros rep ev. apply run_swapped_call.
  - intros name u. apply run_sets_swapped_from.
Qed.

Lemma process_calls env cfg name res m o m' :
  process env cfg (name, res) m = (o, m') ->
  exists cs,
    mem_calls m' = (mem_calls m ++ cs)%list
    /\ (cs = [] \/ exists c, cs = [c] /\ call_name c = name).
Proof.
  intros E. destruct (process_turn _ _ _ _ _ _ _ E) as (e' & _ & _ & Ht).
  destruct Ht as [Hq _ _ _ _|c Hcond Hc _ _ _ _ _|c Hcond Hc _ _ _ _ _].
  - exists []. rewrite app_nil_r. auto.
  - exists [c]. split; [exact Hc|]. right. exists c.
    destruct Hcond as (_ & Hn & _). auto.
  - exists [c]. split; [exact Hc|]. right. exists c.
    destruct Hcond as (_ & Hn & _). auto.
Qed.

Lemma loop_calls_NoDup env cfg l m o m' :
  NoDup l.*1 ->
  for_each (process env cfg) l m = (o, m') ->
  exists cs,
    mem_calls m' = (mem_calls m ++ cs)%list
    /\ NoDup (call_name <$> cs)
    /\ (forall c, c ∈ cs -> call_name c ∈ l.*1).
Proof.
  revert m. induction l as [|[n r] l IH]; intros m Hnd E.
  - cbn in E. injection E as _ <-. exists []. rewrite app_nil_r.
    split; [reflexivity|]. split; [apply NoDup_nil_2|].
    intros c Hc. apply elem_of_nil in Hc. contradiction.
  - cbn [for_each] in E. unfold bind in E.
    destruct (process env cfg (n, r) m) as [o1 m1] eqn:Ep.
    destruct (process_calls _ _ _ _ _ _ _ Ep) as (cs1 & Hc1 & Hshape).
    cbn [fmap list_fmap fst] in Hnd. apply NoDup_cons in Hnd as [Hn Hnd].
    assert (Hrest : exists cs2,
               mem_calls m' = (mem_calls m1 ++ cs2)%list
               /\ NoDup (call_name <$> cs2)
               /\ (forall c, c ∈ cs2 -> call_name c ∈ l.*1)).
    { destruct o1 as [[]|e].
      - apply (IH m1 Hnd E).
      - injection E as _ <-. exists []. rewrite app_nil_r.
        split; [reflexivity|]. split; [apply NoDup_nil_2|].
        intros c Hc. apply elem_of_nil in Hc. contradiction. }
    destruct Hrest as (cs2 & Hc2 & Hnd2 & Hin2).
    exists (cs1 ++ cs2)%list. split; [rewrite Hc2, Hc1, app_assoc; reflexivity|].
    destruct Hshape as [->|(c & -> & Hname)]; cbn [app].
    + split; [exact Hnd2|]. intros c Hc. cbn. apply list_elem_of_further. auto.
    + split.
      * cbn. apply NoDup_cons. split; [|exact Hnd2].
        intros Hc. apply list_elem_of_fmap in Hc as (c' & Heq & Hc').
        apply Hn. rewrite <- Hname, Heq. auto.
      * intros c' Hc'. cbn. apply elem_of_cons in Hc' as [->|Hc'].
        -- rewrite Hname. apply list_elem_of_here.
        -- apply list_elem_of_further. auto.
Qed.

(** X5 — within one run the mutator is called at most once for a source:
    no two calls of the trace carry the same name. *)
Theorem one_mutator_call_per_source (env : cycle_env) (d : disk) :
  NoDup (call_name <$> run_calls (run_checks env d)).
Proof.
  destruct (load_config (config_file d)) as [cfg|e] eqn:Hload.
  2:{ rewrite (run_checks_not_loaded _ _ _ Hload). cbn. apply NoDup_nil_2. }
  destruct (run_checks_loaded env d cfg Hload) as (o & mf & E & Hcalls & _).
  rewrite Hcalls.
  destruct (loop_calls_NoDup _ _ _ _ _ _ (collect_NoDup _ _ _) E)
    as (cs & Hcs & Hnd & _).
  rewrite Hcs. exact Hnd.
Qed.

Lemma dict_get_absent {V} (dct : list (string * V)) (k : string) :
  k ∉ dct.*1 -> dict_get k dct = None.
Proof.
  induction dct as [|[k' v'] dct IH]; cbn; intros Hk; [reflexivity|].
  destruct (String.eqb_spec k k') as [->|Hne].
  - exfalso. apply Hk. apply list_elem_of_here.
  - apply IH. intros Hin. apply Hk. apply list_elem_of_further. exact Hin.
Qed.

(** X6 — a source that the loaded config does not list is out of reach of
    a run: it gets no result, no call of the mutator carries its name, and
    its entry in the state file is left as it was, absent entries staying
    absent. *)
Theorem unlisted_source_untouched (env : cycle_env) (d : disk) (name : string) :
  (forall cfg t,
      load_config (config_file d) = Return cfg ->
      t ∈ build_tasks cfg -> task_name t <> name) ->
  state_file (run_disk (run_checks env d)) !! name = state_file d !! name
  /\ (forall c, c ∈ run_calls (run_checks env d) -> call_name c <> name)
  /\ (forall rep,
        run_outcome (run_checks env d) = Return rep ->
        dict_get name (rep_results rep) = None
        /\ rep_state rep !! name = state_file d !! name).
Proof.
  intros Hunlisted.
  destruct (load_config (config_file d)) as [cfg|e] eqn:Hload.
  2:{ rewrite (run_checks_not_loaded _ _ _ Hload). cbn.
      split; [reflexivity|]. split; [|discriminate].
      intros c Hc. apply elem_of_nil in Hc. contradiction. }
  destruct (run_checks_loaded env d cfg Hload)
    as (o & mf & E & Hcalls & _ & Hend).
  set (results := collect (task_io env) (build_tasks cfg) (completion env))
    in *.
  assert (Hkey : name ∉ results.*1).
  { intros Hin. unfold results, collect in Hin.
    apply collect_fold_keys in Hin as [Hin|(i & t & _ & Ht & Hn)].
    - apply elem_of_nil in Hin. contradiction.
    - apply (Hunlisted cfg t eq_refl); [|exact Hn].
      apply list_elem_of_lookup. exists i. exact Ht. }
  destruct (for_each_touched env cfg (fun k => k ∈ results.*1) results
              (initial_mem d) o mf) as (Hstate & (cs & Hcs & Hnames) & _);
    [|exact E|].
  { intros item Hitem. apply list_elem_of_fmap. exists item. auto. }
  split; [|split].
  - destruct Hend as [(_ & _ & ->)|(e & _ & _ & ->)]; [|reflexivity].
    apply (Hstate name Hkey).
  - intros c Hc Hn. rewrite Hcalls, Hcs in Hc. cbn in Hc.
    rewrite Forall_forall in Hnames. apply Hkey. rewrite <- Hn. auto.
  - intros rep Hrep.
    destruct Hend as [(_ & Hout & _)|(e & _ & Hout & _)];
      rewrite Hout in Hrep; [|discriminate].
    injection Hrep as <-. cbn [rep_results rep_state]. split.
    + apply dict_get_absent. exact Hkey.
    + apply (Hstate name Hkey).
Qed.

End RunExtras.

Section RunExtras2.
Context `{PyLib}.

Lemma swap_refused_keeps_file old_url new_url file text :
  swap_url_in_config old_url new_url file = (false, text) -> text = file.
Proof.
  unfold swap_url_in_config. cbv zeta.
  destruct (negb (str_contains (json_dumps old_url) (universal_newlines file)));
    intros E; [injection E as <-; reflexivity|discriminate].
Qed.

Lemma loop_refused env cfg l m o m' cs :
  for_each (process env cfg) l m = (o, m') ->
  mem_calls m' = (mem_calls m ++ cs)%list ->
  (forall c, c ∈ cs -> call_applied c = false) ->
  mem_config m' = mem_config m
  /\ mem_swapped m' = mem_swapped m
  /\ mem_reverted m' = mem_reverted m
  /\ (forall name,
        swapped_from (entry_at m' name) = swapped_from (entry_at m name)).
Proof.
  revert m cs. induction l as [|[n r] l IH]; intros m cs E Hcs Hrefused.
  - cbn in E. injection E as _ <-. auto.
  - cbn [for_each] in E. unfold bind in E.
    destruct (process env cfg (n, r) m) as [o1 m1] eqn:Ep.
    destruct (process_turn _ _ _ _ _ _ _ Ep) as (e' & He' & _ & Ht).
    destruct (process_touched _ _ _ _ _ _ _ Ep) as (Hother & _).
    assert (Hrest : exists cs2, mem_calls m' = (mem_calls m1 ++ cs2)%list).
    { destruct o1 as [[]|e].
      - destruct (for_each_touched env cfg (fun _ => True) l m1 o m')
          as (_ & (cs2 & Hc2 & _) & _); [auto|exact E|eauto].
      - injection E as _ <-. exists []. rewrite app_nil_r. reflexivity. }
    destruct Hrest as (cs2 & Hc2).
    assert (Hstep : exists cs1,
               cs = (cs1 ++ cs2)%list
               /\ mem_calls m1 = (mem_calls m ++ cs1)%list).
    { destruct (process_calls _ _ _ _ _ _ _ Ep) as (cs1 & Hc1 & _).
      exists cs1. split; [|exact Hc1].
      rewrite Hc2, Hc1, <- app_assoc in Hcs.
      apply app_inv_head in Hcs. auto. }
    destruct Hstep as (cs1 & -> & Hc1).
    assert (Hfirst : mem_config m1 = mem_config m
                     /\ mem_swapped m1 = mem_swapped m
                     /\ mem_reverted m1 = mem_reverted m
                     /\ swapped_from e' = swapped_from (entry_at m n)).
    { destruct Ht as [_ Hcf Hsw Hrv Hsf
                     |c Hcond Hc Hswap Hrv _ Hsf Hsw
                     |c Hcond Hc Hswap Hsw _ Hsf Hrv].
      - auto.
      - assert (Happ : call_applied c = false).
        { apply Hrefused. apply elem_of_app. left.
          rewrite Hc in Hc1. apply app_inv_head in Hc1. subst cs1.
          apply list_elem_of_here. }
        rewrite Happ in Hswap, Hsf, Hsw.
        apply swap_refused_keeps_file in Hswap.
        destruct Hcond as (_ & _ & _ & _ & _ & Hnone & _).
        rewrite Hnone. auto.
      - assert (Happ : call_applied c = false).
        { apply Hrefused. apply elem_of_app. left.
          rewrite Hc in Hc1. apply app_inv_head in Hc1. subst cs1.
          apply list_elem_of_here. }
        rewrite Happ in Hswap, Hsf, Hrv.
        apply swap_refused_keeps_file in Hswap. auto. }
    destruct Hfirst as (Hcf1 & Hsw1 & Hrv1 & Hsf1).
    assert (Hentries : forall name,
               swapped_from (entry_at m1 name) = swapped_from (entry_at m name)).
    { intros name. unfold entry_at at 1. destruct (String.eqb_spec n name) as [<-|Hne].
      - rewrite He'. exact Hsf1.
      - rewrite (Hother name Hne). reflexivity. }
    assert (Hlater : mem_config m' = mem_config m1
                     /\ mem_swapped m' = mem_swapped m1
                     /\ mem_reverted m' = mem_reverted m1
                     /\ (forall name,
                            swapped_from (entry_at m' name)
                            = swapped_from (entry_at m1 name))).
    { destruct o1 as [[]|e].
      - apply (IH m1 cs2 E Hc2). intros c Hc. apply Hrefused.
        apply elem_of_app. auto.
      - injection E as _ <-. auto. }
    destruct Hlater as (Hcf2 & Hsw2 & Hrv2 & Hsf2).
    split; [congruence|]. split; [congruence|]. split; [congruence|].
    intros name. rewrite Hsf2. apply Hentries.
Qed.

(** X7 — a run none of whose calls of the mutator was applied leaves the
    config document as it found it, emits neither a failover nor a revert
    event, and changes no [swapped_from]. *)
Theorem refused_calls_change_nothing (env : cycle_env) (d : disk) :
  (forall c, c ∈ run_calls (run_checks env d) -> call_applied c = false) ->
  config_file (run_disk (run_checks env d)) = config_file d
  /\ (forall name,
        swapped_from (state_at (state_file (run_disk (run_checks env d))) name)
        = swapped_from (state_at (state_file d) name))
  /\ (forall rep,
        run_outcome (run_checks env d) = Return rep ->
        rep_swapped rep = [] /\ rep_reverted rep = []).
Proof.
  intros Hrefused.
  destruct (load_config (config_file d)) as [cfg|e] eqn:Hload.
  2:{ rewrite (run_checks_not_loaded _ _ _ Hload). cbn.
      split; [reflexivity|]. split; [reflexivity|discriminate]. }
  destruct (run_checks_loaded env d cfg Hload)
    as (o & mf & E & Hcalls & Hcfg & Hend).
  rewrite Hcalls in Hrefused.
  destruct (loop_refused env cfg _ _ _ _ (mem_calls mf) E eq_refl Hrefused)
    as (Hcf & Hsw & Hrv & Hsf).
  split; [rewrite Hcfg; exact Hcf|]. split.
  - intros name.
    destruct Hend as [(_ & _ & ->)|(e & _ & _ & ->)]; [|reflexivity].
    rewrite <- entry_at_initial. apply Hsf.
  - intros rep Hrep.
    destruct Hend as [(_ & Hout & _)|(e & _ & Hout & _)];
      rewrite Hout in Hrep; [|discriminate].
    injection Hrep as <-. cbn [rep_swapped rep_reverted]. auto.
Qed.

Lemma auto_revert_unswapped env cfg name res m :
  swapped_from (entry_at m name) = None ->
  auto_revert env cfg name res m = (Return tt, m).
Proof.
  intros Hsf. unfold auto_revert, bind, get_entry. fold (entry_at m name).
  rewrite Hsf. cbn [str_truthy]. rewrite andb_false_r. reflexivity.
Qed.

Lemma process_healthy env cfg name res m :
  ok res = true ->
  swapped_from (entry_at m name) = None ->
  process env cfg (name, res) m = (Return tt, recorded env name res m).
Proof.
  intros Hok Hsf. rewrite process_eq, (auto_swap_passing _ _ _ _ Hok).
  apply auto_revert_unswapped.
  rewrite entry_at_recorded, swapped_from_recorded. exact Hsf.
Qed.

Lemma loop_healthy env cfg l m :
  (forall item, item ∈ l -> ok item.2 = true) ->
  (forall name, swapped_from (entry_at m name) = None) ->
  exists m',
    for_each (process env cfg) l m = (Return tt, m')
    /\ mem_calls m' = mem_calls m
    /\ mem_config m' = mem_config m
    /\ mem_swapped m' = mem_swapped m
    /\ mem_reverted m' = mem_reverted m.
Proof.
  revert m. induction l as [|[n r] l IH]; intros m Hok Hsf.
  - exists m. cbn. auto.
  - cbn [for_each]. unfold bind.
    rewrite (process_healthy env cfg n r m);
      [|apply (Hok (n, r)); apply list_elem_of_here|apply Hsf].
    destruct (IH (recorded env n r m)) as (m' & E & Hc & Hcf & Hsw & Hrv).
    + intros item Hitem. apply Hok. apply list_elem_of_further. exact Hitem.
    + intros name. destruct (String.eqb_spec n name) as [<-|Hne].
      * rewrite entry_at_recorded, swapped_from_recorded. apply Hsf.
      * unfold entry_at, recorded. cbn [mem_state].
        rewrite lookup_insert_ne by exact Hne. apply Hsf.
    + exists m'. split; [exact E|]. cbn in Hc, Hcf, Hsw, Hrv. auto.
Qed.

Lemma dict_get_member {V} (dct : list (string * V)) (k : string) (v : V) :
  NoDup dct.*1 -> (k, v) ∈ dct -> dict_get k dct = Some v.
Proof.
  induction dct as [|[k' v'] dct IH]; cbn [fmap list_fmap fst]; intros Hnd Hin.
  - apply elem_of_nil in Hin. contradiction.
  - apply NoDup_cons in Hnd as [Hk Hnd]. cbn [dict_get].
    apply elem_of_cons in Hin as [Heq|Hin].
    + injection Heq as -> ->. rewrite String.eqb_refl. reflexivity.
    + destruct (String.eqb_spec k k') as [->|Hne]; [|auto].
      exfalso. apply Hk. apply list_elem_of_fmap. exists (k', v). auto.
Qed.

(** X8 — when every source checks healthy and none is swapped, the run
    ends without an exception, calls the mutator not once, leaves the
    config document as it was and reports no failover and no revert. *)
Theorem healthy_run_is_quiet (env : cycle_env) (d : disk) (cfg : config) :
  load_config (config_file d) = Return cfg ->
  (forall name res,
      dict_get name (collect (task_io env) (build_tasks cfg) (completion env))
        = Some res ->
      ok res = true) ->
  (forall name, swapped_from (state_at (state_file d) name) = None) ->
  run_calls (run_checks env d) = []
  /\ config_file (run_disk (run_checks env d)) = config_file d
  /\ exists rep,
       run_outcome (run_checks env d) = Return rep
       /\ rep_swapped rep = []
       /\ rep_reverted rep = [].
Proof.
  intros Hload Hok Hsf.
  destruct (loop_healthy env cfg
              (collect (task_io env) (build_tasks cfg) (completion env))
              (initial_mem d))
    as (m' & E' & Hc & Hcf & Hsw & Hrv).
  { intros [n r] Hitem. apply (Hok n).
    apply dict_get_member; [apply collect_NoDup|exact Hitem]. }
  { intros name. rewrite entry_at_initial. apply Hsf. }
  destruct (run_checks_loaded env d cfg Hload)
    as (o & mf & E & Hcalls & Hcfg & Hend).
  rewrite E' in E. injection E as <- <-.
  destruct Hend as [(_ & Hout & _)|(e & He & _)]; [|discriminate].
  split; [rewrite Hcalls; exact Hc|]. split; [rewrite Hcfg; exact Hcf|].
  eexists. split; [exact Hout|]. cbn [rep_swapped rep_reverted]. auto.
Qed.

Lemma process_missing_url env cfg name res m fb e :
  ok res = false ->
  (FAIL_THRESHOLD <= consecutive_fails (entry_at m name) + 1)%Z ->
  FALLBACK_URLS !! name = Some fb ->
  swapped_from (entry_at m name) = None ->
  _get_current_url cfg name = Raise e ->
  process env cfg (name, res) m = (Raise e, recorded env name res m).
Proof.
  intros Hok Hth Hfb Hsf Hurl. rewrite process_eq.
  unfold auto_swap, bind, get_entry, lift.
  fold (entry_at (recorded env name res m) name).
  rewrite entry_at_recorded, swapped_from_recorded, Hsf, Hfb, Hurl, Hok.
  rewrite (consecutive_fails_recorded _ _ _ Hok).
  cbn [negb andb].
  destruct (Z.leb_spec FAIL_THRESHOLD (consecutive_fails (entry_at m name) + 1));
    [reflexivity|lia].
Qed.

(** X9 — a source listed by name without a ["url"] key, that fails, reaches
    the threshold, has a fallback and is not swapped: the lookup of its URL
    raises, the run ends with an exception, no call is made for the source
    and the state file is not written, so the failure of this run is not
    counted. *)
Theorem missing_url_key_aborts_run
    (env : cycle_env) (d : disk) (cfg : config)
    (name : string) (res : result) (fb : string) (e : exn) :
  load_config (config_file d) = Return cfg ->
  dict_get name (collect (task_io env) (build_tasks cfg) (completion env))
    = Some res ->
  ok res = false ->
  (FAIL_THRESHOLD <= consecutive_fails (state_at (state_file d) name) + 1)%Z ->
  FALLBACK_URLS !! name = Some fb ->
  swapped_from (state_at (state_file d) name) = None ->
  _get_current_url cfg name = Raise e ->
  (exists e', run_outcome (run_checks env d) = Raise e')
  /\ state_file (run_disk (run_checks env d)) = state_file d
  /\ (forall c, c ∈ run_calls (run_checks env d) -> call_name c <> name).
Proof.
  intros Hload Hget Hok Hth Hfb Hsf Hurl.
  destruct (run_checks_loaded env d cfg Hload)
    as (o & mf & E & Hcalls & _ & Hend).
  assert (Hitem : (name, res)
                    ∈ collect (task_io env) (build_tasks cfg) (completion env)).
  { apply dict_get_Some_elem. exact Hget. }
  destruct (for_each_focus env cfg _ name res _ _ _ (collect_NoDup _ _ _)
              Hitem E) as (m1 & m2 & H1 & H2 & Hcase).
  pose proof (touched_other_entry _ _ _ H1) as He1.
  rewrite entry_at_initial in He1.
  assert (Hturn : (exists e', o = Raise e') /\ mem_calls m2 = mem_calls m1).
  { destruct Hcase as [(o2 & Ep & Hret)|(-> & e' & ->)]; [|eauto].
    rewrite (process_missing_url env cfg name res m1 fb e) in Ep;
      try (rewrite He1; assumption); try assumption.
    injection Ep as <- <-. split; [|reflexivity].
    destruct o as [[]|e']; [|eauto].
    specialize (Hret eq_refl). discriminate. }
  destruct Hturn as ((e' & ->) & Hsame).
  destruct Hend as [(Hret & _)|(e'' & He'' & Hout & Hst)]; [discriminate|].
  split; [eauto|]. split; [exact Hst|].
  intros c Hc Hn. rewrite Hcalls in Hc.
  apply (touched_other_calls _ _ _ _ H2 Hn) in Hc. rewrite Hsame in Hc.
  apply (touched_other_calls _ _ _ _ H1 Hn) in Hc.
  apply elem_of_nil in Hc. contradiction.
Qed.

End RunExtras2.

(** ** The source list, the scheduler with repeated names, the entry point *)

Lemma task_names_of_sources (cfg : config) :
  task_name <$> build_tasks cfg
  = (fun src => default "Unknown" (src_name src)) <$> all_sources cfg.
Proof.
  unfold build_tasks, all_sources. rewrite !fmap_app. f_equal.
  - induction (sina_api cfg) as [|s l IH]; cbn; [reflexivity|]. f_equal. exact IH.
  - induction (rss_feeds cfg) as [|s l IH]; cbn; [reflexivity|]. f_equal. exact IH.
Qed.

Lemma find_source_own (name : string) (section : list source) (src : source) :
  NoDup ((fun s => default "Unknown" (src_name s)) <$> section) ->
  src ∈ section ->
  src_name src = Some name ->
  find_source name section = Some src.
Proof.
  induction section as [|s section IH]; intros Hnd Hin Hname.
  - apply elem_of_nil in Hin. contradiction.
  - cbn [fmap list_fmap] in Hnd. apply NoDup_cons in Hnd as [Hs Hnd].
    cbn [find_source]. apply elem_of_cons in Hin as [<-|Hin].
    + rewrite Hname, String.eqb_refl. reflexivity.
    + destruct (src_name s) as [n|] eqn:Hn; [|auto].
      destruct (String.eqb_spec n name) as [->|Hne]; [|auto].
      exfalso. apply Hs. apply list_elem_of_fmap. exists src.
      rewrite Hname. auto.
Qed.

Lemma find_source_absent (name : string) (section : list source) :
  (forall s, s ∈ section -> src_name s <> Some name) ->
  find_source name section = None.
Proof.
  induction section as [|s section IH]; intros Hno; [reflexivity|].
  cbn [find_source].
  assert (Hs : src_name s <> Some name) by (apply Hno, list_elem_of_here).
  assert (Hrest : find_source name section = None).
  { apply IH. intros s' Hs'. apply Hno. apply list_elem_of_further. exact Hs'. }
  destruct (src_name s) as [n|]; [|exact Hrest].
  destruct (String.eqb_spec n name) as [->|Hne]; [congruence|exact Hrest].
Qed.

(** X10 — in a config whose sources have distinct names, the URL that
    failover and revert look up for a listed name is the one of that
    source's own entry, the URL its check probes; when the entry has no
    ["url"] key the lookup raises [KeyError] while the check probes the
    empty URL. *)
Theorem current_url_is_own_url (cfg : config) (src : source) (name : string) :
  NoDup (task_name <$> build_tasks cfg) ->
  src ∈ all_sources cfg ->
  src_name src = Some name ->
  _get_current_url cfg name = url_of src
  /\ exists t,
       t ∈ build_tasks cfg
       /\ task_name t = name
       /\ task_url t = default "" (src_url src)
       /\ forall u, _get_current_url cfg name = Return (Some u) -> task_url t = u.
Proof.
  intros Hnd Hin Hname. rewrite task_names_of_sources in Hnd.
  unfold all_sources in Hnd, Hin. rewrite fmap_app in Hnd.
  apply NoDup_app in Hnd as (Hnd1 & Hcross & Hnd2).
  assert (Hurl : _get_current_url cfg name = url_of src).
  { unfold _get_current_url. apply elem_of_app in Hin as [Hin|Hin].
    - rewrite (find_source_own name _ src Hnd1 Hin Hname). reflexivity.
    - rewrite find_source_absent.
      + rewrite (find_source_own name _ src Hnd2 Hin Hname). reflexivity.
      + intros s Hs Hsn. apply (Hcross name).
        * apply list_elem_of_fmap. exists s. rewrite Hsn. auto.
        * apply list_elem_of_fmap. exists src. rewrite Hname. auto. }
  split; [exact Hurl|].
  assert (Htask : exists stype, task_of stype src ∈ build_tasks cfg).
  { unfold build_tasks. apply elem_of_app in Hin as [Hin|Hin].
    - exists "json". apply elem_of_app. left.
      apply list_elem_of_In, in_map, list_elem_of_In. exact Hin.
    - exists "rss". apply elem_of_app. right.
      apply list_elem_of_In, in_map, list_elem_of_In. exact Hin. }
  destruct Htask as (stype & Ht). exists (task_of stype src).
  split; [exact Ht|]. cbn [task_of task_name task_url]. rewrite Hname.
  split; [reflexivity|]. split; [reflexivity|].
  intros u. rewrite Hurl. unfold url_of.
  destruct (src_url src); [|discriminate]. intros E. injection E as <-.
  reflexivity.
Qed.

Section SchedulerExtras.
Context `{PyLib}.

(** X11 — when several tasks carry the same name, the result kept under
    that name is the one of the task whose future completes last: a later
    future of the same name overwrites what an earlier one stored. *)
Theorem last_completed_future_wins
    (io : nat -> probe_io) (tasks : list task)
    (before after : list nat) (i : nat) (t : task) :
  tasks !! i = Some t ->
  (forall j t', j ∈ after -> tasks !! j = Some t' ->
                task_name t' <> task_name t) ->
  dict_get (task_name t) (collect io tasks (before ++ i :: after))
    = Some (stored_result io i t).
Proof.
  intros Ht Hafter. unfold collect. rewrite fold_left_app. cbn [fold_left].
  rewrite collect_fold_other by exact Hafter.
  rewrite (collect_one_stored _ _ _ _ _ Ht). apply dict_get_set_eq.
Qed.

End SchedulerExtras.

Section EntryPointExtras.
Context `{PyLib}.

Lemma has_problems_false (results : list (string * result)) :
  has_problems results = false
  <-> forall item, item ∈ results -> ok item.2 = true.
Proof.
  unfold has_problems. induction results as [|item results IH]; cbn [existsb].
  - split; [|reflexivity]. intros _ it Hit. apply elem_of_nil in Hit.
    contradiction.
  - rewrite orb_false_iff, IH, negb_false_iff. split.
    + intros [Hitem Hrest] it Hit. apply elem_of_cons in Hit as [->|Hit]; auto.
    + intros Hall. split.
      * apply Hall, list_elem_of_here.
      * intros it Hit. apply Hall, list_elem_of_further, Hit.
Qed.

(** X12 — for a run that returns, [main] exits with status 0 exactly when
    every result is ok and with status 1 otherwise; a run that failed a
    source over never exits with 0; and the alert is requested exactly when
    [--email] was given and there is a result not ok, a failover or a
    revert. *)
Theorem main_exit_status
    (send_email : bool) (env : cycle_env) (d : disk) (rep : report) :
  run_outcome (run_checks env d) = Return rep ->
  (exit_status (main send_email env d).1 = 0%Z
   <-> forall name res, dict_get name (rep_results rep) = Some res ->
                        ok res = true)
  /\ (exit_status (main send_email env d).1 <> 0%Z ->
      exit_status (main send_email env d).1 = 1%Z)
  /\ (rep_swapped rep <> [] -> exit_status (main send_email env d).1 = 1%Z)
  /\ (alert_requested (main send_email env d).1 = true
      <-> send_email = true
          /\ (exit_status (main send_email env d).1 = 1%Z
              \/ rep_swapped rep <> [] \/ rep_reverted rep <> [])).
Proof.
  intros Hrun.
  assert (Hnd : NoDup (rep_results rep).*1).
  { destruct (load_config (config_file d)) as [cfg|e] eqn:Hload.
    2:{ rewrite (run_checks_not_loaded _ _ _ Hload) in Hrun. discriminate. }
    destruct (run_checks_loaded env d cfg Hload)
      as (o & mf & _ & _ & _ & [(_ & Hout & _)|(e & _ & Hout & _)]);
      rewrite Hout in Hrun; [|discriminate].
    injection Hrun as <-. apply collect_NoDup. }
  assert (Hfailover : rep_swapped rep <> [] ->
                      has_problems (rep_results rep) = true).
  { intros Hsw. destruct (rep_swapped rep) as [|ev evs] eqn:Hevs;
      [contradiction|].
    assert (Hev : ev ∈ rep_swapped rep)
      by (rewrite Hevs; apply list_elem_of_here).
    pose proof (run_swapped_call env d rep ev Hrun Hev) as Hcall.
    destruct (load_config (config_file d)) as [cfg|e] eqn:Hload.
    2:{ rewrite (run_checks_not_loaded _ _ _ Hload) in Hrun. discriminate. }
    destruct (run_call_conditions env d cfg _ Hload Hcall)
      as (res & Hget & Hcond).
    destruct (run_checks_loaded env d cfg Hload)
      as (o & mf & _ & _ & _ & [(_ & Hout & _)|(e & _ & Hout & _)]);
      rewrite Hout in Hrun; [|discriminate].
    injection Hrun as Hrep. rewrite <- Hrep. cbn [rep_results].
    destruct Hcond as [(_ & _ & Hok & _)|(Hsite & _)]; [|discriminate].
    apply dict_get_Some_elem in Hget.
    destruct (has_problems _) eqn:Hp; [reflexivity|].
    rewrite has_problems_false in Hp. specialize (Hp _ Hget). cbn in Hp.
    congruence. }
  unfold main. rewrite Hrun. cbn [fst exit_status alert_requested].
  destruct (has_problems (rep_results rep)) eqn:Hp; cbn [negb orb].
  - split.
    { split; [discriminate|]. intros Hall.
      assert (Hnone : has_problems (rep_results rep) = false); [|congruence].
      apply has_problems_false. intros [n r] Hitem. apply (Hall n).
      apply dict_get_member; assumption. }
    split; [reflexivity|]. split; [reflexivity|].
    rewrite andb_true_r. tauto.
  - split.
    { split; [|reflexivity]. intros _ name res Hget.
      rewrite has_problems_false in Hp.
      apply (Hp (name, res)). apply dict_get_Some_elem. exact Hget. }
    split; [intros Hne; contradiction Hne; reflexivity|].
    split; [intros Hsw; specialize (Hfailover Hsw); discriminate|].
    unfold has_changes. rewrite andb_true_iff, orb_true_iff.
    destruct (rep_swapped rep), (rep_reverted rep); cbn;
      intuition (discriminate || congruence || eauto).
Qed.

End EntryPointExtras.

(** ** Swapping and swapping back *)

Lemma str_find_contains (p s : string) (i : nat) :
  str_find p s = Some i -> str_contains p s = true.
Proof.
  revert i. induction s as [|c s IH]; intros i; cbn [str_find str_contains];
    destruct (strip_prefix p _); try reflexivity; try discriminate.
  destruct (str_find p s) as [j|]; [|discriminate]. intros _. eauto.
Qed.

Lemma str_replace1_back (p r s : string) (i : nat) :
  str_find p s = Some i ->
  str_find r (str_replace1 p r s) = Some i ->
  str_replace1 r p (str_replace1 p r s) = s.
Proof.
  revert i. induction s as [|c s IH]; intros i;
    cbn [str_find str_replace1].
  - destruct (strip_prefix p "") as [rest|] eqn:E; [|discriminate].
    intros _ _. apply strip_prefix_Some in E. rewrite E.
    assert (Hr : strip_prefix r (r ++ rest) = Some rest)
      by (apply strip_prefix_Some; reflexivity).
    destruct (r ++ rest) as [|c' s'] eqn:Es; cbn [str_replace1]; rewrite Hr;
      reflexivity.
  - destruct (strip_prefix p (String c s)) as [rest|] eqn:E.
    + intros _ _. apply strip_prefix_Some in E. rewrite E.
      assert (Hr : strip_prefix r (r ++ rest) = Some rest)
        by (apply strip_prefix_Some; reflexivity).
      destruct (r ++ rest) as [|c' s'] eqn:Es; cbn [str_replace1]; rewrite Hr;
        reflexivity.
    + destruct (str_find p s) as [j|] eqn:Ej; [|discriminate].
      cbn [option_map]. intros Hi. injection Hi as <-.
      cbn [str_find str_replace1].
      destruct (strip_prefix r (String c (str_replace1 p r s)));
        [discriminate|].
      destruct (str_find r (str_replace1 p r s)) as [k|] eqn:Ek;
        [|discriminate].
      cbn [option_map]. intros Hk. injection Hk as ->.
      rewrite (IH j eq_refl eq_refl). reflexivity.
Qed.

(** Reading leaves a text as it is exactly when the text holds no CR. *)
Lemma universal_newlines_cons (c : ascii) (s : string) :
  universal_newlines (String c s) = String c s
  <-> c <> carriage_return /\ universal_newlines s = s.
Proof.
  cbn [universal_newlines].
  destruct (Ascii.eqb_spec c carriage_return) as [->|Hc].
  - split; [discriminate|]. intros [Hc _]. contradiction.
  - split.
    + intros E. injection E as E. auto.
    + intros [_ ->]. reflexivity.
Qed.

Lemma universal_newlines_app (a b : string) :
  universal_newlines (a ++ b) = a ++ b
  <-> universal_newlines a = a /\ universal_newlines b = b.
Proof.
  induction a as [|c a IH].
  - rewrite append_empty_l. cbn [universal_newlines]. tauto.
  - rewrite append_cons, !universal_newlines_cons, IH. tauto.
Qed.

(** What has been read holds no CR. *)
Lemma universal_newlines_idem (s : string) :
  universal_newlines (universal_newlines s) = universal_newlines s.
Proof.
  enough (Hboth : universal_newlines (universal_newlines s) = universal_newlines s
                  /\ forall c, universal_newlines (universal_newlines (String c s))
                               = universal_newlines (String c s))
    by apply Hboth.
  induction s as [|d s [IHs IHc]].
  - split; [reflexivity|]. intros c. cbn [universal_newlines].
    destruct (Ascii.eqb c carriage_return) eqn:Ec; cbn [universal_newlines].
    + reflexivity.
    + rewrite Ec. reflexivity.
  - split; [apply IHc|]. intros c.
    change (universal_newlines (String c (String d s)))
      with (if Ascii.eqb c carriage_return then
              String line_feed
                (if Ascii.eqb d line_feed then universal_newlines s
                 else universal_newlines (String d s))
            else String c (universal_newlines (String d s))).
    destruct (Ascii.eqb c carriage_return) eqn:Ec.
    + apply universal_newlines_cons. split; [discriminate|].
      destruct (Ascii.eqb d line_feed); [exact IHs|apply IHc].
    + apply universal_newlines_cons. split; [|apply IHc].
      intros ->. discriminate.
Qed.

(** Replacing in a text without CR by a literal without CR brings none. *)
Lemma str_replace1_no_cr (p r s : string) :
  universal_newlines r = r -> universal_newlines s = s ->
  universal_newlines (str_replace1 p r s) = str_replace1 p r s.
Proof.
  intros Hr. induction s as [|c s IH]; intros Hs; cbn [str_replace1].
  - destruct (strip_prefix p "") as [rest|] eqn:E; [|reflexivity].
    apply strip_prefix_Some in E. rewrite E in Hs.
    apply universal_newlines_app in Hs as [_ Hrest].
    apply universal_newlines_app. auto.
  - destruct (strip_prefix p (String c s)) as [rest|] eqn:E.
    + apply strip_prefix_Some in E. rewrite E in Hs.
      apply universal_newlines_app in Hs as [_ Hrest].
      apply universal_newlines_app. auto.
    + apply universal_newlines_cons in Hs as [Hc Hs].
      apply universal_newlines_cons. auto.
Qed.

(** X13 — swapping a URL and then swapping back restores the text of the
    config document (the document itself, byte for byte, when it holds no
    CR), provided the new URL's literal holds no CR and its first occurrence
    in the swapped document is the one the swap wrote, at the place where
    the old literal first stood in the text; both calls then return
    [True]. *)
Theorem swap_back_restores_document `{PyLib}
    (old_url new_url file : string) (i : nat) :
  universal_newlines (json_dumps new_url) = json_dumps new_url ->
  str_find (json_dumps old_url) (universal_newlines file) = Some i ->
  str_find (json_dumps new_url) (swap_url_in_config old_url new_url file).2
    = Some i ->
  (swap_url_in_config old_url new_url file).1 = true
  /\ swap_url_in_config new_url old_url
       (swap_url_in_config old_url new_url file).2
     = (true, universal_newlines file)
  /\ (universal_newlines file = file ->
      swap_url_in_config new_url old_url
        (swap_url_in_config old_url new_url file).2 = (true, file)).
Proof.
  intros Hcr Hold. unfold swap_url_in_config at 1 2 4 6. cbv zeta.
  rewrite (str_find_contains _ _ _ Hold). cbn [negb fst snd]. intros Hnew.
  assert (Hback : swap_url_in_config new_url old_url
                    (str_replace1 (json_dumps old_url) (json_dumps new_url)
                       (universal_newlines file))
                  = (true, universal_newlines file)).
  { unfold swap_url_in_config. cbv zeta.
    rewrite (str_replace1_no_cr _ _ _ Hcr (universal_newlines_idem file)).
    rewrite (str_find_contains _ _ _ Hnew). cbn [negb].
    rewrite (str_replace1_back _ _ _ _ Hold Hnew). reflexivity. }
  split; [reflexivity|]. split; [exact Hback|].
  intros Hfile. rewrite Hback, Hfile. reflexivity.
Qed.

(** X21 — on a config document that holds no CR, the mutator does what its
    docstring says, for every pair of URLs: either the serialized old URL
    does not occur and the call returns [False] with the document
    unchanged, or the document splits around the leftmost occurrence as
    [pre ++ old ++ post] and the call returns [True] with
    [pre ++ new ++ post]: the bytes before and after, later occurrences
    included, stay as they were. *)
Theorem swap_url_in_config_first_occurrence `{PyLib}
    (file old_url new_url : string) :
  universal_newlines file = file ->
  ((~ exists pre post, occurs_at (json_dumps old_url) pre post file) /\
   swap_url_in_config old_url new_url file = (false, file))
  \/
  (exists pre post,
      occurs_at (json_dumps old_url) pre post file /\
      leftmost (json_dumps old_url) pre file /\
      swap_url_in_config old_url new_url file
        = (true, pre ++ json_dumps new_url ++ post)).
Proof.
  intros Hfile.
  pose proof (swap_url_in_config_on_text file old_url new_url) as Htext.
  rewrite Hfile in Htext. exact Htext.
Qed.

(** ** Blank and padded date strings *)

Lemma lstrip_chars_all_space (pad chars : list string) :
  forallb is_space pad = true ->
  lstrip_chars (pad ++ chars) = lstrip_chars chars.
Proof.
  induction pad as [|ch pad IH]; cbn [forallb]; intros Hpad; [reflexivity|].
  apply andb_true_iff in Hpad as [Hch Hpad].
  cbn [app lstrip_chars]. rewrite Hch. auto.
Qed.

Lemma lstrip_chars_of_all_space (pad : list string) :
  forallb is_space pad = true -> lstrip_chars pad = [].
Proof.
  intros Hpad. rewrite <- (app_nil_r pad), lstrip_chars_all_space by exact Hpad.
  reflexivity.
Qed.

Lemma rstrip_chars_of_all_space (pad : list string) :
  forallb is_space pad = true -> rstrip_chars pad = [].
Proof.
  induction pad as [|ch pad IH]; cbn [forallb rstrip_chars]; intros Hpad;
    [reflexivity|].
  apply andb_true_iff in Hpad as [Hch Hpad]. rewrite (IH Hpad), Hch. reflexivity.
Qed.

Lemma rstrip_chars_app_all_space (chars pad : list string) :
  forallb is_space pad = true ->
  rstrip_chars (chars ++ pad) = rstrip_chars chars.
Proof.
  intros Hpad. induction chars as [|ch chars IH].
  - cbn [app rstrip_chars]. apply rstrip_chars_of_all_space. exact Hpad.
  - cbn [app rstrip_chars]. rewrite IH. reflexivity.
Qed.

Lemma lstrip_chars_empty (chars : list string) :
  lstrip_chars chars = [] -> forallb is_space chars = true.
Proof.
  induction chars as [|ch chars IH]; cbn [lstrip_chars forallb]; [reflexivity|].
  destruct (is_space ch); [cbn; exact IH|discriminate].
Qed.

Lemma lstrip_chars_app (chars pad : list string) :
  lstrip_chars chars <> [] ->
  lstrip_chars (chars ++ pad) = (lstrip_chars chars ++ pad)%list.
Proof.
  induction chars as [|ch chars IH]; cbn [lstrip_chars]; [contradiction|].
  cbn [app lstrip_chars]. destruct (is_space ch); [exact IH|reflexivity].
Qed.

Lemma strip_chars_padded (before chars after : list string) :
  forallb is_space before = true -> forallb is_space after = true ->
  rstrip_chars (lstrip_chars (before ++ chars ++ after))
    = rstrip_chars (lstrip_chars chars).
Proof.
  intros Hb Ha. rewrite (lstrip_chars_all_space _ _ Hb).
  destruct (lstrip_chars chars) as [|ch rest] eqn:Es.
  - apply lstrip_chars_empty in Es.
    rewrite lstrip_chars_of_all_space; [reflexivity|].
    rewrite forallb_app, Es, Ha. reflexivity.
  - rewrite lstrip_chars_app by (rewrite Es; discriminate).
    rewrite Es. apply rstrip_chars_app_all_space. exact Ha.
Qed.

Lemma str_strip_padded (before s after : string) :
  all_space before = true -> all_space after = true ->
  starts_character s = true ->
  str_strip (before ++ s ++ after) = str_strip s.
Proof.
  unfold all_space. intros Hb Ha Hs. unfold str_strip.
  pose proof (all_space_starts after Ha) as Hafter.
  rewrite utf8_chars_app by (apply starts_character_app; assumption).
  rewrite utf8_chars_app by exact Hafter.
  rewrite (strip_chars_padded _ _ _ Hb Ha). reflexivity.
Qed.

Section DateExtras.
Context `{PyLib}.

(** X14 — whitespace around a date string never matters, whatever the
    parsers of the library accept, and whitespace is what [str.isspace]
    says, not only the ASCII blanks: the padded string parses to what the
    bare one parses to; and a blank string, empty or all whitespace, is not
    offered to any parser and gives [None]. *)
Theorem parse_date_ignores_padding (before date_str after : string) :
  all_space before = true ->
  all_space after = true ->
  starts_character date_str = true ->
  _parse_date_flexible (before ++ date_str ++ after)
    = _parse_date_flexible date_str
  /\ _parse_date_flexible (before ++ after) = None.
Proof.
  intros Hb Ha Hs. split.
  - unfold _parse_date_flexible. rewrite (str_strip_padded _ _ _ Hb Ha Hs).
    reflexivity.
  - unfold _parse_date_flexible.
    replace (before ++ after) with (before ++ "" ++ after)
      by (rewrite append_empty_l; reflexivity).
    rewrite (str_strip_padded before "" after Hb Ha eq_refl). reflexivity.
Qed.

(** [<] on floats is transitive and irreflexive. *)
Lemma SFltb_trans (x y z : float) :
  SFltb x y = true -> SFltb y z = true -> SFltb x z = true.
Proof.
  unfold SFltb.
  destruct x as [sx|sx| |sx mx ex], y as [sy|sy| |sy my ey],
    z as [sz|sz| |sz mz ez]; cbn [SFcompare];
    try discriminate; try reflexivity;
    try (destruct sx, sy, sz; cbn; congruence).
  fold (Pos.compare mx my) (Pos.compare my mz) (Pos.compare mx mz).
  destruct sx, sy, sz; try discriminate; try reflexivity;
    destruct (Z.compare_spec ex ey), (Z.compare_spec ey ez),
      (Z.compare_spec ex ez); try discriminate; try reflexivity; try lia;
    destruct (Pos.compare_spec mx my), (Pos.compare_spec my mz),
      (Pos.compare_spec mx mz); cbn; try discriminate; try reflexivity; lia.
Qed.

Lemma SFltb_irrefl (x : float) : SFltb x x = false.
Proof.
  unfold SFltb. destruct x as [s|s| |s m e]; cbn [SFcompare]; try reflexivity.
  - destruct s; reflexivity.
  - fold (Pos.compare m m).
    destruct s; rewrite Z.compare_refl, Pos.compare_refl; reflexivity.
Qed.

(** The freshness loop over items returns when reading each date does. *)
Lemma newest_pubdate_returns (items : list xml) (acc : option float) :
  (forall item, item ∈ items -> exists parsed, item_timestamp item = Return parsed) ->
  exists newest, newest_pubdate items acc = Return newest.
Proof.
  revert acc. induction items as [|item items IH]; intros acc Hread.
  - cbn. eauto.
  - cbn [newest_pubdate].
    destruct (Hread item (list_elem_of_here _ _)) as (parsed & ->).
    cbn [outcome_bind]. apply IH. intros it Hin. apply Hread.
    apply list_elem_of_further. exact Hin.
Qed.

(** What the loop keeps: what it started with or something later, nothing
    that an item offers is later, and it is one of these. *)
Lemma newest_pubdate_acc (items : list xml) (acc newest : option float) :
  newest_pubdate items acc = Return newest ->
  (forall item, item ∈ items -> exists parsed, item_timestamp item = Return parsed)
  /\ (forall a, acc = Some a ->
        exists ts, newest = Some ts /\ (ts = a \/ float_gt ts a = true))
  /\ (forall item t, item ∈ items -> item_timestamp item = Return (Some t) ->
                     exists ts, newest = Some ts /\ float_gt t ts = false)
  /\ (forall ts, newest = Some ts ->
                 acc = Some ts
                 \/ exists item,
                      item ∈ items /\ item_timestamp item = Return (Some ts)).
Proof.
  revert acc. induction items as [|item items IH]; intros acc E.
  - cbn in E. injection E as <-.
    split; [intros item Hin; apply elem_of_nil in Hin; contradiction|].
    split; [eauto|].
    split; [|auto]. intros item t Hin. apply elem_of_nil in Hin. contradiction.
  - cbn [newest_pubdate] in E.
    destruct (item_timestamp item) as [parsed|e] eqn:Hitem; [|discriminate].
    cbn [outcome_bind] in E.
    set (acc' := match parsed with Some _ => _ | None => acc end) in E.
    destruct (IH acc' E) as (Hread & Hacc & Hitems & Horigin).
    assert (Hgrow : forall a, acc = Some a ->
                      exists a', acc' = Some a'
                                 /\ (a' = a \/ float_gt a' a = true)).
    { intros a ->. subst acc'.
      destruct parsed as [t|]; [|eauto].
      destruct (float_gt t a) eqn:Hgt; eauto. }
    assert (Hhead : forall t, parsed = Some t ->
                      exists a', acc' = Some a' /\ float_gt t a' = false).
    { intros t ->. subst acc'. unfold float_gt.
      destruct acc as [a|]; [|eauto using SFltb_irrefl].
      fold (float_gt t a). destruct (float_gt t a) eqn:Hgt;
        eauto using SFltb_irrefl. }
    split; [|split; [|split]].
    + intros it Hin. apply elem_of_cons in Hin as [->|Hin]; [eauto|auto].
    + intros a Ha. destruct (Hgrow a Ha) as (a' & Ha' & Hle).
      destruct (Hacc a' Ha') as (ts & -> & Hle'). exists ts.
      split; [reflexivity|]. unfold float_gt in *.
      destruct Hle as [->|Hle]; [exact Hle'|].
      destruct Hle' as [->|Hle']; [auto|].
      right. eapply SFltb_trans; eauto.
    + intros it t Hin Hus. apply elem_of_cons in Hin as [->|Hin].
      * rewrite Hitem in Hus. injection Hus as Hus.
        destruct (Hhead t Hus) as (a' & Ha' & Hle).
        destruct (Hacc a' Ha') as (ts & -> & Hle'). exists ts.
        split; [reflexivity|]. unfold float_gt in *.
        destruct Hle' as [->|Hle']; [exact Hle|].
        destruct (SFltb ts t) eqn:Hts; [|reflexivity].
        rewrite (SFltb_trans _ _ _ Hle' Hts) in Hle. discriminate.
      * eapply Hitems; eauto.
    + intros ts Hts. destruct (Horigin ts Hts) as [Hacc'|(it & Hin & Hus)].
      * subst acc'. destruct parsed as [t|]; [|auto].
        assert (Hhere : exists it, it ∈ item :: items
                                   /\ item_timestamp it = Return (Some t)).
        { exists item. split; [apply list_elem_of_here|exact Hitem]. }
        destruct acc as [a|].
        -- destruct (float_gt t a).
           ++ injection Hacc' as <-. right. exact Hhere.
           ++ left. exact Hacc'.
        -- injection Hacc' as <-. right. exact Hhere.
      * right. exists it. split; [apply list_elem_of_further; exact Hin|exact Hus].
Qed.

(** X15 — the freshness loop over an XML payload returns whenever reading
    the date of each item does, and when it returns, the timestamp it kept
    is the latest one among the items whose date string is not blank and
    parses: it is the timestamp of one of them and none is later; none is
    kept exactly when no item has such a date. *)
Theorem newest_pubdate_is_latest (items : list xml) :
  ((forall item, item ∈ items ->
      exists parsed, item_timestamp item = Return parsed) ->
   exists newest, newest_pubdate items None = Return newest)
  /\ (forall newest,
        newest_pubdate items None = Return newest ->
        match newest with
        | Some ts =>
            (exists item, item ∈ items /\ usable_pubdate item = Some ts)
            /\ (forall item t, item ∈ items -> usable_pubdate item = Some t ->
                               float_gt t ts = false)
        | None => forall item, item ∈ items -> usable_pubdate item = None
        end).
Proof.
  split; [apply newest_pubdate_returns|].
  intros newest E.
  destruct (newest_pubdate_acc items None newest E)
    as (_ & _ & Hitems & Horigin).
  assert (Husable : forall item t,
             usable_pubdate item = Some t ->
             item_timestamp item = Return (Some t)).
  { intros item t. unfold usable_pubdate.
    destruct (item_timestamp item); [intros ->; reflexivity|discriminate]. }
  destruct newest as [ts|].
  - split.
    + destruct (Horigin ts eq_refl) as [?|(item & Hin & Hitem)]; [discriminate|].
      exists item. split; [exact Hin|]. unfold usable_pubdate. rewrite Hitem.
      reflexivity.
    + intros item t Hin Hus.
      destruct (Hitems item t Hin (Husable _ _ Hus)) as (ts' & Hts' & Hle).
      injection Hts' as <-. exact Hle.
  - intros item Hin.
    destruct (usable_pubdate item) as [t|] eqn:Hus; [|reflexivity].
    destruct (Hitems item t Hin (Husable _ _ Hus)) as (ts & Hts & _).
    discriminate.
Qed.

End DateExtras.

Section MalformedPayloads.
Context `{PyLib}.

(** Reading the [ctime] of an article raises only [AttributeError], from
    [item.get], or [OverflowError], from [int] of an infinity. *)
Lemma article_ctime_raises (item : json) (e : exn) :
  article_ctime item = Raise e ->
  exn_type e = "AttributeError" \/ exn_type e = "OverflowError".
Proof.
  unfold article_ctime.
  destruct item as [| b | z | q | s | l | fields];
    try (cbn; intros E; injection E as <-; left; reflexivity).
  cbn [json_get outcome_bind].
  destruct (truthy _); [|discriminate].
  destruct (match assoc "ctime" fields with Some x => x | None => JStr "" end)
    as [| b | z | q | s | l | fs]; cbn [py_int]; try discriminate.
  destruct q; try discriminate.
  intros E. injection E as <-. right. reflexivity.
Qed.

Lemma newest_ctime_raises (items : list json) (acc : option Z) (e : exn) :
  newest_ctime items acc = Raise e ->
  exn_type e = "AttributeError" \/ exn_type e = "OverflowError".
Proof.
  revert acc. induction items as [|item items IH]; intros acc; [discriminate|].
  cbn [newest_ctime].
  destruct (article_ctime item) as [parsed|e'] eqn:Hitem.
  - cbn [outcome_bind]. apply IH.
  - cbn [outcome_bind]. intros E. injection E as <-.
    eapply article_ctime_raises. exact Hitem.
Qed.

Lemma article_ctime_non_object (item : json) :
  (forall fields, item <> JObj fields) ->
  article_ctime item
  = Raise (Exn "AttributeError"
             ("'" ++ py_type_name item ++ "' object has no attribute 'get'")).
Proof.
  intros Hobj. destruct item; try reflexivity. destruct (Hobj fields eq_refl).
Qed.

Lemma newest_ctime_non_object (items : list json) (item : json)
    (acc : option Z) :
  item ∈ items ->
  (forall fields, item <> JObj fields) ->
  exists e, newest_ctime items acc = Raise e.
Proof.
  intros Hin Hobj. revert acc.
  induction items as [|it items IH]; intros acc.
  - apply elem_of_nil in Hin. contradiction.
  - cbn [newest_ctime].
    destruct (article_ctime it) as [parsed|e] eqn:Hit; cbn [outcome_bind];
      [|eauto].
    apply IH. apply elem_of_cons in Hin as [->|Hin]; [|exact Hin].
    rewrite (article_ctime_non_object _ Hobj) in Hit. discriminate.
Qed.

(** The loop stops at the first article that is not an object, when the
    articles before it are read without an exception. *)
Lemma newest_ctime_first_non_object (before after : list json) (item : json)
    (acc : option Z) :
  ctimes_readable before ->
  (forall fields, item <> JObj fields) ->
  newest_ctime (before ++ item :: after) acc
  = Raise (Exn "AttributeError"
             ("'" ++ py_type_name item ++ "' object has no attribute 'get'")).
Proof.
  intros Hread Hobj. revert acc.
  induction before as [|it before IH]; intros acc.
  - cbn [app newest_ctime]. rewrite (article_ctime_non_object _ Hobj).
    reflexivity.
  - cbn [app newest_ctime].
    destruct (Hread it (list_elem_of_here _ _)) as (parsed & ->).
    cbn [outcome_bind]. apply IH. intros x Hin. apply Hread.
    apply list_elem_of_further. exact Hin.
Qed.

(** X16 — one article that is not a JSON object is enough for the check of
    a structured-api source to raise: the freshness loop calls [item.get]
    outside any handler, so neither the count nor the timestamps of the
    other articles are reported.  The exception is the [AttributeError] of
    that call when the articles before are read without one; otherwise it
    is the [AttributeError] of an earlier article that is no object, or the
    [OverflowError] of an earlier [ctime] that is an infinity. *)
Theorem non_object_article_raises
    (io : probe_io) (name url : string) (max_age_hours : num)
    (raw text : string) (data res : json) (items : list json) (item : json) :
  urlopen io url = Return raw ->
  raw <> "" ->
  decode_utf8 raw = Some text ->
  json_loads text = Some data ->
  json_get data "result" (JObj []) = Return res ->
  json_get res "data" (JArr []) = Return (JArr items) ->
  item ∈ items ->
  (forall fields, item <> JObj fields) ->
  (exists e,
      check_source io name url "json" max_age_hours = Raise e
      /\ (exn_type e = "AttributeError" \/ exn_type e = "OverflowError"))
  /\ (forall before after,
        items = (before ++ item :: after)%list ->
        ctimes_readable before ->
        check_source io name url "json" max_age_hours
        = Raise (Exn "AttributeError"
                   ("'" ++ py_type_name item
                        ++ "' object has no attribute 'get'"))).
Proof.
  intros Hfetch Hraw Hdec Hload Hres Hdata Hin Hobj.
  assert (Hne : items <> []).
  { intros ->. apply elem_of_nil in Hin. exact Hin. }
  assert (Hitems : json_articles raw items) by (exists text, data, res; auto).
  rewrite (check_source_json_items _ _ _ _ _ _ Hfetch Hraw Hitems Hne).
  split.
  - destruct (newest_ctime_non_object items item None Hin Hobj) as (e & E).
    rewrite E. exists e. split; [reflexivity|].
    eapply newest_ctime_raises. exact E.
  - intros before after -> Hread.
    rewrite (newest_ctime_first_non_object _ _ _ _ Hread Hobj). reflexivity.
Qed.

(** X17 — a ["data"] field that is not a list never yields a count: when
    it is falsy ([null], [false], zero, an empty string or object) the
    result is the empty-feed failure, and otherwise the check raises. *)
Theorem non_list_data_never_counts
    (io : probe_io) (name url : string) (max_age_hours : num)
    (raw text : string) (data res articles : json) :
  urlopen io url = Return raw ->
  raw <> "" ->
  decode_utf8 raw = Some text ->
  json_loads text = Some data ->
  json_get data "result" (JObj []) = Return res ->
  json_get res "data" (JArr []) = Return articles ->
  (forall items, articles <> JArr items) ->
  if truthy articles
  then exists e, check_source io name url "json" max_age_hours = Raise e
  else check_source io name url "json" max_age_hours
       = Return (name, failed "empty feed (0 articles)").
Proof.
  intros Hfetch Hraw Hdec Hload Hres Hdata Hlist.
  unfold check_source. rewrite Hfetch, (string_eqb_false _ _ Hraw).
  cbn [String.eqb Ascii.eqb Bool.eqb]. rewrite Hdec, Hload, Hres.
  cbn [outcome_bind]. rewrite Hdata. cbn [outcome_bind].
  destruct (truthy articles) eqn:Htruthy; cbn [negb]; [|reflexivity].
  destruct articles as [| b | z | q | s | items | fields];
    try (cbn; eexists; reflexivity).
  - cbn [py_len py_iter outcome_bind].
    assert (Hs : s <> "").
    { intros ->. discriminate. }
    pose proof (utf8_chars_nonempty s Hs) as Hchars.
    destruct (utf8_chars s) as [|ch chars]; [contradiction|].
    cbn. eexists. reflexivity.
  - destruct (Hlist items eq_refl).
  - cbn [py_len py_iter outcome_bind].
    destruct fields as [|[k v] fields]; [discriminate|].
    cbn. eexists. reflexivity.
Qed.

End MalformedPayloads.

(** ** The kinds of failed results *)

Section ProberErrors.
Context `{PyLib}.

Lemma string_eqb_true (a b : string) : String.eqb a b = true -> a = b.
Proof. apply String.eqb_eq. Qed.

Lemma check_freshness_failed (name n : string) count now_ts newest
    max_age_hours res :
  @Return (string * result)
    (name, check_freshness count now_ts newest max_age_hours)
    = Return (n, res) ->
  ok res = false ->
  exists ts,
    newest = Some ts
    /\ float_gt_num (age_hours now_ts ts) max_age_hours = true
    /\ error res = Some (stale_message (age_hours now_ts ts) max_age_hours)
    /\ newest_age_hours res = Some (round_1 (age_hours now_ts ts))
    /\ article_count res = count.
Proof.
  intros E.
  assert (Hres : res = check_freshness count now_ts newest max_age_hours)
    by congruence.
  subst res. clear E. unfold check_freshness.
  destruct newest as [ts|]; [|discriminate]. cbv zeta.
  destruct (float_gt_num (age_hours now_ts ts) max_age_hours) eqn:Hgt;
    [|discriminate].
  intros _. exists ts. cbn. auto.
Qed.

(** X18 — a result that is not ok is one of two kinds.  Either the check
    stopped before counting: no article, no age, and the error is the
    unreachable message with the type of the request's exception, or one of
    "empty response", "JSON parse error", "XML parse error" and "empty feed
    (0 articles)".  Or the feed is stale: the payload parsed into articles,
    their number is reported and is at least one, the newest timestamp
    among them (the greatest [ctime], or the date of an item than which
    none is later) lies more than the threshold before the reading of the
    clock, the error is the stale message for that age and the age,
    rounded, is reported. *)
Theorem failed_result_kinds
    (io : probe_io) (name url source_type : string) (max_age_hours : num)
    (n : string) (res : result) :
  check_source io name url source_type max_age_hours = Return (n, res) ->
  ok res = false ->
  (article_count res = 0%nat
   /\ newest_age_hours res = None
   /\ ((exists e, urlopen io url = Raise e
                  /\ error res = Some ("unreachable: " ++ exn_type e))
       \/ error res = Some "empty response"
       \/ error res = Some "JSON parse error"
       \/ error res = Some "XML parse error"
       \/ error res = Some "empty feed (0 articles)"))
  \/ (exists (raw : string) (ts : float),
        urlopen io url = Return raw
        /\ float_gt_num (age_hours (time_time io) ts) max_age_hours = true
        /\ error res
           = Some (stale_message (age_hours (time_time io) ts) max_age_hours)
        /\ newest_age_hours res
           = Some (round_1 (age_hours (time_time io) ts))
        /\ (0 < article_count res)%nat
        /\ ((source_type = "json"
             /\ exists items newest,
                  json_articles raw items
                  /\ article_count res = length items
                  /\ greatest_ctime items newest
                  /\ float_of_int newest = Return ts)
            \/ (source_type <> "json"
                /\ exists items,
                     feed_items raw items
                     /\ article_count res = length items
                     /\ (exists item,
                           item ∈ items
                           /\ item_timestamp item = Return (Some ts))
                     /\ (forall item t,
                           item ∈ items ->
                           item_timestamp item = Return (Some t) ->
                           float_gt t ts = false)))).
Proof.
  intros E Hok.
  unfold check_source in E.
  destruct (urlopen io url) as [raw|e] eqn:Hfetch.
  2:{ injection E as _ <-. left. cbn. split; [reflexivity|].
      split; [reflexivity|]. left. exists e. auto. }
  destruct (String.eqb raw "").
  { injection E as _ <-. left. cbn. auto. }
  destruct (String.eqb source_type "json") eqn:Hty.
  - apply string_eqb_true in Hty.
    destruct (decode_utf8 raw) as [text|] eqn:Hdec.
    2:{ injection E as _ <-. left. cbn. auto 6. }
    destruct (json_loads text) as [data|] eqn:Hload.
    2:{ injection E as _ <-. left. cbn. auto 6. }
    destruct (json_get data "result" (JObj [])) as [r|e] eqn:Hres;
      [|discriminate].
    cbn [outcome_bind] in E.
    destruct (json_get r "data" (JArr [])) as [articles|e] eqn:Hdata;
      [|discriminate].
    cbn [outcome_bind] in E.
    destruct (truthy articles) eqn:Htruthy; cbn [negb] in E.
    2:{ injection E as _ <-. left. cbn. auto 8. }
    destruct articles as [|b|z|q|s|items|fields]; try discriminate.
    + cbn [py_len py_iter outcome_bind] in E.
      pose proof (utf8_chars_nonempty s) as Hs.
      destruct (utf8_chars s) as [|ch chars]; [|discriminate].
      cbn in Htruthy. destruct (String.eqb_spec s ""); [discriminate|].
      destruct (Hs n0 eq_refl).
    + cbn [py_len py_iter outcome_bind] in E.
      destruct (newest_ctime items None) as [newest|e] eqn:Hloop;
        [|discriminate].
      cbn [outcome_bind] in E.
      assert (Hpos : (0 < length items)%nat)
        by (destruct items; [discriminate|cbn; lia]).
      assert (Hitems : json_articles raw items)
        by (exists text, data, r; auto).
      destruct (newest_ctime_acc items None newest Hloop)
        as (Hread & _ & Hle & Horigin).
      destruct newest as [z|]; cbn [outcome_bind] in E.
      2:{ destruct (check_freshness_failed _ _ _ _ _ _ _ E Hok) as (? & ? & _).
          discriminate. }
      destruct (float_of_int z) as [ts|e] eqn:Hfloat; [|discriminate].
      cbn [outcome_bind] in E.
      destruct (check_freshness_failed _ _ _ _ _ _ _ E Hok)
        as (ts' & Hts & Hgt & Herr & Hage & Hcount).
      injection Hts as <-. right. exists raw, ts.
      split; [reflexivity|]. split; [exact Hgt|]. split; [exact Herr|].
      split; [exact Hage|]. split; [rewrite Hcount; exact Hpos|].
      left. split; [exact Hty|]. exists items, z.
      split; [exact Hitems|]. split; [exact Hcount|]. split; [|exact Hfloat].
      split.
      * destruct (Horigin z eq_refl) as [?|?]; [discriminate|assumption].
      * intros item t Hin Hitem.
        destruct (Hle item t Hin Hitem) as (z' & Hz' & Hlez).
        injection Hz' as <-. exact Hlez.
    + cbn [py_len py_iter outcome_bind] in E.
      destruct fields as [|[k v] fields]; discriminate.
  - assert (Hty' : source_type <> "json").
    { intros ->. discriminate. }
    destruct (ET_fromstring _) as [root|e] eqn:Hroot.
    2:{ destruct (is_parse_error e); [|discriminate].
        injection E as _ <-. left. cbn. auto 8. }
    cbv zeta in E.
    set (items := match findall_descendants "item" root with
                  | [] => findall_descendants (atom_ns ++ "entry") root
                  | found => found
                  end) in *.
    assert (Hitems : feed_items raw items) by (exists root; auto).
    clearbody items.
    destruct items as [|item items].
    { injection E as _ <-. left. cbn. auto 8. }
    destruct (newest_pubdate (item :: items) None) as [newest|e] eqn:Hloop;
      [|discriminate].
    cbn [outcome_bind] in E.
    destruct (check_freshness_failed _ _ _ _ _ _ _ E Hok)
      as (ts & -> & Hgt & Herr & Hage & Hcount).
    destruct (newest_pubdate_acc _ _ _ Hloop) as (_ & _ & Hle & Horigin).
    right. exists raw, ts.
    split; [reflexivity|]. split; [exact Hgt|]. split; [exact Herr|].
    split; [exact Hage|]. split; [rewrite Hcount; cbn; lia|].
    right. split; [exact Hty'|]. exists (item :: items).
    split; [exact Hitems|]. split; [exact Hcount|]. split.
    + destruct (Horigin ts eq_refl) as [?|?]; [discriminate|assumption].
    + intros it t Hin Hit.
      destruct (Hle it t Hin Hit) as (ts' & Hts' & Hlets).
      injection Hts' as <-. exact Hlets.
Qed.

End ProberErrors.

(** ** The env file *)

(** Every character of a string but the first begins with a byte that
    begins a character. *)
Lemma utf8_chars_rest_start (s : string) :
  match utf8_chars s with
  | [] => True
  | _ :: rest => Forall (fun ch => starts_character ch = true) rest
  end.
Proof.
  destruct s as [|c s]; [exact I|]. revert c.
  induction s as [|c' s IH]; intros c; rewrite utf8_chars_cons.
  - constructor.
  - specialize (IH c').
    destruct (utf8_chars_head c' s) as (tail & rest & E). rewrite E in IH |- *.
    destruct (is_continuation c') eqn:Hc'; [exact IH|].
    constructor; [|exact IH]. cbn. rewrite Hc'. reflexivity.
Qed.

Lemma join_empty (chars : list string) :
  Forall (fun ch => ch <> "") chars -> join chars = "" -> chars = [].
Proof.
  intros Hne. destruct chars as [|ch chars]; [reflexivity|].
  inversion Hne; subst. rewrite join_cons.
  destruct ch; [contradiction|discriminate].
Qed.

Lemma append_cancel_l (a b c : string) : a ++ b = a ++ c -> b = c.
Proof.
  induction a as [|x a IH]; [rewrite !append_empty_l; auto|].
  rewrite !append_cons. intros E. injection E as E. auto.
Qed.

(** The characters of a string split where the string does. *)
Lemma utf8_chars_split (s : string) (a b : list string) :
  utf8_chars s = (a ++ b)%list ->
  utf8_chars (join a) = a /\ utf8_chars (join b) = b.
Proof.
  intros E.
  assert (Hs : s = join a ++ join b)
    by (rewrite <- join_app, <- E, join_utf8_chars; reflexivity).
  destruct a as [|x a].
  { cbn [app] in E. rewrite <- E, join_utf8_chars. auto. }
  destruct b as [|y b].
  { rewrite app_nil_r in E. rewrite <- E, join_utf8_chars. auto. }
  assert (Hy : starts_character (join (y :: b)) = true).
  { pose proof (utf8_chars_rest_start s) as Hrest. rewrite E in Hrest.
    cbn [app] in Hrest. apply Forall_app in Hrest as [_ Hrest].
    apply Forall_cons in Hrest as [Hstart _]. rewrite join_cons.
    pose proof (utf8_chars_not_empty s) as Hne. rewrite E in Hne.
    apply Forall_app in Hne as [_ Hne].
    apply Forall_cons in Hne as [Hne _].
    destruct y; [contradiction|exact Hstart]. }
  pose proof (utf8_chars_app (join (x :: a)) (join (y :: b)) Hy) as Happ.
  rewrite <- Hs, E in Happ.
  pose proof (utf8_chars_not_empty s) as Hne. rewrite E in Hne.
  apply Forall_app in Hne as [Hna Hnb].
  pose proof (utf8_chars_not_empty (join (x :: a))) as Hna'.
  pose proof (utf8_chars_not_empty (join (y :: b))) as Hnb'.
  pose proof (join_utf8_chars (join (x :: a))) as Ja.
  pose proof (join_utf8_chars (join (y :: b))) as Jb.
  revert Happ Hna' Hnb' Ja Jb.
  generalize (utf8_chars (join (x :: a))) as a'.
  generalize (utf8_chars (join (y :: b))) as b'.
  intros b' a' Happ Hna' Hnb' Ja Jb.
  apply app_eq_app in Happ as (l & [[E1 E2]|[E1 E2]]).
  - rewrite E1, join_app in Ja. symmetry in Ja.
    apply append_same_length in Ja.
    rewrite E1 in Hna. apply Forall_app in Hna as [_ Hl].
    apply (join_empty _ Hl) in Ja. subst l.
    rewrite app_nil_r in E1. cbn [app] in E2. auto.
  - rewrite E1, join_app in Ja. apply append_same_length in Ja.
    rewrite E1 in Hna'. apply Forall_app in Hna' as [_ Hl].
    apply (join_empty _ Hl) in Ja. subst l.
    rewrite app_nil_r in E1. cbn [app] in E2. auto.
Qed.

Lemma lstrip_chars_split (chars : list string) :
  exists dropped, chars = (dropped ++ lstrip_chars chars)%list.
Proof.
  induction chars as [|ch chars (dropped & IH)]; [exists []; reflexivity|].
  cbn [lstrip_chars]. destruct (is_space ch).
  - exists (ch :: dropped). cbn [app]. rewrite <- IH. reflexivity.
  - exists []. reflexivity.
Qed.

(** The characters of a stripped string are the stripped characters. *)
Lemma utf8_chars_rstrip (s : string) :
  utf8_chars (rstrip s) = rstrip_chars (utf8_chars s).
Proof.
  destruct (rstrip_chars_split (utf8_chars s)) as (dropped & E & _).
  apply (utf8_chars_split s _ _ E).
Qed.

Lemma utf8_chars_str_strip (s : string) :
  utf8_chars (str_strip s) = rstrip_chars (lstrip_chars (utf8_chars s)).
Proof.
  destruct (lstrip_chars_split (utf8_chars s)) as (dropped & E).
  destruct (utf8_chars_split s _ _ E) as (_ & Hl).
  destruct (rstrip_chars_split (lstrip_chars (utf8_chars s)))
    as (dropped' & E' & _).
  rewrite <- Hl in E' at 1.
  apply (utf8_chars_split _ _ _ E').
Qed.

Lemma lstrip_chars_head (chars : list string) :
  match lstrip_chars chars with
  | ch :: _ => is_space ch = false
  | [] => True
  end.
Proof.
  induction chars as [|ch chars IH]; cbn [lstrip_chars]; [exact I|].
  destruct (is_space ch) eqn:Hch; [exact IH|exact Hch].
Qed.

Lemma rstrip_chars_head (ch : string) (chars : list string) :
  is_space ch = false -> exists kept, rstrip_chars (ch :: chars) = ch :: kept.
Proof.
  intros Hch. cbn [rstrip_chars]. destruct (rstrip_chars chars) as [|ch' kept].
  - rewrite Hch. eauto.
  - eauto.
Qed.

Lemma lstrip_chars_fix (ch : string) (chars : list string) :
  is_space ch = false -> lstrip_chars (ch :: chars) = ch :: chars.
Proof. intros Hch. cbn [lstrip_chars]. rewrite Hch. reflexivity. Qed.

Lemma rstrip_chars_idem (chars : list string) :
  rstrip_chars (rstrip_chars chars) = rstrip_chars chars.
Proof.
  induction chars as [|ch chars IH]; [reflexivity|].
  cbn [rstrip_chars]. destruct (rstrip_chars chars) as [|ch' kept] eqn:Er.
  - destruct (is_space ch) eqn:Hch; [reflexivity|].
    cbn [rstrip_chars]. rewrite Hch. reflexivity.
  - cbn [rstrip_chars]. cbn [rstrip_chars] in IH. rewrite IH. reflexivity.
Qed.

(** What [strip] returns is empty or begins with a character that is not
    whitespace, and stripping it again changes nothing. *)
Lemma strip_chars_head (chars : list string) :
  match rstrip_chars (lstrip_chars chars) with
  | ch :: _ => is_space ch = false
  | [] => True
  end.
Proof.
  pose proof (lstrip_chars_head chars) as Hl.
  destruct (lstrip_chars chars) as [|ch rest]; [exact I|].
  destruct (rstrip_chars_head ch rest Hl) as (kept & ->). exact Hl.
Qed.

Lemma strip_chars_idem (chars : list string) :
  rstrip_chars (lstrip_chars (rstrip_chars (lstrip_chars chars)))
    = rstrip_chars (lstrip_chars chars).
Proof.
  pose proof (strip_chars_head chars) as Hh.
  destruct (rstrip_chars (lstrip_chars chars)) as [|ch kept] eqn:E;
    [reflexivity|].
  rewrite (lstrip_chars_fix ch kept Hh), <- E. apply rstrip_chars_idem.
Qed.

Lemma str_strip_idem (s : string) : str_strip (str_strip s) = str_strip s.
Proof.
  unfold str_strip at 1. rewrite utf8_chars_str_strip, strip_chars_idem.
  reflexivity.
Qed.

Lemma str_contains_eq_cons (c : ascii) (s : string) :
  str_contains "=" (String c s) = Ascii.eqb "=" c || str_contains "=" s.
Proof.
  cbn [str_contains strip_prefix]. destruct (Ascii.eqb "=" c); reflexivity.
Qed.

Lemma str_contains_eq_app (a b : string) :
  str_contains "=" (a ++ b) = str_contains "=" a || str_contains "=" b.
Proof.
  induction a as [|c a IH]; [rewrite append_empty_l; reflexivity|].
  rewrite append_cons, !str_contains_eq_cons, IH, orb_assoc. reflexivity.
Qed.

Lemma str_contains_eq_join (chars : list string) :
  str_contains "=" (join chars) = existsb (str_contains "=") chars.
Proof.
  induction chars as [|ch chars IH]; [reflexivity|].
  rewrite join_cons, str_contains_eq_app, IH. reflexivity.
Qed.

Lemma lstrip_chars_none (P : string -> bool) (chars : list string) :
  existsb P chars = false -> existsb P (lstrip_chars chars) = false.
Proof.
  destruct (lstrip_chars_split chars) as (dropped & E).
  rewrite E at 1. rewrite existsb_app. intros Hno.
  apply orb_false_iff in Hno as [_ Hno]. exact Hno.
Qed.

Lemma rstrip_chars_none (P : string -> bool) (chars : list string) :
  existsb P chars = false -> existsb P (rstrip_chars chars) = false.
Proof.
  destruct (rstrip_chars_split chars) as (dropped & E & _).
  rewrite E at 1. rewrite existsb_app. intros Hno.
  apply orb_false_iff in Hno as [Hno _]. exact Hno.
Qed.

Lemma str_strip_no_eq (s : string) :
  str_contains "=" s = false -> str_contains "=" (str_strip s) = false.
Proof.
  intros Hs. rewrite <- (join_utf8_chars s), str_contains_eq_join in Hs.
  unfold str_strip. rewrite str_contains_eq_join.
  apply rstrip_chars_none, lstrip_chars_none, Hs.
Qed.

Lemma split_eq_key (line k v : string) :
  split_eq line = Some (k, v) ->
  line = k ++ "=" ++ v /\ str_contains "=" k = false.
Proof.
  revert k. induction line as [|c line IH]; intros k; cbn [split_eq];
    [discriminate|].
  destruct (Ascii.eqb_spec c "=") as [->|Hne].
  - intros E. injection E as <- <-. split; reflexivity.
  - destruct (split_eq line) as [[k' v']|]; [|discriminate].
    intros E. injection E as <- <-.
    destruct (IH k' eq_refl) as (-> & Hk). split; [reflexivity|].
    rewrite str_contains_eq_cons, Hk.
    destruct (Ascii.eqb_spec "=" c); [congruence|reflexivity].
Qed.

(** The key of a stripped line that does not begin with ["#"] does not
    either, stripped. *)
Lemma str_strip_key_no_hash (line k v : string) :
  str_strip line = k ++ "=" ++ v ->
  strip_prefix "#" (str_strip line) = None ->
  strip_prefix "#" (str_strip k) = None.
Proof.
  intros Hline Hhash. destruct k as [|c k]; [reflexivity|].
  pose proof (strip_chars_head (utf8_chars line)) as Hhead.
  rewrite <- utf8_chars_str_strip, Hline in Hhead.
  rewrite utf8_chars_app in Hhead by reflexivity.
  rewrite Hline, append_cons in Hhash.
  destruct (utf8_chars_head c k) as (tail & rest & E).
  rewrite E in Hhead. cbn [app] in Hhead.
  unfold str_strip. rewrite E, (lstrip_chars_fix _ _ Hhead).
  destruct (rstrip_chars_head _ rest Hhead) as (kept & ->).
  rewrite join_cons, append_cons. cbn [strip_prefix] in *.
  destruct (Ascii.eqb "#" c); [discriminate|reflexivity].
Qed.

Lemma lstrip_char_head (q : ascii) (s : string) :
  match lstrip_char q s with
  | String c _ => c <> q
  | EmptyString => True
  end.
Proof.
  induction s as [|c s IH]; cbn [lstrip_char]; [exact I|].
  destruct (Ascii.eqb_spec c q); [exact IH|assumption].
Qed.

Lemma rstrip_char_idem (q : ascii) (s : string) :
  rstrip_char q (rstrip_char q s) = rstrip_char q s.
Proof.
  induction s as [|c s IH]; [reflexivity|].
  cbn [rstrip_char]. destruct (rstrip_char q s) as [|c' r] eqn:Er.
  - destruct (Ascii.eqb c q) eqn:Hc; [reflexivity|].
    cbn [rstrip_char]. rewrite Hc. reflexivity.
  - cbn [rstrip_char]. cbn [rstrip_char] in IH. rewrite IH. reflexivity.
Qed.

Lemma rstrip_char_head (q c : ascii) (s : string) :
  c <> q -> exists r, rstrip_char q (String c s) = String c r.
Proof.
  intros Hc. cbn [rstrip_char]. destruct (rstrip_char q s) as [|c' r].
  - destruct (Ascii.eqb_spec c q); [contradiction|eauto].
  - eauto.
Qed.

Lemma strip_char_idem (q : ascii) (s : string) :
  strip_char q (strip_char q s) = strip_char q s.
Proof.
  unfold strip_char. pose proof (lstrip_char_head q s) as Hl.
  destruct (lstrip_char q s) as [|c r]; [reflexivity|].
  destruct (rstrip_char_head q c r Hl) as (r' & E). rewrite E.
  cbn [lstrip_char]. destruct (Ascii.eqb_spec c q); [contradiction|].
  rewrite <- E. apply rstrip_char_idem.
Qed.

Lemma dict_set_elem {V} (k : string) (v : V) (dct : list (string * V))
    (item : string * V) :
  item ∈ dict_set k v dct -> item = (k, v) \/ item ∈ dct.
Proof.
  induction dct as [|[k' v'] dct IH]; cbn [dict_set]; intros Hin.
  - apply list_elem_of_singleton in Hin. auto.
  - destruct (String.eqb k k').
    + apply elem_of_cons in Hin as [->|Hin]; [auto|].
      right. apply list_elem_of_further. exact Hin.
    + apply elem_of_cons in Hin as [->|Hin].
      * right. apply list_elem_of_here.
      * destruct (IH Hin) as [->|Hin']; [auto|].
        right. apply list_elem_of_further. exact Hin'.
Qed.

(** X19 — every entry that [load_env] returns is clean: its key carries no
    whitespace at either end, contains no ["="] and does not begin with
    ["#"], and its value neither begins nor ends with a single quote. *)
Theorem load_env_entries_clean
    (file : option (list string)) (k v : string) :
  (k, v) ∈ load_env file ->
  str_strip k = k
  /\ str_contains "=" k = false
  /\ strip_prefix "#" k = None
  /\ strip_char "'" v = v.
Proof.
  destruct file as [lines|]; cbn [load_env].
  2:{ intros Hin. apply elem_of_nil in Hin. contradiction. }
  assert (Hfold : forall env,
             (forall item, item ∈ env ->
                str_strip item.1 = item.1
                /\ str_contains "=" item.1 = false
                /\ strip_prefix "#" item.1 = None
                /\ strip_char "'" item.2 = item.2) ->
             forall item, item ∈ fold_left env_line lines env ->
                str_strip item.1 = item.1
                /\ str_contains "=" item.1 = false
                /\ strip_prefix "#" item.1 = None
                /\ strip_char "'" item.2 = item.2).
  { induction lines as [|line lines IH]; intros env Henv; [exact Henv|].
    cbn [fold_left]. apply IH. unfold env_line.
    destruct (String.eqb_spec (str_strip line) "") as [|Hne]; [exact Henv|].
    cbn [orb].
    destruct (strip_prefix "#" (str_strip line)) as [rest|] eqn:Hhash;
      [exact Henv|].
    destruct (split_eq (str_strip line)) as [[k0 v0]|] eqn:Hsplit;
      [|exact Henv].
    intros item Hitem. apply dict_set_elem in Hitem as [->|Hitem]; [|auto].
    cbn [fst snd]. destruct (split_eq_key _ _ _ Hsplit) as (Hline & Hk0).
    split; [apply str_strip_idem|].
    split; [apply str_strip_no_eq, Hk0|].
    split; [|apply strip_char_idem].
    eapply str_strip_key_no_hash; [exact Hline|exact Hhash]. }
  intros Hin. refine (Hfold [] _ (k, v) Hin).
  intros item Hitem. apply elem_of_nil in Hitem. contradiction.
Qed.

Lemma lstrip_rstrip_chars (chars : list string) :
  lstrip_chars (rstrip_chars chars) = rstrip_chars (lstrip_chars chars).
Proof.
  induction chars as [|ch chars IH]; [reflexivity|].
  cbn [lstrip_chars]. destruct (is_space ch) eqn:Hch.
  - rewrite <- IH. cbn [rstrip_chars].
    destruct (rstrip_chars chars) as [|ch' kept].
    + rewrite Hch. reflexivity.
    + cbn [lstrip_chars]. rewrite Hch. reflexivity.
  - destruct (rstrip_chars_head ch chars Hch) as (kept & ->).
    apply lstrip_chars_fix. exact Hch.
Qed.

Lemma str_strip_rstrip (s : string) : str_strip (rstrip s) = str_strip s.
Proof.
  unfold str_strip. rewrite utf8_chars_rstrip, lstrip_rstrip_chars.
  rewrite rstrip_chars_idem. reflexivity.
Qed.

Lemma rstrip_chars_app_kept (chars rest : list string) :
  rstrip_chars rest <> [] ->
  rstrip_chars (chars ++ rest) = (chars ++ rstrip_chars rest)%list.
Proof.
  intros Hrest. induction chars as [|ch chars IH]; [reflexivity|].
  cbn [app rstrip_chars]. rewrite IH.
  destruct (chars ++ rstrip_chars rest)%list as [|ch' kept] eqn:E;
    [|reflexivity].
  apply app_eq_nil in E as [_ E]. contradiction.
Qed.

(** In a character, ["="] can only be the first byte. *)
Lemma utf8_chars_eq_lead (s : string) :
  Forall (fun ch => str_contains "=" ch = true -> exists tail, ch = String "=" tail)
    (utf8_chars s).
Proof.
  destruct s as [|c s]; [constructor|]. revert c.
  induction s as [|c' s IH]; intros c; rewrite utf8_chars_cons.
  - constructor; [|constructor]. rewrite str_contains_eq_cons.
    destruct (Ascii.eqb_spec "=" c) as [<-|]; [eauto|discriminate].
  - specialize (IH c').
    destruct (utf8_chars_head c' s) as (tail & rest & E). rewrite E in IH |- *.
    apply Forall_cons in IH as [Hhead Hrest].
    destruct (is_continuation c') eqn:Hc'.
    + constructor; [|exact Hrest]. rewrite str_contains_eq_cons.
      destruct (Ascii.eqb_spec "=" c) as [<-|]; [eauto|]. cbn [orb].
      intros Hin. destruct (Hhead Hin) as (tail' & Etail).
      injection Etail as -> _. discriminate.
    + constructor; [|constructor; assumption]. rewrite str_contains_eq_cons.
      destruct (Ascii.eqb_spec "=" c) as [<-|]; [eauto|discriminate].
Qed.

Lemma is_space_eq_lead (tail : string) : is_space (String "=" tail) = false.
Proof. destruct tail as [|b [|c [|d [|e tail]]]]; reflexivity. Qed.

(** Whitespace holds no ["="]. *)
Lemma all_space_no_eq (s : string) :
  all_space s = true -> str_contains "=" s = false.
Proof.
  unfold all_space. intros Hs.
  rewrite <- (join_utf8_chars s), str_contains_eq_join.
  pose proof (utf8_chars_eq_lead s) as Hlead.
  induction (utf8_chars s) as [|ch chars IH]; [reflexivity|].
  cbn [forallb existsb] in *. apply andb_true_iff in Hs as [Hch Hs].
  apply Forall_cons in Hlead as [Hhead Hrest].
  rewrite (IH Hs Hrest), orb_false_r.
  destruct (str_contains "=" ch) eqn:Hin; [|reflexivity].
  destruct (Hhead eq_refl) as (tail & ->).
  rewrite is_space_eq_lead in Hch. discriminate.
Qed.

Lemma split_eq_first (k v : string) :
  str_contains "=" k = false -> split_eq (k ++ String "=" v) = Some (k, v).
Proof.
  induction k as [|c k IH]; [reflexivity|].
  rewrite str_contains_eq_cons, append_cons. intros Hk.
  apply orb_false_iff in Hk as [Hc Hk]. cbn [split_eq].
  destruct (Ascii.eqb_spec c "=") as [->|_]; [discriminate|].
  rewrite (IH Hk). reflexivity.
Qed.

(** A stripped string that is not empty begins with a character that is
    not whitespace. *)
Lemma stripped_head (s : string) :
  s <> "" -> str_strip s = s ->
  exists ch rest, utf8_chars s = ch :: rest /\ is_space ch = false.
Proof.
  intros Hne Hs. pose proof (strip_chars_head (utf8_chars s)) as Hhead.
  rewrite <- utf8_chars_str_strip, Hs in Hhead.
  destruct (utf8_chars s) as [|ch rest] eqn:E.
  - destruct s as [|c s]; [contradiction|].
    destruct (utf8_chars_head c s) as (tail & rest & E'). congruence.
  - eauto.
Qed.

(** A line [key = tail] with a clean key, whitespace allowed around the key,
    sets the key to the cleaned tail. *)
Lemma env_line_assignment (env : list (string * string))
    (pad key sp tail : string) :
  all_space pad = true ->
  all_space sp = true ->
  key <> "" ->
  starts_character key = true ->
  str_strip key = key ->
  str_contains "=" key = false ->
  strip_prefix "#" key = None ->
  starts_character tail = true ->
  env_line env (pad ++ key ++ sp ++ String "=" tail)
    = dict_set key
        (strip_char "'" (strip_char double_quote (str_strip tail))) env.
Proof.
  intros Hpad Hsp Hne Hstart Hkey Hnoeq Hhash Htail.
  destruct (stripped_head key Hne Hkey) as (kh & krest & Ek & Hkh).
  assert (Hline : str_strip (pad ++ key ++ sp ++ String "=" tail)
                  = key ++ sp ++ String "=" (rstrip tail)).
  { unfold str_strip, rstrip.
    assert (Heq : starts_character (String "=" tail) = true) by reflexivity.
    assert (Hrest : starts_character (sp ++ String "=" tail) = true)
      by (apply starts_character_app; [apply all_space_starts|]; assumption).
    rewrite utf8_chars_app
      by (apply starts_character_app; assumption).
    rewrite utf8_chars_app by exact Hrest.
    rewrite utf8_chars_app by exact Heq.
    change (String "=" tail) with ("=" ++ tail).
    rewrite (utf8_chars_app "=" tail Htail).
    change (utf8_chars "=") with ["="].
    rewrite (lstrip_chars_all_space _ _ Hpad), Ek.
    cbn [app]. rewrite (lstrip_chars_fix _ _ Hkh).
    change (kh :: (krest ++ utf8_chars sp ++ "=" :: utf8_chars tail)%list)
      with ((kh :: krest) ++ utf8_chars sp ++ "=" :: utf8_chars tail)%list.
    rewrite <- Ek, app_assoc.
    destruct (rstrip_chars_head "=" (utf8_chars tail) eq_refl) as (kept & Ekept).
    rewrite rstrip_chars_app_kept by (rewrite Ekept; discriminate).
    assert (Erest : rstrip_chars ("=" :: utf8_chars tail)
                    = "=" :: rstrip_chars (utf8_chars tail)).
    { cbn [rstrip_chars]. destruct (rstrip_chars (utf8_chars tail)); reflexivity. }
    rewrite Erest, <- app_assoc, !join_app, !join_utf8_chars, join_cons.
    reflexivity. }
  unfold env_line. rewrite Hline.
  destruct key as [|c key]; [contradiction|].
  rewrite append_cons.
  cbn [String.eqb orb]. rewrite <- append_cons.
  assert (Hnohash : strip_prefix "#" (String c key ++ sp ++ String "=" (rstrip tail))
                    = None).
  { rewrite append_cons. cbn [strip_prefix] in *.
    destruct (Ascii.eqb "#" c); [discriminate|reflexivity]. }
  rewrite Hnohash. rewrite <- append_assoc, split_eq_first.
  - rewrite str_strip_rstrip.
    replace (str_strip (String c key ++ sp)) with (String c key);
      [reflexivity|].
    rewrite <- Hkey at 1. symmetry.
    apply (str_strip_padded "" (String c key) sp eq_refl Hsp Hstart).
  - rewrite str_contains_eq_app, Hnoeq, (all_space_no_eq _ Hsp). reflexivity.
Qed.

Lemma strip_char_fix (q : ascii) (v : string) :
  strip_char q v = v -> lstrip_char q v = v /\ rstrip_char q v = v.
Proof.
  unfold strip_char. intros Hv. pose proof (lstrip_char_head q v) as Hl.
  destruct (lstrip_char q v) as [|c r] eqn:El.
  - cbn in Hv. subst v. split; reflexivity.
  - destruct (rstrip_char_head q c r Hl) as (r' & E). rewrite E in Hv.
    subst v. cbn [lstrip_char] in El.
    destruct (Ascii.eqb_spec c q); [contradiction|].
    injection El as El. subst r'. split; [|exact E].
    cbn [lstrip_char]. destruct (Ascii.eqb_spec c q); [contradiction|reflexivity].
Qed.

Lemma rstrip_char_app (q : ascii) (s : string) :
  rstrip_char q (s ++ String q "") = rstrip_char q s.
Proof.
  induction s as [|c s IH].
  - rewrite append_empty_l. cbn [rstrip_char]. rewrite Ascii.eqb_refl.
    reflexivity.
  - rewrite append_cons. cbn [rstrip_char]. rewrite IH. reflexivity.
Qed.

Lemma strip_char_quoted (q : ascii) (v : string) :
  strip_char q v = v -> strip_char q (String q (v ++ String q "")) = v.
Proof.
  intros Hv. destruct (strip_char_fix q v Hv) as (Hl & Hr).
  unfold strip_char. cbn [lstrip_char]. rewrite Ascii.eqb_refl.
  destruct v as [|c r].
  - rewrite append_empty_l. cbn [lstrip_char]. rewrite Ascii.eqb_refl.
    reflexivity.
  - rewrite append_cons. cbn [lstrip_char] in *.
    destruct (Ascii.eqb c q) eqn:Hc.
    + pose proof (lstrip_char_head q r) as Hh. rewrite Hl in Hh.
      apply Ascii.eqb_eq in Hc. contradiction.
    + rewrite <- append_cons, rstrip_char_app. exact Hr.
Qed.

(** A string between two quotes has no whitespace at its ends. *)
Lemma str_strip_quoted (q : ascii) (v : string) :
  is_space (String q "") = false ->
  starts_character (String q "") = true ->
  starts_character v = true ->
  str_strip (String q (v ++ String q "")) = String q (v ++ String q "").
Proof.
  intros Hq Hstart Hv. unfold str_strip.
  change (String q (v ++ String q "")) with (String q "" ++ v ++ String q "").
  rewrite utf8_chars_app by (apply starts_character_app; assumption).
  rewrite utf8_chars_app by exact Hstart.
  change (utf8_chars (String q "")) with [String q ""].
  cbn [app]. rewrite (lstrip_chars_fix _ _ Hq).
  change (String q "" :: (utf8_chars v ++ [String q ""])%list)
    with ((String q "" :: utf8_chars v) ++ [String q ""])%list.
  rewrite rstrip_chars_app_kept
    by (cbn [rstrip_chars]; rewrite Hq; discriminate).
  cbn [rstrip_chars]. rewrite Hq.
  cbn [app]. rewrite join_cons, join_app, join_utf8_chars. reflexivity.
Qed.

(** X20 — a last line [KEY = "value"] of an env file, with any whitespace
    around the key, after the sign and at the end of the line, binds the key
    to exactly what stands between the quotes, inner whitespace included;
    the same line without the quotes binds it to the value when the value
    has no whitespace at its ends.  Whitespace is what [str.isspace] says.
    The key is any non-empty string without surrounding whitespace, without
    ["="] and not beginning with ["#"]; the value neither begins nor ends
    with a quote character. *)
Theorem load_env_reads_assignment
    (before : list string) (pad key sp1 sp2 value pad' : string) :
  all_space pad = true ->
  all_space sp1 = true ->
  all_space sp2 = true ->
  all_space pad' = true ->
  key <> "" ->
  starts_character key = true ->
  starts_character value = true ->
  str_strip key = key ->
  str_contains "=" key = false ->
  strip_prefix "#" key = None ->
  strip_char double_quote value = value ->
  strip_char "'" value = value ->
  dict_get key
    (load_env
       (Some (before
              ++ [(pad ++ key ++ sp1
                   ++ String "="
                        (sp2 ++ String double_quote
                                  (value ++ String double_quote "") ++ pad'))%string
                 ])%list))
    = Some value
  /\ (str_strip value = value ->
      dict_get key
        (load_env
           (Some (before
                  ++ [(pad ++ key ++ sp1
                       ++ String "=" (sp2 ++ value ++ pad'))%string])%list))
      = Some value).
Proof.
  intros Hpad Hsp1 Hsp2 Hpad' Hne Hstart Hvalue Hkey Hnoeq Hhash Hdq Hsq.
  pose proof (all_space_starts _ Hsp2) as Hs2.
  pose proof (all_space_starts _ Hpad') as Hp'.
  cbn [load_env]. rewrite !fold_left_app. cbn [fold_left].
  rewrite !env_line_assignment; try assumption.
  2:{ repeat apply starts_character_app; assumption. }
  2:{ apply starts_character_app; [assumption|]. reflexivity. }
  rewrite !dict_get_set_eq.
  rewrite (str_strip_padded _ _ _ Hsp2 Hpad' Hvalue).
  rewrite (str_strip_padded sp2
             (String double_quote (value ++ String double_quote "")) pad'
             Hsp2 Hpad' eq_refl).
  split.
  - rewrite str_strip_quoted by (reflexivity || assumption).
    rewrite (strip_char_quoted _ _ Hdq), Hsq. reflexivity.
  - intros Hv. rewrite Hv, Hdq, Hsq. reflexivity.
Qed.

(** ** The further properties on concrete inputs *)

(** A fresh Sina payload with one article: the result is ok and counts
    it. *)
Lemma check_source_result_shape_witness :
  @check_source Demo.lib (Demo.serving Demo.sina_body (float_of_Z 1700000000))
      "sina" Demo.sina_url "json" (NInt 72)
    = Return ("sina", Result true None 1 (Some (Demo.tenths 3)))
  /\ (0 < article_count (Result true None 1 (Some (Demo.tenths 3))))%nat.
Proof.
  split; [reflexivity|].
  apply (@check_source_result_shape Demo.lib
           (Demo.serving Demo.sina_body (float_of_Z 1700000000))
           "sina" Demo.sina_url "json" (NInt 72)
           "sina" (Result true None 1 (Some (Demo.tenths 3))) eq_refl).
  reflexivity.
Defined.

(** One article 80 h old against a threshold of 80 h: ok at the threshold
    itself, with the article counted and the age reported. *)
Lemma yielding_payload_ok_iff_fresh_witness :
  exists res,
    @check_source Demo.lib
        (Demo.serving "{result:{data:[{ctime:1699712000}]}}"
           (float_of_Z 1700000000))
        "sina" Demo.sina_url "json" (NInt 80) = Return ("sina", res)
    /\ article_count res = 1%nat
    /\ newest_age_hours res = Some (float_of_Z 80)
    /\ ok res = true.
Proof.
  destruct (proj2 (proj1 (@yielding_payload_ok_iff_fresh Demo.lib
              (Demo.serving "{result:{data:[{ctime:1699712000}]}}"
                 (float_of_Z 1700000000))
              "sina" Demo.sina_url "json" (NInt 80)
              "{result:{data:[{ctime:1699712000}]}}" eq_refl
              ltac:(discriminate))
              [Demo.article 1699712000] eq_refl
              (ex_intro _ "{result:{data:[{ctime:1699712000}]}}"
                 (ex_intro _ (Demo.sina_payload [Demo.article 1699712000])
                    (ex_intro _ (JObj [("data", JArr [Demo.article 1699712000])])
                       (conj eq_refl (conj eq_refl (conj eq_refl eq_refl))))))
              ltac:(discriminate))
              1699712000%Z (float_of_Z 1699712000))
    as (res & Hres & Hcount & Hage & Hok).
  - intros item Hin. apply list_elem_of_singleton in Hin. subst item.
    exists (Some 1699712000%Z). reflexivity.
  - split.
    + exists (Demo.article 1699712000). split; [apply list_elem_of_here|reflexivity].
    + intros item t Hin Hitem. apply list_elem_of_singleton in Hin. subst item.
      injection Hitem as <-. lia.
  - reflexivity.
  - exists res. split; [exact Hres|]. split; [exact Hcount|].
    split; [exact Hage|]. apply Hok. reflexivity.
Defined.

(** Three articles, one without [ctime]: the later of the two timestamps is
    kept. *)
Lemma newest_ctime_is_greatest_witness :
  (exists item,
      item ∈ [Demo.article 1699712000; JObj []; Demo.article 1699999000]
      /\ @usable_ctime Demo.lib item = Some 1699999000%Z)
  /\ (forall item t,
        item ∈ [Demo.article 1699712000; JObj []; Demo.article 1699999000] ->
        @usable_ctime Demo.lib item = Some t ->
        (t <= 1699999000)%Z).
Proof.
  exact (@newest_ctime_is_greatest Demo.lib
           [Demo.article 1699712000; JObj []; Demo.article 1699999000]
           (Some 1699999000%Z) eq_refl).
Defined.

(** Offline, third failure of Solidot: the failover call of the run meets
    every condition. *)
Lemma failover_only_at_threshold_witness :
  exists res,
    dict_get "Solidot"
      (@collect Demo.lib (task_io Demo.offline)
         (build_tasks (Demo.source_list "Solidot" Demo.solidot_url))
         (completion Demo.offline)) = Some res
    /\ ok res = false
    /\ (FAIL_THRESHOLD
        <= consecutive_fails
             (state_at (state_file (Demo.failed_twice Demo.solidot_url))
                "Solidot") + 1)%Z
    /\ FALLBACK_URLS !! "Solidot" = Some Demo.solidot_mirror
    /\ swapped_from
         (state_at (state_file (Demo.failed_twice Demo.solidot_url)) "Solidot")
       = None
    /\ _get_current_url (Demo.source_list "Solidot" Demo.solidot_url) "Solidot"
       = Return (Some Demo.solidot_url)
    /\ Demo.solidot_url <> "".
Proof.
  refine (proj1 (@failover_only_at_threshold Demo.lib Demo.offline
            (Demo.failed_twice Demo.solidot_url)
            (Demo.source_list "Solidot" Demo.solidot_url) eq_refl)
            (Call AutoSwap "Solidot" Demo.solidot_url Demo.solidot_mirror true)
            _ eq_refl).
  vm_compute. apply list_elem_of_here.
Defined.

(** The same run cannot reach a source the config does not list: the entry
    of "36氪" stays absent. *)
Lemma unlisted_source_untouched_witness :
  state_file (run_disk (@run_checks Demo.lib Demo.offline
                          (Demo.failed_twice Demo.solidot_url))) !! "36氪"
    = None.
Proof.
  refine (proj1 (@unlisted_source_untouched Demo.lib Demo.offline
            (Demo.failed_twice Demo.solidot_url) "36氪" _)).
  intros cfg t Hload Ht.
  change (Return (Demo.source_list "Solidot" Demo.solidot_url) = Return cfg)
    in Hload.
  injection Hload as <-. apply list_elem_of_singleton in Ht. subst t.
  discriminate.
Defined.

(** The config document spells the URL with escaped slashes: the failover
    call of the third failure finds no literal to replace, and the run
    leaves the document and [swapped_from] alone. *)
Lemma refused_calls_change_nothing_witness :
  run_calls (@run_checks Fleet.lib Demo.offline
               (Fleet.failed_twice Fleet.escaped_text))
    = [Call AutoSwap "Solidot" Demo.solidot_url Demo.solidot_mirror false]
  /\ config_file (run_disk (@run_checks Fleet.lib Demo.offline
                              (Fleet.failed_twice Fleet.escaped_text)))
     = Fleet.escaped_text
  /\ swapped_from
       (state_at
          (state_file (run_disk (@run_checks Fleet.lib Demo.offline
                                   (Fleet.failed_twice Fleet.escaped_text))))
          "Solidot") = None.
Proof.
  assert (Hcalls :
            run_calls (@run_checks Fleet.lib Demo.offline
                         (Fleet.failed_twice Fleet.escaped_text))
            = [Call AutoSwap "Solidot" Demo.solidot_url Demo.solidot_mirror
                 false]) by (vm_compute; reflexivity).
  split; [exact Hcalls|].
  destruct (@refused_calls_change_nothing Fleet.lib Demo.offline
              (Fleet.failed_twice Fleet.escaped_text)) as (Hcfg & Hsf & _).
  - intros c Hc. rewrite Hcalls in Hc. apply list_elem_of_singleton in Hc.
    subst c. reflexivity.
  - split; [exact Hcfg|]. exact (Hsf "Solidot").
Defined.

(** A first run with the feed served fresh: no call, the document is
    kept, nothing is reported as changed. *)
Lemma healthy_run_is_quiet_witness :
  run_calls (@run_checks Demo.lib Demo.recovered Fleet.first_run) = []
  /\ config_file (run_disk (@run_checks Demo.lib Demo.recovered Fleet.first_run))
     = Demo.config_text "Solidot" Demo.solidot_url.
Proof.
  destruct (@healthy_run_is_quiet Demo.lib Demo.recovered Fleet.first_run
              (Demo.source_list "Solidot" Demo.solidot_url) eq_refl)
    as (Hcalls & Hcfg & _).
  - intros name res Hget. apply dict_get_Some_elem in Hget.
    change ((name, res) ∈ [("Solidot", Result true None 1 (Some (float_of_Z 1)))])
      in Hget.
    apply list_elem_of_singleton in Hget. injection Hget as _ ->. reflexivity.
  - intros name. reflexivity.
  - split; [exact Hcalls|exact Hcfg].
Defined.

(** Solidot listed without a URL, third failure: the run raises and the
    state file still holds two failures. *)
Lemma missing_url_key_aborts_run_witness :
  run_outcome (@run_checks Fleet.lib Demo.offline
                 (Fleet.failed_twice Fleet.nameless_url_text))
    = Raise (Exn "KeyError" "'url'")
  /\ consecutive_fails
       (state_at
          (state_file (run_disk (@run_checks Fleet.lib Demo.offline
                         (Fleet.failed_twice Fleet.nameless_url_text))))
          "Solidot") = 2%Z.
Proof.
  split; [reflexivity|].
  destruct (@missing_url_key_aborts_run Fleet.lib Demo.offline
              (Fleet.failed_twice Fleet.nameless_url_text) Fleet.nameless_url
              "Solidot" _ Demo.solidot_mirror (Exn "KeyError" "'url'")
              eq_refl eq_refl eq_refl)
    as (_ & Hst & _).
  - vm_compute. discriminate.
  - reflexivity.
  - reflexivity.
  - reflexivity.
  - rewrite Hst. reflexivity.
Defined.

(** Two sections, two names: the lookup for "Solidot" returns the URL of
    its own entry. *)
Lemma current_url_is_own_url_witness :
  _get_current_url Fleet.sources "Solidot" = Return (Some Demo.solidot_url).
Proof.
  refine (proj1 (current_url_is_own_url Fleet.sources Fleet.solidot "Solidot"
                   _ _ eq_refl)).
  - apply NoDup_ListNoDup. repeat constructor; cbn; intuition discriminate.
  - apply list_elem_of_further, list_elem_of_here.
Defined.

(** Twins: whichever future completes last decides what is kept under the
    shared name. *)
Lemma last_completed_future_wins_witness :
  dict_get "Solidot" (@collect Demo.lib Fleet.twin_ios Fleet.twins [0%nat; 1%nat])
    = Some (Result true None 1 (Some (float_of_Z 1)))
  /\ dict_get "Solidot"
       (@collect Demo.lib Fleet.twin_ios Fleet.twins [1%nat; 0%nat])
     = Some (Result false (Some "unreachable: URLError") 0 None).
Proof.
  split.
  - refine (@last_completed_future_wins Demo.lib Fleet.twin_ios Fleet.twins
              [0%nat] [] 1%nat
              (Task "Solidot" Demo.solidot_mirror "rss" (NInt 72)) eq_refl _).
    intros j t' Hj. apply elem_of_nil in Hj. contradiction.
  - refine (@last_completed_future_wins Demo.lib Fleet.twin_ios Fleet.twins
              [1%nat] [] 0%nat
              (Task "Solidot" Demo.solidot_url "rss" (NInt 72)) eq_refl _).
    intros j t' Hj. apply elem_of_nil in Hj. contradiction.
Defined.

(** The run that fails Solidot over ends with status 1. *)
Lemma main_exit_status_witness :
  exit_status (@main Demo.lib true Demo.offline
                 (Demo.failed_twice Demo.solidot_url)).1 = 1%Z.
Proof.
  refine (proj1 (proj2 (proj2 (@main_exit_status Demo.lib true Demo.offline
            (Demo.failed_twice Demo.solidot_url) _ eq_refl))) _).
  discriminate.
Defined.

(** Solidot swapped to its mirror and back in a document whose lines end
    in CR LF: what comes back is the text of the document, its line ends
    as LF. *)
Lemma swap_back_restores_document_witness :
  @swap_url_in_config Demo.lib Demo.solidot_mirror Demo.solidot_url
    (@swap_url_in_config Demo.lib Demo.solidot_url Demo.solidot_mirror
       (Fleet.two_lines Fleet.crlf Demo.solidot_url)).2
  = (true, Fleet.two_lines Fleet.lf Demo.solidot_url).
Proof.
  exact (proj1 (proj2 (@swap_back_restores_document Demo.lib
                  Demo.solidot_url Demo.solidot_mirror
                  (Fleet.two_lines Fleet.crlf Demo.solidot_url) 33%nat
                  eq_refl eq_refl eq_refl))).
Defined.

(** The document of the demo, which holds no CR: the only occurrence of the
    old URL is replaced and the rest is kept. *)
Lemma swap_url_in_config_first_occurrence_witness :
  exists pre post,
    occurs_at (Demo.dumps Demo.solidot_url) pre post
      (Demo.config_text "Solidot" Demo.solidot_url)
    /\ leftmost (Demo.dumps Demo.solidot_url) pre
         (Demo.config_text "Solidot" Demo.solidot_url)
    /\ @swap_url_in_config Demo.lib Demo.solidot_url Demo.solidot_mirror
         (Demo.config_text "Solidot" Demo.solidot_url)
       = (true, pre ++ Demo.dumps Demo.solidot_mirror ++ post).
Proof.
  destruct (@swap_url_in_config_first_occurrence Demo.lib
              (Demo.config_text "Solidot" Demo.solidot_url)
              Demo.solidot_url Demo.solidot_mirror eq_refl)
    as [(_ & Hrefused)|Hswapped].
  - discriminate.
  - exact Hswapped.
Defined.

(** An ISO date between a space with a no-break space and a newline. *)
Lemma parse_date_ignores_padding_witness :
  @_parse_date_flexible Demo.lib
     ((" " ++ Fleet.nbsp) ++ "2023-01-02T08:00:00+08:00"
        ++ String (ascii_of_nat 10) "")
  = Some 1672617600%Z.
Proof.
  exact (proj1 (@parse_date_ignores_padding Demo.lib (" " ++ Fleet.nbsp)
                  "2023-01-02T08:00:00+08:00" (String (ascii_of_nat 10) "")
                  eq_refl eq_refl eq_refl)).
Defined.

(** A payload whose list of articles holds a number. *)
Lemma non_object_article_raises_witness :
  @check_source Fleet.lib
      (Demo.serving "{result:{data:[1]}}" (float_of_Z 1700000000))
      "sina" Demo.sina_url "json" (NInt 72)
  = Raise (Exn "AttributeError" "'int' object has no attribute 'get'").
Proof.
  refine (proj2 (@non_object_article_raises Fleet.lib
            (Demo.serving "{result:{data:[1]}}" (float_of_Z 1700000000))
            "sina" Demo.sina_url (NInt 72)
            "{result:{data:[1]}}" "{result:{data:[1]}}"
            (Demo.sina_payload [JInt 1]) (JObj [("data", JArr [JInt 1])])
            [JInt 1] (JInt 1) eq_refl _ eq_refl eq_refl eq_refl eq_refl _ _)
            [] [] eq_refl _).
  - discriminate.
  - apply list_elem_of_here.
  - discriminate.
  - intros item Hin. apply elem_of_nil in Hin. contradiction.
Defined.

(** A payload whose ["data"] is the number 7. *)
Lemma non_list_data_never_counts_witness :
  exists e,
    @check_source Fleet.lib
        (Demo.serving "{result:{data:7}}" (float_of_Z 1700000000))
        "sina" Demo.sina_url "json" (NInt 72) = Raise e.
Proof.
  refine (@non_list_data_never_counts Fleet.lib
            (Demo.serving "{result:{data:7}}" (float_of_Z 1700000000))
            "sina" Demo.sina_url (NInt 72)
            "{result:{data:7}}" "{result:{data:7}}"
            (JObj [("result", JObj [("data", JInt 7)])])
            (JObj [("data", JInt 7)]) (JInt 7)
            eq_refl _ eq_refl eq_refl eq_refl eq_refl _);
    discriminate.
Defined.

(** The stale payload of 80 h against 72 h: the second kind, with the
    article the age is taken from. *)
Lemma failed_result_kinds_witness :
  exists (raw : string) (ts : float),
    raw = "{result:{data:[{ctime:1699712000}]}}"
    /\ ts = float_of_Z 1699712000
    /\ float_gt_num (age_hours (float_of_Z 1700000000) ts) (NInt 72) = true
    /\ @stale_message Demo.lib (age_hours (float_of_Z 1700000000) ts) (NInt 72)
       = "stale feed (newest 80h, max 72h)"
    /\ @json_articles Demo.lib raw [Demo.article 1699712000]
    /\ @greatest_ctime Demo.lib [Demo.article 1699712000] 1699712000.
Proof.
  destruct (@failed_result_kinds Demo.lib
              (Demo.serving "{result:{data:[{ctime:1699712000}]}}"
                 (float_of_Z 1700000000))
              "sina" Demo.sina_url "json" (NInt 72) "sina"
              (Result false (Some "stale feed (newest 80h, max 72h)") 1
                 (Some (float_of_Z 80)))
              eq_refl eq_refl)
    as [(Hcount & _)
       |(raw & ts & Hraw & Hgt & Herr & _ & _
         & [(_ & items & newest & Hitems & _ & Hmax & Hfloat)|(Hty & _)])].
  - discriminate.
  - injection Hraw as <-.
    assert (Eitems : items = [Demo.article 1699712000]).
    { destruct Hitems as (text & data & res & Hdec & Hload & Hres & Hdata).
      injection Hdec as <-. injection Hload as <-. injection Hres as <-.
      injection Hdata as <-. reflexivity. }
    subst items.
    assert (Enewest : newest = 1699712000%Z).
    { destruct Hmax as ((item & Hin & Hitem) & _).
      apply list_elem_of_singleton in Hin. subst item.
      injection Hitem as <-. reflexivity. }
    subst newest. injection Hfloat as <-.
    exists "{result:{data:[{ctime:1699712000}]}}", (float_of_Z 1699712000).
    split; [reflexivity|]. split; [reflexivity|]. split; [exact Hgt|].
    split; [reflexivity|]. split; [exact Hitems|exact Hmax].
  - destruct (Hty eq_refl).
Defined.

(** A three-line env file: a comment, a quoted assignment whose key is
    followed by a no-break space, a line without a sign. *)
Lemma load_env_entries_clean_witness :
  str_strip "MAIL_TO" = "MAIL_TO"
  /\ str_contains "=" "MAIL_TO" = false
  /\ strip_prefix "#" "MAIL_TO" = None
  /\ strip_char "'" "ops@example.org" = "ops@example.org".
Proof.
  apply (load_env_entries_clean
           (Some ["# mail";
                  "MAIL_TO" ++ Fleet.nbsp ++ "= 'ops@example.org' ";
                  "no sign here"])).
  vm_compute. apply list_elem_of_here.
Defined.

(** A password with a blank inside, quoted, on the last line, a no-break
    space after the key. *)
Lemma load_env_reads_assignment_witness :
  dict_get "SMTP_PASS"
    (load_env
       (Some ["SMTP_USER=bot@example.org";
              "SMTP_PASS" ++ Fleet.nbsp ++ "= "
                ++ String double_quote
                     ("s3cret pass" ++ String double_quote "")
                ++ String (ascii_of_nat 10) ""]))
  = Some "s3cret pass".
Proof.
  exact (proj1 (load_env_reads_assignment ["SMTP_USER=bot@example.org"]
                  "" "SMTP_PASS" Fleet.nbsp " " "s3cret pass"
                  (String (ascii_of_nat 10) "")
                  eq_refl eq_refl eq_refl eq_refl ltac:(discriminate)
                  eq_refl eq_refl eq_refl eq_refl eq_refl eq_refl eq_refl)).
Defined.
